(** * A retrieval pipeline: chunking, chunk log, indexing, context assembly

    Shallow embedding of [auto_chunker.py], [build_index.py], [rag_query.py],
    [rag_utils.py] and [llm_utils.py], and the properties of the design
    document that concern them.

    Python [str] values are [String.string]; a character is an [ascii] read
    as the code point of the same number (0..255).  Where what the code
    does depends on the code points beyond, in writing the chunk log
    through the UTF-8 codec, a [str] is the list of its code points
    ([Unicode.str]), and the two readings are shown to agree on 8-bit
    text.  A file is the text it holds. *)

From Stdlib Require Import Bool Arith NArith Lia List Ascii String.
From Stdlib Require Import DecimalNat DecimalString Finite.
Import ListNotations.
Local Open Scope string_scope.
Local Open Scope list_scope.

(* ================================================================== *)
(** * Python built-ins used by the scripts *)

Module Py.

Definition nl : ascii := "010"%char.
Definition cr : ascii := "013"%char.
Definition tab : ascii := "009"%char.

(** [str.isspace] on one character, which is also [\s] of [re] on [str]
    patterns: TAB..CR, FS..US, SPACE, NEL and NBSP. *)
Definition isspace (c : ascii) : bool :=
  let n := nat_of_ascii c in
  (((9 <=? n) && (n <=? 13)) || ((28 <=? n) && (n <=? 32))
   || (n =? 133) || (n =? 160))%nat.

Definition is_empty (s : string) : bool :=
  match s with EmptyString => true | String _ _ => false end.

Fixpoint lstrip (s : string) : string :=
  match s with
  | EmptyString => EmptyString
  | String c s' => if isspace c then lstrip s' else s
  end.

Fixpoint rstrip (s : string) : string :=
  match s with
  | EmptyString => EmptyString
  | String c s' =>
      let r := rstrip s' in
      if isspace c && is_empty r then EmptyString else String c r
  end.

(** [s.strip()] *)
Definition strip (s : string) : string := rstrip (lstrip s).

(** [s.startswith(w)] *)
Fixpoint startswith (s w : string) {struct w} : bool :=
  match w with
  | EmptyString => true
  | String a w' =>
      match s with
      | EmptyString => false
      | String b s' => Ascii.eqb a b && startswith s' w'
      end
  end.

Fixpoint drop (n : nat) (s : string) : string :=
  match n with
  | 0 => s
  | S k => match s with EmptyString => EmptyString | String _ s' => drop k s' end
  end.

(** [s.endswith(w)] *)
Definition endswith (s w : string) : bool :=
  (String.length w <=? String.length s)%nat
  && String.eqb (drop (String.length s - String.length w) s) w.

(** [sep.join(parts)] *)
Fixpoint join (sep : string) (parts : list string) : string :=
  match parts with
  | [] => EmptyString
  | [p] => p
  | p :: ps => p ++ sep ++ join sep ps
  end.

(** [str(n)] for a non-negative [int], as an f-string renders it. *)
Definition str_of_nat (n : nat) : string :=
  NilEmpty.string_of_uint (Nat.to_uint n).

(** [l[i:j]] for [0 <= i]. *)
Definition slice {A} (l : list A) (i j : nat) : list A :=
  firstn (j - i) (skipn i l).

(** [range(start, stop, step)] for [step > 0]: the empty range when
    [stop <= start], else [start, start+step, ...] below [stop]. *)
Definition range3 (start stop step : nat) : list nat :=
  map (fun k => start + k * step)
      (seq 0 ((stop - start + (step - 1)) / step)).

(** [enumerate(l, start)] *)
Fixpoint enumerate {A} (start : nat) (l : list A) : list (nat * A) :=
  match l with
  | [] => []
  | x :: xs => (start, x) :: enumerate (S start) xs
  end.

(** [zip(l1, l2)]: stops with the shorter list. *)
Fixpoint zip {A B} (l1 : list A) (l2 : list B) : list (A * B) :=
  match l1, l2 with
  | x :: xs, y :: ys => (x, y) :: zip xs ys
  | _, _ => []
  end.

(** Exceptions of class [Exception]; [str(e)] is the message. *)
Record exn : Type := Exn { exn_class : string; exn_msg : string }.

Inductive result (A : Type) : Type :=
| Ok (a : A)
| Raise (e : exn).
Arguments Ok {A} a.
Arguments Raise {A} e.

Definition bind {A B} (m : result A) (f : A -> result B) : result B :=
  match m with
  | Ok a => f a
  | Raise e => Raise e
  end.

(** [try: body  except Exception as e: handler(e)] *)
Definition try_except {A} (body : result A) (handler : exn -> result A)
  : result A :=
  match body with
  | Ok a => Ok a
  | Raise e => handler e
  end.

Fixpoint mapM {A B} (f : A -> result B) (l : list A) : result (list B) :=
  match l with
  | [] => Ok []
  | x :: xs =>
      bind (f x) (fun y => bind (mapM f xs) (fun ys => Ok (y :: ys)))
  end.

End Py.

Notation "x <- m ;; k" := (Py.bind m (fun x => k))
  (at level 61, m at next level, right associativity).

(* ================================================================== *)
(** * The fragment of [re] the chunker uses *)

Module Re.
Import Py.

(** Patterns: literals, classes, [^] under [re.MULTILINE], sequence,
    alternation, greedy star of a class, and lookahead [(?=...)]. *)
Inductive regex : Type :=
| Eps
| Chr (c : ascii)
| Cls (p : ascii -> bool)
| Bol
| Seq (r1 r2 : regex)
| Alt (r1 r2 : regex)
| Many (p : ascii -> bool)
| Ahead (r : regex).

(** A literal word, character by character. *)
Fixpoint lit (w : string) : regex :=
  match w with
  | EmptyString => Eps
  | String c w' => Seq (Chr c) (lit w')
  end.

(** A continuation receives the character before the current position
    and the rest of the subject, and answers with the rest after the
    whole match. *)
Definition cont : Type := option ascii -> string -> option string.

(** Greedy [p*] with backtracking: the longest run is tried first. *)
Fixpoint many (p : ascii -> bool) (prev : option ascii) (s : string)
  (k : cont) : option string :=
  match s with
  | String c s' =>
      if p c then
        match many p (Some c) s' k with
        | Some r => Some r
        | None => k prev s
        end
      else k prev s
  | EmptyString => k prev s
  end.

Definition at_bol (prev : option ascii) : bool :=
  match prev with
  | None => true
  | Some c => Ascii.eqb c nl
  end.

(** The backtracking matcher, alternatives in priority order. *)
Fixpoint rmatch (r : regex) (prev : option ascii) (s : string) (k : cont)
  : option string :=
  match r with
  | Eps => k prev s
  | Chr c =>
      match s with
      | String d s' => if Ascii.eqb c d then k (Some d) s' else None
      | EmptyString => None
      end
  | Cls p =>
      match s with
      | String d s' => if p d then k (Some d) s' else None
      | EmptyString => None
      end
  | Bol => if at_bol prev then k prev s else None
  | Seq r1 r2 => rmatch r1 prev s (fun prev' s' => rmatch r2 prev' s' k)
  | Alt r1 r2 =>
      match rmatch r1 prev s k with
      | Some x => Some x
      | None => rmatch r2 prev s k
      end
  | Many p => many p prev s k
  | Ahead r1 =>
      match rmatch r1 prev s (fun _ s' => Some s') with
      | Some _ => k prev s
      | None => None
      end
  end.

(** One match attempt at the current position: the length of the match.
    With [must_advance] an empty match is a failure and the matcher
    backtracks, as after an empty match at the same position. *)
Definition try_at (r : regex) (prev : option ascii) (s : string)
  (must_advance : bool) : option nat :=
  match rmatch r prev s
          (fun _ rest =>
             if must_advance && (String.length rest =? String.length s)%nat
             then None else Some rest) with
  | Some rest => Some (String.length s - String.length rest)
  | None => None
  end.

Definition cons_hd (c : ascii) (l : list string) : list string :=
  match l with
  | p :: ps => String c p :: ps
  | [] => [String c EmptyString]
  end.

(** The loop of [re.split] for a pattern without groups, from the
    position whose rest is [s]: search the leftmost match, close the
    current segment there, and go on after the match.  [skip] counts the
    characters of a match still to be passed. *)
Fixpoint scan (r : regex) (prev : option ascii) (s : string) (skip : nat)
  : list string :=
  match s with
  | EmptyString =>
      match try_at r prev EmptyString false with
      | Some _ => [EmptyString; EmptyString]
      | None => [EmptyString]
      end
  | String c s' =>
      match skip with
      | S k => scan r (Some c) s' k
      | 0 =>
          match try_at r prev s false with
          | Some (S m) => EmptyString :: scan r (Some c) s' m
          | Some 0 =>
              EmptyString ::
              match try_at r prev s true with
              | Some (S m) => EmptyString :: scan r (Some c) s' m
              | _ => cons_hd c (scan r (Some c) s' 0)
              end
          | None => cons_hd c (scan r (Some c) s' 0)
          end
      end
  end.

(** [re.split(pattern, s, flags=re.MULTILINE)] *)
Definition split (r : regex) (s : string) : list string :=
  scan r None s 0.

End Re.

(* ================================================================== *)
(** * auto_chunker.py *)

Module AutoChunker.
Import Py.

(** The dict literal [{'text': ..., 'source': ..., 'type': ...}]. *)
Record Chunk : Type := mkChunk {
  text : string;
  source : string;
  type : string
}.

(** A notebook cell as [nbformat] hands it over. *)
Record cell : Type := mkCell {
  cell_type : string;
  cell_source : string
}.

(** What the scripts ask of the outside: reading a text file, reading a
    notebook, importing and using the PDF reader (one extraction outcome
    per page), walking a folder, and printing a line on standard output,
    which raises when the stream refuses the text or is closed. *)
Record world : Type := mkWorld {
  read_text : string -> result string;
  nbformat_read : string -> result (list cell);
  import_PyPDF2 : result unit;
  PdfReader : string -> result (list (result string));
  os_walk : string -> list (string * list string);
  print : string -> result unit
}.

(** [f"Error reading {file_path}: {e}"] *)
Definition error_line (file_path : string) (e : exn) : string :=
  "Error reading " ++ file_path ++ ": " ++ exn_msg e.

(** [r'(?=^def |^class )'] *)
Definition pattern_py : Re.regex :=
  Re.Ahead (Re.Alt (Re.Seq Re.Bol (Re.lit "def "))
                   (Re.Seq Re.Bol (Re.lit "class "))).

(** [r'\n\s*\n|^#'] *)
Definition pattern_md : Re.regex :=
  Re.Alt (Re.Seq (Re.Chr nl) (Re.Seq (Re.Many isspace) (Re.Chr nl)))
         (Re.Seq Re.Bol (Re.Chr "#")).

(** [r'\n\s*\n'] *)
Definition pattern_pdf : Re.regex :=
  Re.Seq (Re.Chr nl) (Re.Seq (Re.Many isspace) (Re.Chr nl)).

Fixpoint ipynb_cells (file_path : string) (cells : list cell) : list Chunk :=
  match cells with
  | [] => []
  | c :: rest =>
      mkChunk (cell_source c) file_path (cell_type c)
      :: ipynb_cells file_path rest
  end.

Definition chunk_ipynb (w : world) (file_path : string)
  : result (list Chunk) :=
  cells <- nbformat_read w file_path ;;
  Ok (ipynb_cells file_path cells).

Definition py_type (block : string) : string :=
  if startswith block "def " then "function"
  else if startswith block "class " then "class"
  else "top-level".

Fixpoint py_blocks (file_path : string) (splits : list string) : list Chunk :=
  match splits with
  | [] => []
  | block :: rest =>
      let block := strip block in
      if is_empty block then py_blocks file_path rest
      else mkChunk block file_path (py_type block) :: py_blocks file_path rest
  end.

Definition chunk_py (w : world) (file_path : string) : result (list Chunk) :=
  content <- read_text w file_path ;;
  Ok (py_blocks file_path (Re.split pattern_py content)).

Fixpoint md_blocks (file_path : string) (splits : list string) : list Chunk :=
  match splits with
  | [] => []
  | block :: rest =>
      let block := strip block in
      if is_empty block then md_blocks file_path rest
      else mkChunk block file_path "markdown" :: md_blocks file_path rest
  end.

Definition chunk_md (w : world) (file_path : string) : result (list Chunk) :=
  content <- read_text w file_path ;;
  Ok (md_blocks file_path (Re.split pattern_md content)).

(** The page loop: [text += page_text + "\n"] for each non-empty page. *)
Fixpoint pdf_text (pages : list (result string)) (text : string)
  : result string :=
  match pages with
  | [] => Ok text
  | page :: rest =>
      page_text <- page ;;
      pdf_text rest
        (if is_empty page_text then text
         else text ++ page_text ++ String nl EmptyString)
  end.

Fixpoint pdf_paragraphs (file_path : string) (paragraphs : list string)
  : list Chunk :=
  match paragraphs with
  | [] => []
  | para :: rest =>
      let para := strip para in
      if (30 <? String.length para)%nat
      then mkChunk para file_path "pdf" :: pdf_paragraphs file_path rest
      else pdf_paragraphs file_path rest
  end.

(** The import is outside the [try]; an exception inside it leaves
    [chunks] as it was when raised, and nothing is appended before the
    paragraph loop, which cannot raise.  The handler prints the error
    line and the function then returns [chunks]; an exception raised by
    that [print] leaves the function. *)
Definition chunk_pdf (w : world) (file_path : string)
  : result (list Chunk) :=
  _ <- import_PyPDF2 w ;;
  try_except
    (pages <- PdfReader w file_path ;;
     text <- pdf_text pages EmptyString ;;
     Ok (pdf_paragraphs file_path (Re.split pattern_pdf text)))
    (fun e => _ <- print w (error_line file_path e) ;; Ok []).

(** [os.path.join(a, b)] *)
Definition path_join (a b : string) : string :=
  if startswith b "/" then b
  else if is_empty a || endswith a "/" then a ++ b
  else a ++ "/" ++ b.

(** [try: all_chunks.extend(chunker(file_path))]
    [except Exception as e: print(f"Error reading {file_path}: {e}")];
    an exception raised by the [print] of the handler is not caught. *)
Definition try_extend (w : world) (file_path : string)
  (all_chunks : list Chunk) (r : result (list Chunk))
  : result (list Chunk) :=
  try_except (chunks <- r ;; Ok (all_chunks ++ chunks)%list)
             (fun e => _ <- print w (error_line file_path e) ;; Ok all_chunks).

(** The body of the inner loop, on the list built so far. *)
Definition visit_file (w : world) (dirpath filename : string)
  (all_chunks : list Chunk) : result (list Chunk) :=
  let file_path := path_join dirpath filename in
  if endswith filename ".ipynb" then
    try_extend w file_path all_chunks (chunk_ipynb w file_path)
  else if endswith filename ".py" then
    try_extend w file_path all_chunks (chunk_py w file_path)
  else if endswith filename ".md" then
    try_extend w file_path all_chunks (chunk_md w file_path)
  else if endswith filename ".pdf" then
    try_extend w file_path all_chunks (chunk_pdf w file_path)
  else Ok all_chunks.

Fixpoint visit_files (w : world) (dirpath : string) (filenames : list string)
  (all_chunks : list Chunk) : result (list Chunk) :=
  match filenames with
  | [] => Ok all_chunks
  | filename :: rest =>
      all_chunks' <- visit_file w dirpath filename all_chunks ;;
      visit_files w dirpath rest all_chunks'
  end.

Fixpoint visit_dirs (w : world) (dirs : list (string * list string))
  (all_chunks : list Chunk) : result (list Chunk) :=
  match dirs with
  | [] => Ok all_chunks
  | (dirpath, filenames) :: rest =>
      all_chunks' <- visit_files w dirpath filenames all_chunks ;;
      visit_dirs w rest all_chunks'
  end.

Definition auto_chunk_folder (w : world) (root_folder : string)
  : result (list Chunk) :=
  visit_dirs w (os_walk w root_folder) [].

End AutoChunker.

(* ================================================================== *)
(** * Dictionaries and the fragment of [json] the chunk log uses *)

Module Json.
Import Py.

(** A [dict] from [str] to [str], keys in insertion order. *)
Definition dict : Type := list (string * string).

(** [d[k] = v] *)
Fixpoint dict_set (d : dict) (k v : string) : dict :=
  match d with
  | [] => [(k, v)]
  | (k', v') :: rest =>
      if String.eqb k' k then (k, v) :: rest
      else (k', v') :: dict_set rest k v
  end.

(** [d.get(k)] *)
Fixpoint dict_find (d : dict) (k : string) : option string :=
  match d with
  | [] => None
  | (k', v) :: rest => if String.eqb k' k then Some v else dict_find rest k
  end.

(** [d[k]] *)
Definition getitem (d : dict) (k : string) : result string :=
  match dict_find d k with
  | Some v => Ok v
  | None => Raise (Exn "KeyError" k)
  end.

(** [d.get(k, default)] *)
Definition get_default (d : dict) (k default : string) : string :=
  match dict_find d k with
  | Some v => v
  | None => default
  end.

(** [dict(pairs)] *)
Definition dict_of_pairs (pairs : list (string * string)) : dict :=
  fold_left (fun d kv => dict_set d (fst kv) (snd kv)) pairs [].

Definition dquote : ascii := "034"%char.
Definition backslash : ascii := "092"%char.

Definition hexdigit (n : nat) : ascii :=
  ascii_of_nat (if (n <? 10)%nat then 48 + n else 87 + n).

(** One character under [ensure_ascii=False]: the short escapes, and
    [\u00XX] for the other characters below 0x20; all else unchanged. *)
Definition escape_char (c : ascii) : string :=
  let n := nat_of_ascii c in
  if Ascii.eqb c backslash then "\\"
  else if Ascii.eqb c dquote then String backslash (String dquote EmptyString)
  else if (n =? 8)%nat then "\b"
  else if (n =? 12)%nat then "\f"
  else if (n =? 10)%nat then "\n"
  else if (n =? 13)%nat then "\r"
  else if (n =? 9)%nat then "\t"
  else if (n <? 32)%nat then
    "\u00" ++ String (hexdigit (n / 16)) (String (hexdigit (n mod 16)) EmptyString)
  else String c EmptyString.

Fixpoint escape (s : string) : string :=
  match s with
  | EmptyString => EmptyString
  | String c s' => escape_char c ++ escape s'
  end.

(** A [str] as a JSON string. *)
Definition encode_str (s : string) : string :=
  String dquote (escape s ++ String dquote EmptyString).

Definition encode_item (kv : string * string) : string :=
  encode_str (fst kv) ++ ": " ++ encode_str (snd kv).

(** [json.dumps(d, ensure_ascii=False)] for a dict of strings. *)
Definition dumps (d : dict) : string :=
  "{" ++ join ", " (map encode_item d) ++ "}".

Definition JSONDecodeError (msg : string) : exn := Exn "JSONDecodeError" msg.

Definition hexval (c : ascii) : option nat :=
  let n := nat_of_ascii c in
  if ((48 <=? n) && (n <=? 57))%nat then Some (n - 48)
  else if ((97 <=? n) && (n <=? 102))%nat then Some (n - 87)
  else if ((65 <=? n) && (n <=? 70))%nat then Some (n - 55)
  else None.

(** The character of [\uXXXX]; code points from 256 on are outside the
    character model and reported as undecodable here. *)
Definition decode_u (h1 h2 h3 h4 : ascii) : option ascii :=
  match hexval h1, hexval h2, hexval h3, hexval h4 with
  | Some a, Some b, Some c, Some d =>
      let n := ((a * 16 + b) * 16 + c) * 16 + d in
      if (n <? 256)%nat then Some (ascii_of_nat n) else None
  | _, _, _, _ => None
  end.

(** The character of a short escape [\c]. *)
Definition unescape_char (c : ascii) : option ascii :=
  if Ascii.eqb c dquote then Some dquote
  else if Ascii.eqb c backslash then Some backslash
  else if Ascii.eqb c "/" then Some "/"%char
  else if Ascii.eqb c "b" then Some (ascii_of_nat 8)
  else if Ascii.eqb c "f" then Some (ascii_of_nat 12)
  else if Ascii.eqb c "n" then Some nl
  else if Ascii.eqb c "r" then Some cr
  else if Ascii.eqb c "t" then Some tab
  else None.

Definition cons_fst (c : ascii) (r : option (string * string))
  : option (string * string) :=
  match r with
  | Some (v, rest) => Some (String c v, rest)
  | None => None
  end.

(** The strict string scanner, from just after the opening quote: the
    decoded string and the rest after the closing quote. *)
Fixpoint scanstring (s : string) : option (string * string) :=
  match s with
  | EmptyString => None
  | String c s1 =>
      if Ascii.eqb c dquote then Some (EmptyString, s1)
      else if Ascii.eqb c backslash then
        match s1 with
        | EmptyString => None
        | String e s2 =>
            if Ascii.eqb e "u" then
              match s2 with
              | String h1 (String h2 (String h3 (String h4 s3))) =>
                  match decode_u h1 h2 h3 h4 with
                  | Some ch => cons_fst ch (scanstring s3)
                  | None => None
                  end
              | _ => None
              end
            else
              match unescape_char e with
              | Some ch => cons_fst ch (scanstring s2)
              | None => None
              end
        end
      else if (nat_of_ascii c <? 32)%nat then None
      else cons_fst c (scanstring s1)
  end.

Definition is_ws (c : ascii) : bool :=
  Ascii.eqb c " " || Ascii.eqb c tab || Ascii.eqb c nl || Ascii.eqb c cr.

Fixpoint skip_ws (s : string) : string :=
  match s with
  | EmptyString => EmptyString
  | String c s' => if is_ws c then skip_ws s' else s
  end.

(** The member loop of an object, from just after the opening quote of
    a key.  Values are strings: another kind of value is outside this
    model and reported as undecodable. *)
Fixpoint members (fuel : nat) (s : string) (pairs : list (string * string))
  : option (list (string * string) * string) :=
  match fuel with
  | 0 => None
  | S fuel' =>
      match scanstring s with
      | None => None
      | Some (key, s1) =>
          match skip_ws s1 with
          | String ":" s2 =>
              match skip_ws s2 with
              | String q s3 =>
                  if Ascii.eqb q dquote then
                    match scanstring s3 with
                    | None => None
                    | Some (value, s4) =>
                        let pairs' := (pairs ++ [(key, value)])%list in
                        match skip_ws s4 with
                        | String "}" s5 => Some (pairs', s5)
                        | String "," s5 =>
                            match skip_ws s5 with
                            | String q' s6 =>
                                if Ascii.eqb q' dquote
                                then members fuel' s6 pairs'
                                else None
                            | EmptyString => None
                            end
                        | _ => None
                        end
                    end
                  else None
              | EmptyString => None
              end
          | _ => None
          end
      end
  end.

Definition parse_object (s : string) : option (dict * string) :=
  match skip_ws s with
  | String "}" rest => Some ([], rest)
  | String q s1 =>
      if Ascii.eqb q dquote then
        match members (String.length s1) s1 [] with
        | Some (pairs, rest) => Some (dict_of_pairs pairs, rest)
        | None => None
        end
      else None
  | EmptyString => None
  end.

(** [json.loads(s)] for an object of strings: blanks around the document
    are allowed, anything else after it is an error. *)
Definition loads (s : string) : result dict :=
  match skip_ws s with
  | String "{" s1 =>
      match parse_object s1 with
      | Some (d, rest) =>
          if is_empty (skip_ws rest) then Ok d
          else Raise (JSONDecodeError "Extra data")
      | None => Raise (JSONDecodeError "Expecting value")
      end
  | _ => Raise (JSONDecodeError "Expecting value")
  end.

End Json.

(* ================================================================== *)
(** * Python strings in full, for the text written to the chunk log *)

Module Unicode.

(** A [str] as the list of its code points, numbers below [0x110000].
    The strings of the other modules are those whose code points are
    all below 256; a lone surrogate, which a [str] can hold but no
    UTF-8 text can, is a code point from [0xD800] to [0xDFFF]. *)
Definition str : Type := list N.

(** The code point of an 8-bit character, and the [str] of an 8-bit
    string. *)
Definition char (c : ascii) : N := N_of_ascii c.

Fixpoint of_string (s : string) : str :=
  match s with
  | EmptyString => []
  | String c s' => char c :: of_string s'
  end.

Definition is_surrogate (n : N) : bool :=
  ((0xD800 <=? n) && (n <=? 0xDFFF))%N.

(** [s.encode("utf-8")] succeeds. *)
Definition encodable (s : str) : bool :=
  forallb (fun n => negb (is_surrogate n)) s.

Fixpoint eqb (a b : str) : bool :=
  match a, b with
  | [], [] => true
  | x :: a', y :: b' => (x =? y)%N && eqb a' b'
  | _, _ => false
  end.

(** [sep.join(parts)] *)
Fixpoint join (sep : str) (parts : list str) : str :=
  match parts with
  | [] => []
  | [p] => p
  | p :: ps => p ++ sep ++ join sep ps
  end.

End Unicode.

(* ================================================================== *)
(** * The same fragment of [json], on strings in full *)

Module UnicodeJson.
Import Py Unicode.
Local Open Scope N_scope.

(** A [dict] from [str] to [str], keys in insertion order. *)
Definition dict : Type := list (str * str).

(** [d[k] = v] *)
Fixpoint dict_set (d : dict) (k v : str) : dict :=
  match d with
  | [] => [(k, v)]
  | (k', v') :: rest =>
      if eqb k' k then (k, v) :: rest
      else (k', v') :: dict_set rest k v
  end.

(** [d.get(k)] *)
Fixpoint dict_find (d : dict) (k : str) : option str :=
  match d with
  | [] => None
  | (k', v) :: rest => if eqb k' k then Some v else dict_find rest k
  end.

(** [dict(pairs)] *)
Definition dict_of_pairs (pairs : list (str * str)) : dict :=
  fold_left (fun d kv => dict_set d (fst kv) (snd kv)) pairs [].

Definition dquote : N := 34.
Definition backslash : N := 92.

Definition hexdigit (n : N) : N :=
  if n <? 10 then 48 + n else 87 + n.

(** One character under [ensure_ascii=False]: the short escapes, and
    [\u00XX] for the other characters below 0x20; all else unchanged,
    surrogates included. *)
Definition escape_char (n : N) : str :=
  if n =? backslash then [backslash; backslash]
  else if n =? dquote then [backslash; dquote]
  else if n =? 8 then [backslash; char "b"]
  else if n =? 12 then [backslash; char "f"]
  else if n =? 10 then [backslash; char "n"]
  else if n =? 13 then [backslash; char "r"]
  else if n =? 9 then [backslash; char "t"]
  else if n <? 32 then
    [backslash; char "u"; char "0"; char "0";
     hexdigit (n / 16); hexdigit (n mod 16)]
  else [n].

Definition escape (s : str) : str := flat_map escape_char s.

(** A [str] as a JSON string. *)
Definition encode_str (s : str) : str :=
  dquote :: escape s ++ [dquote].

Definition encode_item (kv : str * str) : str :=
  encode_str (fst kv) ++ of_string ": " ++ encode_str (snd kv).

(** [json.dumps(d, ensure_ascii=False)] for a dict of strings. *)
Definition dumps (d : dict) : str :=
  of_string "{" ++ join (of_string ", ") (map encode_item d) ++ of_string "}".

Definition hexval (n : N) : option N :=
  if (48 <=? n) && (n <=? 57) then Some (n - 48)
  else if (97 <=? n) && (n <=? 102) then Some (n - 87)
  else if (65 <=? n) && (n <=? 70) then Some (n - 55)
  else None.

(** The code point of [\uXXXX]. *)
Definition decode_u (h1 h2 h3 h4 : N) : option N :=
  match hexval h1, hexval h2, hexval h3, hexval h4 with
  | Some a, Some b, Some c, Some d => Some (((a * 16 + b) * 16 + c) * 16 + d)
  | _, _, _, _ => None
  end.

(** The character of a short escape [\c]. *)
Definition unescape_char (c : N) : option N :=
  if c =? dquote then Some dquote
  else if c =? backslash then Some backslash
  else if c =? char "/" then Some (char "/")
  else if c =? char "b" then Some 8
  else if c =? char "f" then Some 12
  else if c =? char "n" then Some 10
  else if c =? char "r" then Some 13
  else if c =? char "t" then Some 9
  else None.

Definition cons_fst (c : N) (r : option (str * str)) : option (str * str) :=
  match r with
  | Some (v, rest) => Some (c :: v, rest)
  | None => None
  end.

Definition is_high (n : N) : bool := (0xD800 <=? n) && (n <=? 0xDBFF).
Definition is_low (n : N) : bool := (0xDC00 <=? n) && (n <=? 0xDFFF).

(** The character two escapes [\uXXXX\uYYYY] of a surrogate pair stand
    for. *)
Definition pair_char (uni uni2 : N) : N :=
  0x10000 + N.lor (N.shiftl (uni - 0xD800) 10) (uni2 - 0xDC00).

(** The strict string scanner, from just after the opening quote: the
    decoded string and the rest after the closing quote. *)
Fixpoint scanstring (s : str) : option (str * str) :=
  match s with
  | [] => None
  | c :: s1 =>
      if c =? dquote then Some ([], s1)
      else if c =? backslash then
        match s1 with
        | [] => None
        | e :: s2 =>
            if e =? char "u" then
              match s2 with
              | h1 :: h2 :: h3 :: h4 :: s3 =>
                  match decode_u h1 h2 h3 h4 with
                  | Some uni =>
                      if is_high uni then
                        match s3 with
                        | b :: u :: s4 =>
                            if (b =? backslash) && (u =? char "u") then
                              match s4 with
                              | g1 :: g2 :: g3 :: g4 :: s5 =>
                                  match decode_u g1 g2 g3 g4 with
                                  | Some uni2 =>
                                      if is_low uni2
                                      then cons_fst (pair_char uni uni2)
                                                    (scanstring s5)
                                      else cons_fst uni (scanstring s3)
                                  | None => None
                                  end
                              | _ => None
                              end
                            else cons_fst uni (scanstring s3)
                        | _ => cons_fst uni (scanstring s3)
                        end
                      else cons_fst uni (scanstring s3)
                  | None => None
                  end
              | _ => None
              end
            else
              match unescape_char e with
              | Some ch => cons_fst ch (scanstring s2)
              | None => None
              end
        end
      else if c <? 32 then None
      else cons_fst c (scanstring s1)
  end.

Definition is_ws (c : N) : bool :=
  (c =? 32) || (c =? 9) || (c =? 10) || (c =? 13).

Fixpoint skip_ws (s : str) : str :=
  match s with
  | [] => []
  | c :: s' => if is_ws c then skip_ws s' else s
  end.

(** The member loop of an object, from just after the opening quote of
    a key.  Values are strings: another kind of value is outside this
    model and reported as undecodable. *)
Fixpoint members (fuel : nat) (s : str) (pairs : list (str * str))
  : option (list (str * str) * str) :=
  match fuel with
  | O => None
  | S fuel' =>
      match scanstring s with
      | None => None
      | Some (key, s1) =>
          match skip_ws s1 with
          | colon :: s2 =>
              if colon =? char ":" then
                match skip_ws s2 with
                | q :: s3 =>
                    if q =? dquote then
                      match scanstring s3 with
                      | None => None
                      | Some (value, s4) =>
                          let pairs' := (pairs ++ [(key, value)])%list in
                          match skip_ws s4 with
                          | sep :: s5 =>
                              if sep =? char "}" then Some (pairs', s5)
                              else if sep =? char "," then
                                match skip_ws s5 with
                                | q' :: s6 =>
                                    if q' =? dquote
                                    then members fuel' s6 pairs'
                                    else None
                                | [] => None
                                end
                              else None
                          | [] => None
                          end
                      end
                    else None
                | [] => None
                end
              else None
          | [] => None
          end
      end
  end.

Definition parse_object (s : str) : option (dict * str) :=
  match skip_ws s with
  | q :: s1 =>
      if q =? char "}" then Some ([], s1)
      else if q =? dquote then
        match members (List.length s1) s1 [] with
        | Some (pairs, rest) => Some (dict_of_pairs pairs, rest)
        | None => None
        end
      else None
  | [] => None
  end.

(** [json.loads(s)] for an object of strings: blanks around the document
    are allowed, anything else after it is an error. *)
Definition loads (s : str) : result dict :=
  match skip_ws s with
  | c :: s1 =>
      if c =? char "{" then
        match parse_object s1 with
        | Some (d, rest) =>
            match skip_ws rest with
            | [] => Ok d
            | _ :: _ => Raise (Json.JSONDecodeError "Extra data")
            end
        | None => Raise (Json.JSONDecodeError "Expecting value")
        end
      else Raise (Json.JSONDecodeError "Expecting value")
  | [] => Raise (Json.JSONDecodeError "Expecting value")
  end.

End UnicodeJson.

(* ================================================================== *)
(** * The chunk log on 8-bit text: the reader of build_index.py *)

Module ChunkLog.
Import Py.

(** The chunk as the dict the chunker builds. *)
Definition as_dict (c : AutoChunker.Chunk) : Json.dict :=
  [("text", AutoChunker.text c);
   ("source", AutoChunker.source c);
   ("type", AutoChunker.type c)].

(** Reading in text mode: [\r\n] and [\r] arrive as [\n]. *)
Fixpoint universal_newlines (s : string) : string :=
  match s with
  | EmptyString => EmptyString
  | String c s1 =>
      if Ascii.eqb c cr then
        String nl
          match s1 with
          | String d s2 =>
              if Ascii.eqb d nl then universal_newlines s2
              else universal_newlines s1
          | EmptyString => EmptyString
          end
      else String c (universal_newlines s1)
  end.

(** [for line in f]: the lines with their ends kept. *)
Fixpoint lines_keepends (s : string) : list string :=
  match s with
  | EmptyString => []
  | String c s' =>
      if Ascii.eqb c nl then String nl EmptyString :: lines_keepends s'
      else Re.cons_hd c (lines_keepends s')
  end.

(** [for line in f: chunks.append(json.loads(line))] *)
Definition read_log (file : string) : result (list Json.dict) :=
  mapM Json.loads (lines_keepends (universal_newlines file)).

End ChunkLog.

(* ================================================================== *)
(** * The chunk log on strings in full: the writer of auto_chunker.py
    and the reader of build_index.py *)

Module UnicodeLog.
Import Py Unicode.

(** A chunk dict whose fields may hold any code point. *)
Record Chunk : Type := mkChunk {
  text : str;
  source : str;
  type : str
}.

Definition as_dict (c : Chunk) : UnicodeJson.dict :=
  [(of_string "text", text c);
   (of_string "source", source c);
   (of_string "type", type c)].

(** What [out.write] raises for a text the UTF-8 codec refuses; the
    message of the codec also names the character and its position. *)
Definition UnicodeEncodeError : exn :=
  Exn "UnicodeEncodeError" "surrogates not allowed".

(** [out.write(line)] on a file opened with [encoding="utf-8"]: the
    text of the file after the call, and the outcome.  A line that
    cannot be encoded leaves the file as it was. *)
Definition write (out line : str) : str * result unit :=
  if encodable line then ((out ++ line)%list, Ok tt)
  else (out, Raise UnicodeEncodeError).

(** [for chunk in chunks: out.write(json.dumps(chunk, ...) + "\n")]:
    the text of the file when the loop is left, and how it is left. *)
Fixpoint write_log (chunks : list UnicodeJson.dict) (out : str)
  : str * result unit :=
  match chunks with
  | [] => (out, Ok tt)
  | chunk :: rest =>
      match write out (UnicodeJson.dumps chunk ++ of_string (String nl EmptyString)) with
      | (out', Ok _) => write_log rest out'
      | (out', Raise e) => (out', Raise e)
      end
  end.

(** Reading in text mode: [\r\n] and [\r] arrive as [\n]. *)
Fixpoint universal_newlines (s : str) : str :=
  match s with
  | [] => []
  | c :: s1 =>
      if (c =? 13)%N then
        10%N ::
          match s1 with
          | d :: s2 =>
              if (d =? 10)%N then universal_newlines s2
              else universal_newlines s1
          | [] => []
          end
      else c :: universal_newlines s1
  end.

Definition cons_hd (c : N) (l : list str) : list str :=
  match l with
  | [] => [[c]]
  | x :: rest => (c :: x) :: rest
  end.

(** [for line in f]: the lines with their ends kept. *)
Fixpoint lines_keepends (s : str) : list str :=
  match s with
  | [] => []
  | c :: s' =>
      if (c =? 10)%N then [10%N] :: lines_keepends s'
      else cons_hd c (lines_keepends s')
  end.

(** [for line in f: chunks.append(json.loads(line))] *)
Definition read_log (file : str) : result (list UnicodeJson.dict) :=
  mapM UnicodeJson.loads (lines_keepends (universal_newlines file)).

End UnicodeLog.

(* ================================================================== *)
(** * build_index.py *)

Module BuildIndex.
Import Py.

Section Indexer.

(** Embedding vectors, and [embedder.encode(docs, ...).tolist()]. *)
Variable E : Type.
Variable encode : list string -> list E.

(** One record of the collection. *)
Record entry : Type := mkEntry {
  entry_id : string;
  embedding : E;
  document : string;
  metadata : Json.dict
}.

Definition collection : Type := list entry.

Fixpoint entries (documents : list string) (embeddings : list E)
  (metadatas : list Json.dict) (ids : list string) : list entry :=
  match documents, embeddings, metadatas, ids with
  | d :: ds, e :: es, m :: ms, i :: is_ =>
      mkEntry i e d m :: entries ds es ms is_
  | _, _, _, _ => []
  end.

(** [collection.add(documents=..., embeddings=..., metadatas=..., ids=...)]:
    the four lists must agree in length; the records are appended. *)
Definition add (col : collection) (documents : list string)
  (embeddings : list E) (metadatas : list Json.dict) (ids : list string)
  : result collection :=
  if ((List.length documents =? List.length ids)
      && (List.length embeddings =? List.length ids)
      && (List.length metadatas =? List.length ids))%nat
  then Ok (col ++ entries documents embeddings metadatas ids)%list
  else Raise (Exn "ValueError" "Unequal lengths").

(** [f"chunk_{i+j}"] *)
Definition chunk_id (i j : nat) : string := "chunk_" ++ str_of_nat (i + j).

Definition metadata_of (chunk : Json.dict) : result Json.dict :=
  src <- Json.getitem chunk "source" ;;
  typ <- Json.getitem chunk "type" ;;
  Ok [("source", src); ("type", typ)].

(** The body of the batch loop at offset [i]. *)
Definition index_batch (chunks : list Json.dict) (batch_size : nat)
  (col : collection) (i : nat) : result collection :=
  let batch := slice chunks i (i + batch_size) in
  docs <- mapM (fun chunk => Json.getitem chunk "text") batch ;;
  metadatas <- mapM metadata_of batch ;;
  let ids := map (chunk_id i) (seq 0 (List.length batch)) in
  let embeddings := encode docs in
  add col docs embeddings metadatas ids.

Fixpoint index_loop (chunks : list Json.dict) (batch_size : nat)
  (offsets : list nat) (col : collection) : result collection :=
  match offsets with
  | [] => Ok col
  | i :: rest =>
      col' <- index_batch chunks batch_size col i ;;
      index_loop chunks batch_size rest col'
  end.

(** [for i in range(0, len(chunks), batch_size): ...] on a collection. *)
Definition build_index (chunks : list Json.dict) (batch_size : nat)
  (col : collection) : result collection :=
  if (batch_size =? 0)%nat
  then Raise (Exn "ValueError" "range() arg 3 must not be zero")
  else index_loop chunks batch_size
         (range3 0 (List.length chunks) batch_size) col.

End Indexer.

Arguments mkEntry {E}.
Arguments entry_id {E}.
Arguments embedding {E}.
Arguments document {E}.
Arguments metadata {E}.

End BuildIndex.

(* ================================================================== *)
(** * rag_query.py and rag_utils.py *)

(** [f"[{i}] ({typ}) Source: {src}\n{doc}\n"] for one retrieved result,
    the same in both files. *)
Definition context_chunk (i : nat) (doc : string) (meta : Json.dict)
  : Py.result string :=
  src <- Json.getitem meta "source" ;;
  let typ := Json.get_default meta "type" "unknown" in
  Py.Ok ("[" ++ Py.str_of_nat i ++ "] (" ++ typ ++ ") Source: " ++ src
         ++ String Py.nl (doc ++ String Py.nl EmptyString))%string.

Definition context_chunks (docs : list string) (metadatas : list Json.dict)
  : Py.result (list string) :=
  Py.mapM (fun '(i, (doc, meta)) => context_chunk i doc meta)
          (Py.enumerate 1 (Py.zip docs metadatas)).

(** A value a script hands back where the design speaks of a list. *)
Inductive pyvalue : Type :=
| VStr (s : string)
| VList (l : list string)
| VDicts (l : list Json.dict).

Module RagQuery.
Import Py.


(** [f"[{i}] {meta['source']}"] *)
Definition source_line (i : nat) (meta : Json.dict) : result string :=
  src <- Json.getitem meta "source" ;;
  Ok ("[" ++ str_of_nat i ++ "] " ++ src)%string.

(** [retrieve_context] after the query: [docs] and [metadatas] are
    [results['documents'][0]] and [results['metadatas'][0]]. *)
Definition assemble (docs : list string) (metadatas : list Json.dict)
  : result (string * pyvalue) :=
  chunks <- context_chunks docs metadatas ;;
  sources <- mapM (fun '(i, meta) => source_line i meta)
                  (enumerate 1 metadatas) ;;
  Ok (join (String nl EmptyString) chunks,
      VStr (join (String nl EmptyString) sources)).

(** [query] stands for the embedder and [collection.query]. *)
Definition retrieve_context
  (query : string -> nat -> result (list string * list Json.dict))
  (q : string) (top_k : nat) : result (string * pyvalue) :=
  res <- query q top_k ;;
  assemble (fst res) (snd res).

End RagQuery.

Module RagUtils.
Import Py.

Definition assemble (docs : list string) (metadatas : list Json.dict)
  : result (string * pyvalue) :=
  chunks <- context_chunks docs metadatas ;;
  Ok (join (String nl EmptyString) chunks, VDicts metadatas).

Definition retrieve_context
  (query : string -> nat -> result (list string * list Json.dict))
  (q : string) (top_k : nat) : result (string * pyvalue) :=
  res <- query q top_k ;;
  assemble (fst res) (snd res).

End RagUtils.

(* ================================================================== *)
(** * llm_utils.py *)

Module LlmUtils.
Import Py.

(** The content of a message: [Some text] for a [str], [None] for
    Python's [None], the content of a reply that carries no text. *)
Definition content : Type := option string.

(** [response.choices[0].message.content], each choice given by the
    content of its message; the content is handed on as it is. *)
Definition first_content (choices : list content) : result content :=
  match choices with
  | c :: _ => Ok c
  | [] => Raise (Exn "IndexError" "list index out of range")
  end.

(** [create] stands for [openai.ChatCompletion.create] at the fixed
    model and temperature: the prompt and [max_tokens] in, the choices
    or an exception out.  The value returned is the content read, or
    the error string. *)
Definition lmstudio_inference
  (create : string -> nat -> result (list content))
  (prompt : string) (max_new_tokens : nat) : result content :=
  try_except
    (response <- create prompt max_new_tokens ;;
     first_content response)
    (fun e => Ok (Some ("Error parsing response: " ++ exn_msg e)%string)).

End LlmUtils.

(* ================================================================== *)
(** * String methods used by the callers *)

Module PyText.
Import Py.

(** [template.format] with keyword arguments, for fields that are plain
    names, as in
    the prompt templates; [{{] and [}}] stand for a brace.  A field with
    a conversion, a format spec or an attribute is outside this model
    and looked up as a name.  [field] is the name being read. *)
Fixpoint format_from (template : string) (field : option string)
  (kwargs : Json.dict) : result string :=
  match template with
  | EmptyString =>
      match field with
      | None => Ok EmptyString
      | Some _ =>
          Raise (Exn "ValueError" "expected '}' before end of string")
      end
  | String c rest =>
      match field with
      | Some name =>
          if Ascii.eqb c "}" then
            v <- Json.getitem kwargs name ;;
            r <- format_from rest None kwargs ;;
            Ok (v ++ r)%string
          else format_from rest (Some (name ++ String c EmptyString)%string) kwargs
      | None =>
          if Ascii.eqb c "{" then
            match rest with
            | String "{" rest' =>
                r <- format_from rest' None kwargs ;; Ok (String "{" r)
            | _ => format_from rest (Some EmptyString) kwargs
            end
          else if Ascii.eqb c "}" then
            match rest with
            | String "}" rest' =>
                r <- format_from rest' None kwargs ;; Ok (String "}" r)
            | _ =>
                Raise (Exn "ValueError"
                           "Single '}' encountered in format string")
            end
          else r <- format_from rest None kwargs ;; Ok (String c r)
      end
  end.

Definition format (template : string) (kwargs : Json.dict) : result string :=
  format_from template None kwargs.



End PyText.

(* ================================================================== *)
(** * prompt_templates.py *)

Module PromptTemplates.

Definition NL : string := String Py.nl EmptyString.

Definition GEN_PROMPT : string :=
  "You are an expert Python tutor. Using only the provided context, generate well-commented code for this ML/data science task: {task}."
  ++ NL
  ++ "Use PyTorch or RAPIDS where possible. Add brief comments. Cite sources in [brackets] if appropriate."
  ++ NL ++ "Context:" ++ NL ++ "{context}".

Definition CORRECT_PROMPT : string :=
  "A student submitted this Python code:" ++ NL ++ NL ++ "{code}" ++ NL ++ NL
  ++ "Using only the context below, analyze the code. If there are bugs, logical errors, or inefficiencies, give only **hints** (not full solutions), "
  ++ "and explain why they matter for data science or ML."
  ++ NL ++ "Context:" ++ NL ++ "{context}".

Definition GPU_PROMPT : string :=
  "Given this Python code for a data science/ML task:" ++ NL ++ NL
  ++ "{code}" ++ NL ++ NL
  ++ "Using only the context below, suggest modifications to maximize GPU usage (PyTorch `.cuda()`, RAPIDS/cuDF, or similar). "
  ++ "Explain how these changes improve time or memory complexity. Output the optimized code and a brief explanation."
  ++ NL ++ "Context:" ++ NL ++ "{context}".

End PromptTemplates.

(* ================================================================== *)
(** * app.py *)

Module App.
Import Py PromptTemplates.

(** [user_task] and [code_input] as the widgets leave them: there is no
    code area, and [code_input] is [None], for code generation. *)
Definition inputs (task_type task_area code_area : string)
  : string * option string :=
  if String.eqb task_type "Code Generation" then (task_area, None)
  else (task_area, Some code_area).

(** [user_task if user_task else (code_input if code_input else "")] *)
Definition query_text (user_task : string) (code_input : option string)
  : string :=
  if negb (is_empty user_task) then user_task
  else match code_input with
       | Some code => if negb (is_empty code) then code else EmptyString
       | None => EmptyString
       end.

(** A value as [format] prints it. *)
Definition str_of (code_input : option string) : string :=
  match code_input with
  | Some code => code
  | None => "None"
  end.

Definition build_prompt (task_type user_task : string)
  (code_input : option string) (context : string) : result string :=
  if String.eqb task_type "Code Generation" then
    PyText.format GEN_PROMPT [("task", user_task); ("context", context)]
  else if String.eqb task_type "Code Correction (Hints)" then
    PyText.format CORRECT_PROMPT
                  [("code", str_of code_input); ("context", context)]
  else
    PyText.format GPU_PROMPT
                  [("code", str_of code_input); ("context", context)].

(** [f"[{i}] {meta['source']} ({meta.get('type','')})"] *)
Definition source_line (i : nat) (meta : Json.dict) : result string :=
  src <- Json.getitem meta "source" ;;
  Ok ("[" ++ str_of_nat i ++ "] " ++ src ++ " ("
      ++ Json.get_default meta "type" EmptyString ++ ")")%string.

(** The metadata list the handler enumerates. *)
Definition metadata_list (v : pyvalue) : result (list Json.dict) :=
  match v with
  | VDicts ms => Ok ms
  | _ => Raise (Exn "TypeError" "string indices must be integers")
  end.

(** The body of [if st.button("Get LLM Answer")]: what is shown as
    retrieved context, as answer and as sources. *)
Definition on_click
  (query : string -> nat -> result (list string * list Json.dict))
  (create : string -> nat -> result (list LlmUtils.content))
  (task_type user_task : string) (code_input : option string) (top_k : nat)
  : result (string * LlmUtils.content * list string) :=
  let query_text := query_text user_task code_input in
  res <- RagUtils.retrieve_context query query_text top_k ;;
  let context := fst res in
  prompt <- build_prompt task_type user_task code_input context ;;
  answer <- LlmUtils.lmstudio_inference create prompt 512 ;;
  metadatas <- metadata_list (snd res) ;;
  sources <- mapM (fun '(i, meta) => source_line i meta)
                  (enumerate 1 metadatas) ;;
  Ok (context, answer, sources).

End App.

(* ================================================================== *)
(** * The interactive loop of rag_query.py *)

Module RagQueryMain.
Import Py.


End RagQueryMain.

(* ================================================================== *)
(** * Notions of the design document *)

Module Design.
Import Py.

(** The lines of a text, split at every newline. *)
Fixpoint lines (s : string) : list string :=
  match s with
  | EmptyString => [EmptyString]
  | String c s' =>
      if Ascii.eqb c nl then EmptyString :: lines s'
      else Re.cons_hd c (lines s')
  end.

(** A line that begins a top-level definition. *)
Definition is_boundary (line : string) : bool :=
  startswith line "def " || startswith line "class ".

(** The number of top-level definition boundaries of a file. *)
Definition boundaries (content : string) : nat :=
  List.length (filter is_boundary (lines content)).

Fixpoint has_content (s : string) : bool :=
  match s with
  | EmptyString => false
  | String c s' => negb (isspace c) || has_content s'
  end.

(** A position is a boundary when it starts a line and [def ] or
    [class ] follows. *)
Definition boundary_at (prev : option ascii) (s : string) : bool :=
  Re.at_bol prev && is_boundary s.

(** The first segment of the split from a position on: the text up to
    the next boundary; and the segments after it, one per boundary. *)
Fixpoint lead (prev : option ascii) (s : string) : string :=
  match s with
  | EmptyString => EmptyString
  | String c s' =>
      if boundary_at prev s then EmptyString
      else String c (lead (Some c) s')
  end.

Fixpoint definitions (prev : option ascii) (s : string) : list string :=
  match s with
  | EmptyString => []
  | String c s' =>
      if boundary_at prev s
      then String c (lead (Some c) s') :: definitions (Some c) s'
      else definitions (Some c) s'
  end.

(** The lines before the first boundary. *)
Fixpoint leading (ls : list string) : list string :=
  match ls with
  | [] => []
  | l :: rest => if is_boundary l then [] else l :: leading rest
  end.

(** The same when the first line may be entered in its middle, where
    it cannot be a boundary. *)
Definition lead_lines (bol : bool) (ls : list string) : list string :=
  if bol then leading ls
  else match ls with
       | [] => []
       | l :: rest => l :: leading rest
       end.

(** Is there non-whitespace content before the first boundary? *)
Definition leading_content (content : string) : bool :=
  existsb has_content (leading (lines content)).

(** The folder walk as a flat sequence of (directory, file name). *)
Definition walk_files (w : AutoChunker.world) (root_folder : string)
  : list (string * string) :=
  flat_map (fun '(dirpath, filenames) => map (pair dirpath) filenames)
           (AutoChunker.os_walk w root_folder).

(** The chunker a file name selects, applied to its path; a file of
    another kind has no chunker. *)
Definition chunker_result (w : AutoChunker.world) (file : string * string)
  : option (result (list AutoChunker.Chunk)) :=
  let '(dirpath, filename) := file in
  let file_path := AutoChunker.path_join dirpath filename in
  if endswith filename ".ipynb" then Some (AutoChunker.chunk_ipynb w file_path)
  else if endswith filename ".py" then Some (AutoChunker.chunk_py w file_path)
  else if endswith filename ".md" then Some (AutoChunker.chunk_md w file_path)
  else if endswith filename ".pdf" then Some (AutoChunker.chunk_pdf w file_path)
  else None.

(** What one file adds to the output of a walk. *)
Definition contribution (w : AutoChunker.world) (file : string * string)
  : list AutoChunker.Chunk :=
  match chunker_result w file with
  | Some (Ok chunks) => chunks
  | Some (Raise _) => []
  | None => []
  end.

(** The handler of the walk gets the error line of [file] printed, if
    the chunker of [file] raises. *)
Definition reported (w : AutoChunker.world) (file : string * string) : Prop :=
  match chunker_result w file with
  | Some (Raise e) =>
      AutoChunker.print w
        (AutoChunker.error_line (AutoChunker.path_join (fst file) (snd file)) e)
      = Ok tt
  | _ => True
  end.

(** The two loops of the walk as one loop over the flat sequence. *)
Fixpoint visit_all (w : AutoChunker.world) (files : list (string * string))
  (all_chunks : list AutoChunker.Chunk) : result (list AutoChunker.Chunk) :=
  match files with
  | [] => Ok all_chunks
  | (dirpath, filename) :: rest =>
      all_chunks' <- AutoChunker.visit_file w dirpath filename all_chunks ;;
      visit_all w rest all_chunks'
  end.

(** The block and the citation of the result of rank [i]. *)
Definition block (i : nat) (doc src typ : string) : string :=
  "[" ++ str_of_nat i ++ "] (" ++ typ ++ ") Source: " ++ src
  ++ String nl (doc ++ String nl EmptyString).

Definition citation (i : nat) (src : string) : string :=
  "[" ++ str_of_nat i ++ "] " ++ src.

(** The first [n] characters of [s] exist and are whitespace. *)
Fixpoint spaces (n : nat) (s : string) : bool :=
  match n with
  | 0 => true
  | S k =>
      match s with
      | EmptyString => false
      | String c s' => isspace c && spaces k s'
      end
  end.

(** The character before the position that follows [u], when [prev]
    is the one before [u]. *)
Fixpoint last_char (prev : option ascii) (u : string) : option ascii :=
  match u with
  | EmptyString => prev
  | String c u' => last_char (Some c) u'
  end.

(** No newline occurs in [s]: it lies within one line. *)
Fixpoint no_newline (s : string) : bool :=
  match s with
  | EmptyString => true
  | String c s' => negb (Ascii.eqb c nl) && no_newline s'
  end.

Definition starts_hash (s : string) : bool :=
  match s with
  | String c _ => Ascii.eqb c "#"
  | EmptyString => false
  end.

(** No [#] stands at the start of a line inside [s], the first line
    apart. *)
Fixpoint no_inner_heading (s : string) : bool :=
  match s with
  | EmptyString => true
  | String c s' =>
      negb (Ascii.eqb c nl && starts_hash s') && no_inner_heading s'
  end.

(** The id of the chunk at global position [g]. *)
Definition global_id (g : nat) : string := "chunk_" ++ str_of_nat g.

Definition metadata_of_chunk (c : AutoChunker.Chunk) : Json.dict :=
  [("source", AutoChunker.source c); ("type", AutoChunker.type c)].

(** The records of a chunk sequence whose first chunk has global
    position [start], for a per-text embedding function. *)
Fixpoint index_entries {E} (embed : string -> E) (start : nat)
  (cs : list AutoChunker.Chunk) : list (BuildIndex.entry E) :=
  match cs with
  | [] => []
  | c :: rest =>
      BuildIndex.mkEntry (global_id start) (embed (AutoChunker.text c))
                         (AutoChunker.text c) (metadata_of_chunk c)
      :: index_entries embed (S start) rest
  end.

(** The records one batch at offset [i] adds. *)
Definition batch_entries {E} (encode : list string -> list E) (i : nat)
  (batch : list AutoChunker.Chunk) : list (BuildIndex.entry E) :=
  BuildIndex.entries E (map AutoChunker.text batch)
    (encode (map AutoChunker.text batch))
    (map metadata_of_chunk batch)
    (map (BuildIndex.chunk_id i) (seq 0 (List.length batch))).

(** The blocks and the citations of a ranked retrieval, ranks counted
    from [start]. *)
Fixpoint blocks (start : nat) (cs : list AutoChunker.Chunk) : list string :=
  match cs with
  | [] => []
  | c :: rest =>
      block start (AutoChunker.text c) (AutoChunker.source c)
            (AutoChunker.type c)
      :: blocks (S start) rest
  end.

Fixpoint citations (start : nat) (cs : list AutoChunker.Chunk) : list string :=
  match cs with
  | [] => []
  | c :: rest => citation start (AutoChunker.source c) :: citations (S start) rest
  end.

(** The two results of the example of the design document. *)
Definition two_results (d1 d2 : string) : list AutoChunker.Chunk :=
  [AutoChunker.mkChunk d1 "a.py" "function";
   AutoChunker.mkChunk d2 "b.md" "markdown"].

Definition newline : string := String nl EmptyString.

(** The text of the chunk log after writing [ds] to an empty file. *)
Fixpoint log_text (ds : list Json.dict) : string :=
  match ds with
  | [] => EmptyString
  | d :: rest => Json.dumps d ++ String nl (log_text rest)
  end.

(** No line end, of either kind, occurs in [s]. *)
Fixpoint one_line (s : string) : bool :=
  match s with
  | EmptyString => true
  | String c s' => negb (Ascii.eqb c nl) && negb (Ascii.eqb c cr) && one_line s'
  end.

Definition trimmed_nonempty (c : AutoChunker.Chunk) : Prop :=
  strip (AutoChunker.text c) <> EmptyString.

(** Every field of the chunk can be encoded as UTF-8. *)
Definition encodable_chunk (c : UnicodeLog.Chunk) : bool :=
  Unicode.encodable (UnicodeLog.text c)
  && Unicode.encodable (UnicodeLog.source c)
  && Unicode.encodable (UnicodeLog.type c).

(** The lines of the records [ds], one after the other. *)
Fixpoint log_lines (ds : list UnicodeJson.dict) : Unicode.str :=
  match ds with
  | [] => []
  | d :: rest => UnicodeJson.dumps d ++ [10%N] ++ log_lines rest
  end.

(** No line end, of either kind, occurs in the code points [s]. *)
Fixpoint no_line_end (s : Unicode.str) : bool :=
  match s with
  | [] => true
  | c :: s' => negb (c =? 10)%N && negb (c =? 13)%N && no_line_end s'
  end.

(** A chunk and a dict of 8-bit strings, as chunk and dict of strings
    in full. *)
Definition of_chunk (c : AutoChunker.Chunk) : UnicodeLog.Chunk :=
  UnicodeLog.mkChunk (Unicode.of_string (AutoChunker.text c))
                     (Unicode.of_string (AutoChunker.source c))
                     (Unicode.of_string (AutoChunker.type c)).

Definition of_pair (kv : string * string) : Unicode.str * Unicode.str :=
  (Unicode.of_string (fst kv), Unicode.of_string (snd kv)).

Definition of_dict (d : Json.dict) : UnicodeJson.dict := map of_pair d.

(** Three chunks, the second from a file whose name, as [os.walk] hands
    it over, holds the lone surrogate of an undecodable byte. *)
Definition surrogate_chunks : list UnicodeLog.Chunk :=
  [UnicodeLog.mkChunk (Unicode.of_string "x = 1") (Unicode.of_string "d/a.py")
                      (Unicode.of_string "top-level");
   UnicodeLog.mkChunk (Unicode.of_string "y = 2")
                      (Unicode.of_string "d/caf" ++ [0xDCE9%N]
                       ++ Unicode.of_string ".py")
                      (Unicode.of_string "top-level");
   UnicodeLog.mkChunk (Unicode.of_string "z = 3") (Unicode.of_string "d/c.py")
                      (Unicode.of_string "top-level")].

(** Two chunks with line ends and characters beyond 8 bits in their
    text. *)
Definition wide_chunks : list UnicodeLog.Chunk :=
  [UnicodeLog.mkChunk [97; 10; 13; 10; 98; 0x20AC; 0x1F600]%N
                      (Unicode.of_string "d/a.md")
                      (Unicode.of_string "markdown");
   UnicodeLog.mkChunk (Unicode.of_string "x = 1") (Unicode.of_string "d/a.py")
                      (Unicode.of_string "top-level")].

(** A world where every text file holds [content], every notebook
    [cells] and every PDF [pages], used to exercise the statements. *)
Definition sample_world (content : string) (cells : list AutoChunker.cell)
  (pages : list (result string)) (tree : list (string * list string))
  : AutoChunker.world :=
  AutoChunker.mkWorld (fun _ => Ok content) (fun _ => Ok cells) (Ok tt)
                      (fun _ => Ok pages) (fun _ => tree)
                      (fun _ => Ok tt).

(** The same, except that reading the text file at [bad] fails. *)
Definition faulty_world (bad content : string)
  (tree : list (string * list string)) : AutoChunker.world :=
  AutoChunker.mkWorld
    (fun p => if String.eqb p bad
              then Raise (Exn "UnicodeDecodeError" "invalid start byte")
              else Ok content)
    (fun _ => Ok []) (Ok tt) (fun _ => Ok []) (fun _ => tree)
    (fun _ => Ok tt).

(** What [print] raises once the reader of standard output has gone. *)
Definition BrokenPipeError : exn :=
  Exn "BrokenPipeError" "[Errno 32] Broken pipe".

(** The faulty world again, run with an unbuffered standard output
    piped into a process that has exited. *)
Definition broken_pipe_world (bad content : string)
  (tree : list (string * list string)) : AutoChunker.world :=
  AutoChunker.mkWorld
    (fun p => if String.eqb p bad
              then Raise (Exn "UnicodeDecodeError" "invalid start byte")
              else Ok content)
    (fun _ => Ok []) (Ok tt) (fun _ => Ok []) (fun _ => tree)
    (fun _ => Raise BrokenPipeError).

(** The standard output takes every line. *)
Definition prints (w : AutoChunker.world) : Prop :=
  forall line, AutoChunker.print w line = Ok tt.

Definition sample_page : string :=
  "A paragraph that is long enough to be kept." ++ String nl (String nl "p. 7").

End Design.

(* ================================================================== *)
(** * Further notions, for the properties beyond the design document *)

Module Extra.
Import Py.

Definition is_some {A} (o : option A) : bool :=
  match o with Some _ => true | None => false end.

(** [re.match(r'\n\s*\n', s)] finds a blank-line run at the start. *)
Definition blank_at (s : string) : bool :=
  is_some (Re.try_at AutoChunker.pattern_pdf None s false).

(** [re.search(r'\n\s*\n', s)] finds a blank-line run somewhere. *)
Fixpoint has_blank_run (s : string) : bool :=
  blank_at s
  || match s with
     | EmptyString => false
     | String _ s' => has_blank_run s'
     end.

(** A file name that selects a chunker. *)
(** The exception of the first page whose extraction raises. *)
Fixpoint first_raise (pages : list (result string)) : option exn :=
  match pages with
  | [] => None
  | Ok _ :: rest => first_raise rest
  | Raise e :: _ => Some e
  end.

Definition supported (filename : string) : bool :=
  endswith filename ".ipynb" || endswith filename ".py"
  || endswith filename ".md" || endswith filename ".pdf".

(** The chunk log with the line end [eol] after every record. *)
Fixpoint log_text_with (eol : string) (ds : list Json.dict) : string :=
  match ds with
  | [] => EmptyString
  | d :: rest => Json.dumps d ++ eol ++ log_text_with eol rest
  end.

(** The three line ends of text files. *)
Definition is_line_end (eol : string) : Prop :=
  eol = String nl EmptyString
  \/ eol = String cr (String nl EmptyString)
  \/ eol = String cr EmptyString.

Definition starts_with_nl (s : string) : bool :=
  match s with
  | String c _ => Ascii.eqb c nl
  | EmptyString => false
  end.

(** A record of the log that has the three fields. *)
Definition has_fields (d : Json.dict) : bool :=
  is_some (Json.dict_find d "text") && is_some (Json.dict_find d "source")
  && is_some (Json.dict_find d "type").

(** The [KeyError] for one of the three fields of a record. *)
Definition field_error (e : exn) : Prop :=
  e = Exn "KeyError" "text" \/ e = Exn "KeyError" "source"
  \/ e = Exn "KeyError" "type".

(** The source lines the app shows, ranks counted from [start]. *)
Fixpoint app_sources (start : nat) (cs : list AutoChunker.Chunk) : list string :=
  match cs with
  | [] => []
  | c :: rest =>
      ("[" ++ str_of_nat start ++ "] " ++ AutoChunker.source c ++ " ("
       ++ AutoChunker.type c ++ ")")%string
      :: app_sources (S start) rest
  end.

(** The fixed text of the three templates around their fields. *)
Definition GEN_HEAD : string :=
  "You are an expert Python tutor. Using only the provided context, generate well-commented code for this ML/data science task: ".

Definition GEN_TAIL : string :=
  "." ++ PromptTemplates.NL
  ++ "Use PyTorch or RAPIDS where possible. Add brief comments. Cite sources in [brackets] if appropriate."
  ++ PromptTemplates.NL ++ "Context:" ++ PromptTemplates.NL.

Definition CORRECT_HEAD : string :=
  "A student submitted this Python code:" ++ PromptTemplates.NL
  ++ PromptTemplates.NL.

Definition CORRECT_TAIL : string :=
  PromptTemplates.NL ++ PromptTemplates.NL
  ++ "Using only the context below, analyze the code. If there are bugs, logical errors, or inefficiencies, give only **hints** (not full solutions), "
  ++ "and explain why they matter for data science or ML."
  ++ PromptTemplates.NL ++ "Context:" ++ PromptTemplates.NL.

Definition GPU_HEAD : string :=
  "Given this Python code for a data science/ML task:" ++ PromptTemplates.NL
  ++ PromptTemplates.NL.

Definition GPU_TAIL : string :=
  PromptTemplates.NL ++ PromptTemplates.NL
  ++ "Using only the context below, suggest modifications to maximize GPU usage (PyTorch `.cuda()`, RAPIDS/cuDF, or similar). "
  ++ "Explain how these changes improve time or memory complexity. Output the optimized code and a brief explanation."
  ++ PromptTemplates.NL ++ "Context:" ++ PromptTemplates.NL.

(** A line that ends the interactive loop. *)
(** What [lmstudio_inference] hands back for an outcome of the
    service. *)
Definition shown_answer (outcome : result (list LlmUtils.content))
  : LlmUtils.content :=
  match outcome with
  | Ok (content :: _) => content
  | Ok [] => Some "Error parsing response: list index out of range"
  | Raise e => Some ("Error parsing response: " ++ exn_msg e)%string
  end.


(** A retrieved result whose metadata holds the source alone. *)
Definition untyped (r : string * string) : Json.dict := [("source", snd r)].

Definition as_unknown (r : string * string) : AutoChunker.Chunk :=
  AutoChunker.mkChunk (fst r) (snd r) "unknown".

End Extra.

(** Case analysis over the 256 characters. *)
Ltac each_char c := destruct c as [[] [] [] [] [] [] [] []].

(* ================================================================== *)
(** * Strings *)

Lemma append_assoc (a b c : string) : ((a ++ b) ++ c = a ++ (b ++ c))%string.
Proof. induction a as [|x a IH]; simpl; [reflexivity | now rewrite IH]. Qed.

Lemma append_nil_r (a : string) : (a ++ EmptyString)%string = a.
Proof. induction a as [|x a IH]; simpl; [reflexivity | now rewrite IH]. Qed.

Lemma length_String (c : ascii) (s : string) :
  String.length (String c s) = S (String.length s).
Proof. reflexivity. Qed.

Lemma length_append (a b : string) :
  String.length (a ++ b) = String.length a + String.length b.
Proof. induction a as [|x a IH]; simpl; [reflexivity | now rewrite IH]. Qed.

(* ================================================================== *)
(** * Trimming *)

Section Strip.
Import Py.

Lemma lstrip_head (s : string) :
  lstrip s = EmptyString
  \/ exists c t, lstrip s = String c t /\ isspace c = false.
Proof.
  induction s as [|c s IH]; simpl.
  - now left.
  - destruct (isspace c) eqn:Hc; [exact IH|].
    right. now exists c, s.
Qed.

Lemma rstrip_idem (s : string) : rstrip (rstrip s) = rstrip s.
Proof.
  induction s as [|c s IH]; simpl; [reflexivity|].
  destruct (isspace c && is_empty (rstrip s)) eqn:H; simpl; [reflexivity|].
  now rewrite IH, H.
Qed.

Lemma rstrip_keep (c : ascii) (t : string) :
  isspace c = false -> rstrip (String c t) = String c (rstrip t).
Proof. intros Hc. simpl. now rewrite Hc. Qed.

Lemma strip_idem (s : string) : strip (strip s) = strip s.
Proof.
  unfold strip.
  destruct (lstrip_head s) as [H | (c & t & H & Hc)]; rewrite H.
  - reflexivity.
  - rewrite (rstrip_keep c t Hc). simpl lstrip. rewrite Hc.
    rewrite (rstrip_keep c _ Hc). now rewrite rstrip_idem.
Qed.

Lemma is_empty_false (s : string) : is_empty s = false <-> s <> EmptyString.
Proof. destruct s; simpl; split; congruence. Qed.

Lemma strip_kept (b : string) :
  is_empty (strip b) = false -> strip (strip b) <> EmptyString.
Proof. rewrite strip_idem. apply is_empty_false. Qed.

End Strip.

(* ================================================================== *)
(** * The chunkers: what is kept *)

Section Chunkers.
Import Py AutoChunker Design.

Lemma py_blocks_nonempty (fp : string) (splits : list string) :
  Forall trimmed_nonempty (py_blocks fp splits).
Proof.
  induction splits as [|b rest IH]; simpl; [constructor|].
  destruct (is_empty (strip b)) eqn:Hb; [exact IH|].
  constructor; [|exact IH]. now apply strip_kept.
Qed.

Lemma md_blocks_nonempty (fp : string) (splits : list string) :
  Forall trimmed_nonempty (md_blocks fp splits).
Proof.
  induction splits as [|b rest IH]; simpl; [constructor|].
  destruct (is_empty (strip b)) eqn:Hb; [exact IH|].
  constructor; [|exact IH]. now apply strip_kept.
Qed.

Lemma pdf_paragraphs_texts (fp : string) (paragraphs : list string) :
  map text (pdf_paragraphs fp paragraphs)
  = filter (fun p => (30 <? String.length p)%nat) (map strip paragraphs).
Proof.
  induction paragraphs as [|p rest IH]; simpl; [reflexivity|].
  destruct (30 <? String.length (strip p))%nat; simpl; now rewrite IH.
Qed.

Lemma pdf_paragraphs_shape (fp : string) (paragraphs : list string) (c : Chunk) :
  In c (pdf_paragraphs fp paragraphs) ->
  c = mkChunk (text c) fp "pdf"
  /\ In (text c) (map strip paragraphs)
  /\ 30 < String.length (text c).
Proof.
  induction paragraphs as [|p rest IH]; simpl; [tauto|].
  destruct (30 <? String.length (strip p))%nat eqn:Hp.
  - intros [<- | Hin].
    + simpl. apply Nat.ltb_lt in Hp. auto.
    + destruct (IH Hin) as (? & ? & ?). auto.
  - intros Hin. destruct (IH Hin) as (? & ? & ?). auto.
Qed.

Lemma pdf_paragraphs_kept (fp : string) (paragraphs : list string) (p : string) :
  In p (map strip paragraphs) -> 30 < String.length p ->
  In (mkChunk p fp "pdf") (pdf_paragraphs fp paragraphs).
Proof.
  induction paragraphs as [|q rest IH]; simpl; [tauto|].
  intros [Hq | Hin] Hlen.
  - subst p. apply Nat.ltb_lt in Hlen. rewrite Hlen. now left.
  - destruct (30 <? String.length (strip q))%nat; [right|]; auto.
Qed.

Lemma pdf_paragraphs_nonempty (fp : string) (paragraphs : list string) :
  Forall trimmed_nonempty (pdf_paragraphs fp paragraphs).
Proof.
  apply Forall_forall. intros c Hc.
  destruct (pdf_paragraphs_shape _ _ _ Hc) as (_ & Hin & Hlen).
  apply in_map_iff in Hin. destruct Hin as (q & Hq & _).
  unfold trimmed_nonempty. rewrite <- Hq, strip_idem, Hq.
  intros E. rewrite E in Hlen. simpl in Hlen. lia.
Qed.

Lemma ipynb_cells_texts (fp : string) (cells : list cell) :
  map text (ipynb_cells fp cells) = map cell_source cells.
Proof. induction cells; simpl; congruence. Qed.

(** On a successful extraction the chunks of the PDF chunker are the
    kept paragraphs. *)
Lemma chunk_pdf_extracted (w : world) (fp : string)
  (pages : list (result string)) (txt : string) :
  import_PyPDF2 w = Ok tt ->
  PdfReader w fp = Ok pages ->
  pdf_text pages EmptyString = Ok txt ->
  chunk_pdf w fp = Ok (pdf_paragraphs fp (Re.split pattern_pdf txt)).
Proof.
  intros Hi Hr Ht. unfold chunk_pdf. rewrite Hi. simpl.
  rewrite Hr. simpl. rewrite Ht. reflexivity.
Qed.

Lemma chunk_pdf_cases (w : world) (fp : string) (chunks : list Chunk) :
  chunk_pdf w fp = Ok chunks ->
  chunks = [] \/ exists txt, chunks = pdf_paragraphs fp (Re.split pattern_pdf txt).
Proof.
  unfold chunk_pdf. destruct (import_PyPDF2 w); simpl; [|discriminate].
  destruct (PdfReader w fp) as [pages|]; simpl.
  - destruct (pdf_text pages EmptyString) as [txt|]; simpl.
    + intros [= <-]; eauto.
    + destruct (print w _); simpl; [|discriminate]. intros [= <-]. now left.
  - destruct (print w _); simpl; [|discriminate]. intros [= <-]. now left.
Qed.

(** The three chunkers that split a text keep the invariant of the data
    model: the text of each of their chunks is non-empty after
    trimming.  [chunk_ipynb] has one chunk per cell, with the cell
    source as it is. *)
Lemma splitting_chunkers_nonempty (w : world) (fp : string) (chunks : list Chunk) :
  (chunk_py w fp = Ok chunks \/ chunk_md w fp = Ok chunks
   \/ chunk_pdf w fp = Ok chunks
   -> Forall trimmed_nonempty chunks)
  /\ (forall cells, nbformat_read w fp = Ok cells ->
        exists cs, chunk_ipynb w fp = Ok cs
                   /\ map text cs = map cell_source cells).
Proof.
  split.
  - intros [H | [H | H]].
    + unfold chunk_py in H. destruct (read_text w fp); simpl in H; [|discriminate].
      injection H as <-. apply py_blocks_nonempty.
    + unfold chunk_md in H. destruct (read_text w fp); simpl in H; [|discriminate].
      injection H as <-. apply md_blocks_nonempty.
    + destruct (chunk_pdf_cases _ _ _ H) as [-> | (txt & ->)].
      * constructor.
      * apply pdf_paragraphs_nonempty.
  - intros cells Hc. unfold chunk_ipynb. rewrite Hc. simpl.
    eexists. split; [reflexivity|]. apply ipynb_cells_texts.
Qed.

(** C1 at a notebook: every chunk is to have text that is non-empty
    after trimming, but for a notebook with one empty code cell
    [chunk_ipynb] returns one chunk whose text is empty. *)
Theorem chunk_ipynb_keeps_empty_cell :
  let w := sample_world "" [mkCell "code" ""] [] [] in
  exists c, chunk_ipynb w "n.ipynb" = Ok [c]
            /\ text c = EmptyString
            /\ strip (text c) = EmptyString
            /\ ~ trimmed_nonempty c.
Proof.
  eexists. split; [reflexivity|]. split; [reflexivity|].
  split; [reflexivity|]. intros H. now apply H.
Qed.

(** C7: when the extraction of a PDF succeeds, [chunk_pdf] returns, in
    order, exactly the trimmed paragraphs longer than 30 characters: a
    trimmed paragraph is a chunk if and only if its length exceeds 30,
    and one of fewer than 31 characters never is. *)
Theorem chunk_pdf_threshold (w : world) (fp : string)
  (pages : list (result string)) (txt : string) :
  import_PyPDF2 w = Ok tt ->
  PdfReader w fp = Ok pages ->
  pdf_text pages EmptyString = Ok txt ->
  exists chunks,
    chunk_pdf w fp = Ok chunks
    /\ map text chunks
       = filter (fun p => (30 <? String.length p)%nat)
                (map strip (Re.split pattern_pdf txt))
    /\ (forall c, In c chunks -> c = mkChunk (text c) fp "pdf")
    /\ (forall para, In para (map strip (Re.split pattern_pdf txt)) ->
          (In (mkChunk para fp "pdf") chunks <-> 30 < String.length para))
    /\ (forall para, String.length para < 31 ->
          ~ In para (map text chunks)).
Proof.
  intros Hi Hr Ht. eexists. split; [eapply chunk_pdf_extracted; eauto|].
  split; [apply pdf_paragraphs_texts|]. split; [|split].
  - intros c Hc. now destruct (pdf_paragraphs_shape _ _ _ Hc).
  - intros para Hin. split.
    + intros Hc. now destruct (pdf_paragraphs_shape _ _ _ Hc) as (_ & _ & ?).
    + now apply pdf_paragraphs_kept.
  - intros para Hlen Hin. rewrite pdf_paragraphs_texts in Hin.
    apply filter_In in Hin. destruct Hin as [_ Hin].
    apply Nat.ltb_lt in Hin. lia.
Qed.

End Chunkers.

Lemma chunk_pdf_threshold_witness :
  exists chunks,
    AutoChunker.chunk_pdf
      (Design.sample_world "" [] [Py.Ok Design.sample_page] []) "a.pdf"
    = Py.Ok chunks
    /\ map AutoChunker.text chunks
       = ["A paragraph that is long enough to be kept."].
Proof.
  destruct (chunk_pdf_threshold
              (Design.sample_world "" [] [Py.Ok Design.sample_page] [])
              "a.pdf" [Py.Ok Design.sample_page]
              (Design.sample_page ++ String Py.nl EmptyString)
              eq_refl eq_refl eq_refl) as (chunks & Hc & Ht & _).
  exists chunks. split; [exact Hc|]. rewrite Ht. reflexivity.
Defined.

(* ================================================================== *)
(** * The folder walk *)

Section Walk.
Import Py AutoChunker Design.

Variable w : world.

Lemma visit_file_cases (dirpath filename : string) (acc : list Chunk) :
  visit_file w dirpath filename acc
  = match chunker_result w (dirpath, filename) with
    | Some (Ok chunks) => Ok (acc ++ chunks)
    | Some (Raise e) =>
        _ <- print w (error_line (path_join dirpath filename) e) ;; Ok acc
    | None => Ok acc
    end.
Proof.
  unfold visit_file, chunker_result, try_extend.
  repeat (destruct (endswith filename _);
          [match goal with |- context [try_except (bind ?r _) _] =>
             destruct r; reflexivity end|]).
  reflexivity.
Qed.

Lemma visit_file_reported (dirpath filename : string) (acc : list Chunk) :
  reported w (dirpath, filename) ->
  visit_file w dirpath filename acc
  = Ok (acc ++ contribution w (dirpath, filename)).
Proof.
  unfold reported, contribution. rewrite visit_file_cases.
  destruct (chunker_result w (dirpath, filename)) as [[chunks|e]|]; simpl.
  - reflexivity.
  - intros ->. simpl. now rewrite app_nil_r.
  - now rewrite app_nil_r.
Qed.

Lemma visit_file_ok (dirpath filename : string) (acc out : list Chunk) :
  visit_file w dirpath filename acc = Ok out ->
  out = (acc ++ contribution w (dirpath, filename))%list.
Proof.
  unfold contribution. rewrite visit_file_cases.
  destruct (chunker_result w (dirpath, filename)) as [[chunks|e]|]; simpl.
  - now intros [= <-].
  - destruct (print w _); simpl; [|discriminate].
    intros [= <-]. now rewrite app_nil_r.
  - intros [= <-]. now rewrite app_nil_r.
Qed.

Lemma visit_all_app (a b : list (string * string)) (acc : list Chunk) :
  visit_all w (a ++ b) acc = (acc' <- visit_all w a acc ;; visit_all w b acc').
Proof.
  revert acc. induction a as [|[d f] a IH]; intros acc; simpl; [reflexivity|].
  destruct (visit_file w d f acc); simpl; [apply IH|reflexivity].
Qed.

Lemma visit_files_flat (dirpath : string) (filenames : list string)
  (acc : list Chunk) :
  visit_files w dirpath filenames acc
  = visit_all w (map (pair dirpath) filenames) acc.
Proof.
  revert acc. induction filenames as [|f rest IH]; intros acc; simpl.
  - reflexivity.
  - destruct (visit_file w dirpath f acc); simpl; [apply IH|reflexivity].
Qed.

Lemma visit_dirs_flat (dirs : list (string * list string)) (acc : list Chunk) :
  visit_dirs w dirs acc
  = visit_all w (flat_map (fun '(dirpath, filenames) =>
                             map (pair dirpath) filenames) dirs) acc.
Proof.
  revert acc. induction dirs as [|[d fs] rest IH]; intros acc; simpl.
  - reflexivity.
  - rewrite visit_all_app, visit_files_flat.
    destruct (visit_all w (map (pair d) fs) acc); simpl; [apply IH|reflexivity].
Qed.

Lemma visit_all_reported (files : list (string * string)) (acc : list Chunk) :
  Forall (reported w) files ->
  visit_all w files acc = Ok (acc ++ flat_map (contribution w) files).
Proof.
  intros H. revert acc.
  induction H as [|[d f] rest Hf _ IH]; intros acc; simpl.
  - now rewrite app_nil_r.
  - rewrite (visit_file_reported _ _ _ Hf). simpl. rewrite IH.
    now rewrite <- app_assoc.
Qed.

Lemma visit_all_ok (files : list (string * string)) (acc out : list Chunk) :
  visit_all w files acc = Ok out ->
  out = (acc ++ flat_map (contribution w) files)%list.
Proof.
  revert acc. induction files as [|[d f] rest IH]; intros acc; simpl.
  - intros [= <-]. now rewrite app_nil_r.
  - destruct (visit_file w d f acc) as [acc'|] eqn:E; simpl; [|discriminate].
    intros H. apply IH in H. apply visit_file_ok in E. subst.
    now rewrite <- app_assoc.
Qed.

Lemma auto_chunk_folder_flat (root_folder : string) :
  auto_chunk_folder w root_folder = visit_all w (walk_files w root_folder) [].
Proof. unfold auto_chunk_folder. apply visit_dirs_flat. Qed.

(** C8, as the code has it: in a walk where the error line of each
    failing file gets printed, the walk returns, and its output is the
    concatenation, in traversal order, of what each file contributes:
    all the chunks of a file whose chunker returns, and nothing for a
    file whose chunker raises; so the output around a failing file is
    exactly the output of the files before it followed by that of the
    files after.  When the [print] of the handler raises for a failing
    file, the files before it having been handled, the walk stops there
    with that exception. *)
Theorem auto_chunk_folder_isolates_failures (root_folder : string) :
  (Forall (reported w) (walk_files w root_folder) ->
   auto_chunk_folder w root_folder
   = Ok (flat_map (contribution w) (walk_files w root_folder))
   /\ (forall file chunks,
         chunker_result w file = Some (Ok chunks) ->
         contribution w file = chunks)
   /\ (forall before bad after e,
         walk_files w root_folder = (before ++ bad :: after)%list ->
         chunker_result w bad = Some (Raise e) ->
         auto_chunk_folder w root_folder
         = Ok (flat_map (contribution w) before
               ++ flat_map (contribution w) after)))
  /\ (forall before bad after e e',
        walk_files w root_folder = (before ++ bad :: after)%list ->
        Forall (reported w) before ->
        chunker_result w bad = Some (Raise e) ->
        print w (error_line (path_join (fst bad) (snd bad)) e) = Raise e' ->
        auto_chunk_folder w root_folder = Raise e').
Proof.
  split.
  - intros Hp.
    assert (H : auto_chunk_folder w root_folder
                = Ok (flat_map (contribution w) (walk_files w root_folder))).
    { rewrite auto_chunk_folder_flat. now rewrite visit_all_reported. }
    split; [exact H|]. split.
    + intros file chunks Hc. unfold contribution. now rewrite Hc.
    + intros before bad after e Hw Hbad. rewrite H, Hw, flat_map_app. simpl.
      unfold contribution at 2. now rewrite Hbad.
  - intros before [d f] after e e' Hw Hb Hbad Hprint.
    rewrite auto_chunk_folder_flat, Hw, visit_all_app.
    rewrite (visit_all_reported _ _ Hb). simpl.
    rewrite visit_file_cases, Hbad. simpl in Hprint. rewrite Hprint.
    reflexivity.
Qed.

End Walk.

Lemma auto_chunk_folder_isolates_failures_witness :
  let w := Design.faulty_world "d/bad.py" "x = 1"
             [("d", ["a.py"; "bad.py"; "notes.txt"; "c.md"])] in
  AutoChunker.auto_chunk_folder w "d"
  = Py.Ok [AutoChunker.mkChunk "x = 1" "d/a.py" "top-level";
           AutoChunker.mkChunk "x = 1" "d/c.md" "markdown"].
Proof.
  intros w.
  destruct (auto_chunk_folder_isolates_failures w "d") as (H & _).
  destruct H as (_ & _ & H).
  { repeat constructor. }
  rewrite (H [("d", "a.py")] ("d", "bad.py")
             [("d", "notes.txt"); ("d", "c.md")]
             (Py.Exn "UnicodeDecodeError" "invalid start byte")
             eq_refl eq_refl).
  reflexivity.
Defined.

(** C8 fails as stated: with an unbuffered standard output piped into
    a process that has gone, the chunker of [d/bad.py] raises, the
    handler's [print] raises in turn, and the walk is aborted: the
    chunks of [a.py] are lost with it and [c.md] is never read. *)
Lemma failing_print_aborts_walk :
  let w := Design.broken_pipe_world "d/bad.py" "x = 1"
             [("d", ["a.py"; "bad.py"; "notes.txt"; "c.md"])] in
  Design.chunker_result w ("d", "bad.py")
  = Some (Py.Raise (Py.Exn "UnicodeDecodeError" "invalid start byte"))
  /\ AutoChunker.auto_chunk_folder w "d" = Py.Raise Design.BrokenPipeError
  /\ forall chunks, AutoChunker.auto_chunk_folder w "d" <> Py.Ok chunks.
Proof.
  intros w. split; [reflexivity|]. split; [reflexivity|].
  intros chunks. discriminate.
Qed.

(* ================================================================== *)
(** * Inference *)

(** C9, as the code has it: whatever the service does,
    [lmstudio_inference] raises nothing: when the call completes it
    returns the content of the first choice as it is, the completion
    text or [None] for a null content, and otherwise the error string
    made from the exception, also when the response has no choice to
    read. *)
Theorem lmstudio_inference_never_raises
  (create : string -> nat -> Py.result (list LlmUtils.content))
  (prompt : string) (max_new_tokens : nat) :
  exists answer,
    LlmUtils.lmstudio_inference create prompt max_new_tokens = Py.Ok answer
    /\ match create prompt max_new_tokens with
       | Py.Ok (content :: _) => answer = content
       | Py.Ok [] =>
           answer = Some "Error parsing response: list index out of range"
       | Py.Raise e =>
           answer = Some ("Error parsing response: " ++ Py.exn_msg e)%string
       end.
Proof.
  unfold LlmUtils.lmstudio_inference.
  destruct (create prompt max_new_tokens) as [[|c rest]|e]; simpl;
    eexists; split; reflexivity.
Qed.

(** C9 fails as stated: a completed call whose first choice has a
    null content makes [lmstudio_inference] return [None], which is
    neither the completion text nor any other string. *)
Lemma null_content_is_returned :
  LlmUtils.lmstudio_inference (fun _ _ => Py.Ok [None]) "What is cuDF?" 512
  = Py.Ok None
  /\ forall text : string,
       LlmUtils.lmstudio_inference (fun _ _ => Py.Ok [None]) "What is cuDF?" 512
       <> Py.Ok (Some text).
Proof. split; [reflexivity | discriminate]. Qed.

(* ================================================================== *)
(** * The batch loop of the indexer *)

Section Batches.
Import Py.

Variable A : Type.
Variable l : list A.
Variable batch_size : nat.

Lemma firstn_add (a b : nat) (xs : list A) :
  firstn (a + b) xs = (firstn a xs ++ firstn b (skipn a xs))%list.
Proof.
  revert xs. induction a as [|a IH]; intros xs; simpl; [reflexivity|].
  destruct xs as [|x xs]; simpl.
  - now rewrite firstn_nil.
  - now rewrite IH.
Qed.

(** Anything computed batch by batch from the offset and the batch, and
    additive over concatenation, is the same computed once over the
    whole list. *)
Variable X : Type.
Variable F : nat -> list A -> list X.
Hypothesis F_nil : forall i, F i [] = [].
Hypothesis F_app : forall i l1 l2,
  F i (l1 ++ l2) = (F i l1 ++ F (i + List.length l1) l2)%list.

Lemma batches_prefix (m : nat) :
  List.concat (map (fun i => F i (slice l i (i + batch_size)))
              (map (fun k => 0 + k * batch_size) (seq 0 m)))
  = F 0 (firstn (m * batch_size) l).
Proof.
  induction m as [|m IH]; [simpl; now rewrite F_nil|].
  rewrite seq_S, !map_app, concat_app, IH. simpl.
  rewrite app_nil_r. unfold slice.
  replace (m * batch_size + batch_size - m * batch_size) with batch_size by lia.
  replace (batch_size + m * batch_size) with (m * batch_size + batch_size) by lia.
  rewrite firstn_add, F_app. f_equal. simpl.
  destruct (Nat.le_gt_cases (m * batch_size) (List.length l)) as [Hle | Hgt].
  - now rewrite length_firstn, Nat.min_l.
  - rewrite (skipn_all2 l) by lia. now rewrite firstn_nil, !F_nil.
Qed.

Lemma batches_whole :
  1 <= batch_size ->
  List.concat (map (fun i => F i (slice l i (i + batch_size)))
              (range3 0 (List.length l) batch_size))
  = F 0 l.
Proof.
  intros Hb. unfold range3. rewrite batches_prefix.
  rewrite firstn_all2; [reflexivity|].
  rewrite Nat.sub_0_r.
  pose proof (Nat.div_mod (List.length l + (batch_size - 1)) batch_size) as Hd.
  pose proof (Nat.mod_upper_bound (List.length l + (batch_size - 1)) batch_size) as Hm.
  nia.
Qed.

End Batches.

Section Indexing.
Import Py AutoChunker BuildIndex Design.

Variable E : Type.
Variable encode : list string -> list E.
Hypothesis encode_length :
  forall docs, List.length (encode docs) = List.length docs.

Lemma slice_map {A B} (f : A -> B) (xs : list A) (i j : nat) :
  slice (map f xs) i j = map f (slice xs i j).
Proof. unfold slice. now rewrite skipn_map, firstn_map. Qed.

Lemma mapM_text (cs : list Chunk) :
  mapM (fun chunk => Json.getitem chunk "text") (map ChunkLog.as_dict cs)
  = Ok (map text cs).
Proof.
  induction cs as [|c cs IH]; [reflexivity|].
  simpl map. simpl mapM. rewrite IH. reflexivity.
Qed.

Lemma mapM_metadata (cs : list Chunk) :
  mapM metadata_of (map ChunkLog.as_dict cs) = Ok (map metadata_of_chunk cs).
Proof.
  induction cs as [|c cs IH]; [reflexivity|].
  simpl map. simpl mapM. rewrite IH. reflexivity.
Qed.

Lemma index_batch_result (cs : list Chunk) (batch_size : nat)
  (col : collection E) (i : nat) :
  index_batch E encode (map ChunkLog.as_dict cs) batch_size col i
  = Ok (col ++ batch_entries encode i (slice cs i (i + batch_size))).
Proof.
  unfold index_batch, batch_entries. rewrite slice_map, mapM_text, mapM_metadata. simpl.
  unfold add.
  rewrite encode_length, !length_map, length_seq, Nat.eqb_refl.
  reflexivity.
Qed.

Lemma index_loop_result (cs : list Chunk) (batch_size : nat)
  (offsets : list nat) (col : collection E) :
  index_loop E encode (map ChunkLog.as_dict cs) batch_size offsets col
  = Ok (col ++ List.concat
                 (map (fun i => batch_entries encode i (slice cs i (i + batch_size)))
                      offsets)).
Proof.
  revert col. induction offsets as [|i rest IH]; intros col; simpl.
  - now rewrite app_nil_r.
  - rewrite index_batch_result. simpl. rewrite IH. now rewrite app_assoc.
Qed.

Lemma entries_ids (ds : list string) (es : list E) (ms : list Json.dict)
  (ids : list string) :
  List.length ds = List.length ids -> List.length es = List.length ids ->
  List.length ms = List.length ids ->
  map entry_id (entries E ds es ms ids) = ids
  /\ map document (entries E ds es ms ids) = ds.
Proof.
  revert es ms ids. induction ds as [|d ds IH]; intros es ms ids H1 H2 H3;
    destruct ids as [|i ids]; try discriminate; [now split|].
  destruct es as [|e es]; [discriminate|]. destruct ms as [|m ms]; [discriminate|].
  simpl in *. destruct (IH es ms ids) as [Hi Hd]; try lia.
  now rewrite Hi, Hd.
Qed.

Lemma batch_entries_ids (i : nat) (batch : list Chunk) :
  map entry_id (batch_entries encode i batch)
  = map (chunk_id i) (seq 0 (List.length batch))
  /\ map document (batch_entries encode i batch) = map text batch.
Proof.
  unfold batch_entries. apply entries_ids;
    now rewrite ?encode_length, !length_map, ?length_seq.
Qed.

Lemma chunk_id_shift (i : nat) (n : nat) :
  map (chunk_id i) (seq 1 n) = map (chunk_id (S i)) (seq 0 n).
Proof.
  rewrite <- seq_shift, map_map. apply map_ext. intros j.
  unfold chunk_id. now rewrite Nat.add_succ_r.
Qed.

Lemma chunk_ids_global (i n : nat) :
  map (chunk_id i) (seq 0 n) = map global_id (seq i n).
Proof.
  revert i. induction n as [|n IH]; intros i; [reflexivity|].
  simpl. rewrite chunk_id_shift, IH. unfold chunk_id, global_id.
  now rewrite Nat.add_0_r.
Qed.

Lemma ids_app (i : nat) (l1 l2 : list Chunk) :
  map global_id (seq i (List.length (l1 ++ l2)))
  = (map global_id (seq i (List.length l1))
     ++ map global_id (seq (i + List.length l1) (List.length l2)))%list.
Proof. now rewrite length_app, seq_app, map_app. Qed.

(** The ids and documents of a whole run, for any batch size. *)
Lemma build_index_ids (cs : list Chunk) (batch_size : nat) (col : collection E) :
  1 <= batch_size ->
  exists added,
    build_index E encode (map ChunkLog.as_dict cs) batch_size col
    = Ok (col ++ added)
    /\ map entry_id added = map global_id (seq 0 (List.length cs))
    /\ map document added = map text cs.
Proof.
  intros Hb. unfold build_index.
  destruct (batch_size =? 0)%nat eqn:Hz; [apply Nat.eqb_eq in Hz; lia|].
  rewrite index_loop_result, length_map. eexists. split; [reflexivity|].
  rewrite !concat_map, !map_map. split.
  - rewrite (map_ext _ (fun i => (fun i b => map global_id (seq i (List.length b)))
                                   i (slice cs i (i + batch_size)))).
    + apply (batches_whole _ cs batch_size _
               (fun i b => map global_id (seq i (List.length b))));
        [reflexivity | apply ids_app | exact Hb].
    + intros i. destruct (batch_entries_ids i (slice cs i (i + batch_size))) as [-> _].
      apply chunk_ids_global.
  - rewrite (map_ext _ (fun i => (fun _ b => map text b)
                                   i (slice cs i (i + batch_size)))).
    + apply (batches_whole _ cs batch_size _ (fun _ b => map text b));
        [reflexivity | intros; apply map_app | exact Hb].
    + intros i. now destruct (batch_entries_ids i (slice cs i (i + batch_size))).
Qed.

End Indexing.

Lemma global_id_inj (g g' : nat) :
  Design.global_id g = Design.global_id g' -> g = g'.
Proof.
  unfold Design.global_id, Py.str_of_nat. simpl. intros H.
  injection H as H.
  apply DecimalNat.Unsigned.to_uint_inj.
  assert (Hs : Some (Nat.to_uint g) = Some (Nat.to_uint g')).
  { rewrite <- (NilEmpty.usu (Nat.to_uint g)), <- (NilEmpty.usu (Nat.to_uint g')).
    now rewrite H. }
  now injection Hs.
Qed.

Lemma global_ids_NoDup (start n : nat) :
  NoDup (map Design.global_id (seq start n)).
Proof.
  apply Finite.Injective_map_NoDup; [|apply seq_NoDup].
  intros g g'. apply global_id_inj.
Qed.

(** C3: in one run, for any batch size from 1 on, the record added for
    the chunk at global position [g] carries the id ["chunk_"] followed
    by [g], and the ids added in the run are pairwise distinct. *)
Theorem chunk_ids_follow_global_position
  (E : Type) (encode : list string -> list E)
  (cs : list AutoChunker.Chunk) (batch_size : nat)
  (col : BuildIndex.collection E) :
  (forall docs, List.length (encode docs) = List.length docs) ->
  1 <= batch_size ->
  exists added,
    BuildIndex.build_index E encode (map ChunkLog.as_dict cs) batch_size col
    = Py.Ok (col ++ added)
    /\ List.length added = List.length cs
    /\ (forall g c, nth_error cs g = Some c ->
          exists e, nth_error added g = Some e
                    /\ BuildIndex.entry_id e
                       = ("chunk_" ++ Py.str_of_nat g)%string
                    /\ BuildIndex.document e = AutoChunker.text c)
    /\ NoDup (map BuildIndex.entry_id added).
Proof.
  intros Hlen Hb.
  destruct (build_index_ids E encode Hlen cs batch_size col Hb)
    as (added & Hrun & Hids & Hdocs).
  exists added. split; [exact Hrun|]. split; [|split].
  - rewrite <- (length_map BuildIndex.document), Hdocs. apply length_map.
  - intros g c Hg.
    assert (Hd : nth_error (map BuildIndex.document added) g
                 = Some (AutoChunker.text c)).
    { rewrite Hdocs. now apply map_nth_error. }
    rewrite nth_error_map in Hd.
    destruct (nth_error added g) as [e|] eqn:He; [|discriminate].
    exists e. split; [reflexivity|]. split; [|now injection Hd].
    assert (Hi : nth_error (map BuildIndex.entry_id added) g
                 = Some (BuildIndex.entry_id e)).
    { now apply map_nth_error. }
    rewrite Hids in Hi. rewrite nth_error_map, nth_error_seq in Hi.
    assert (Hlt : g < List.length cs) by (apply nth_error_Some; congruence).
    apply Nat.ltb_lt in Hlt. rewrite Hlt in Hi. simpl in Hi. now injection Hi.
  - rewrite Hids. apply global_ids_NoDup.
Qed.

Lemma chunk_ids_follow_global_position_witness :
  exists added,
    BuildIndex.build_index nat (map String.length)
      (map ChunkLog.as_dict
           [AutoChunker.mkChunk "a" "f.py" "function";
            AutoChunker.mkChunk "bb" "f.py" "class";
            AutoChunker.mkChunk "ccc" "g.md" "markdown"]) 2 []
    = Py.Ok added
    /\ NoDup (map BuildIndex.entry_id added).
Proof.
  destruct (chunk_ids_follow_global_position nat (map String.length)
              [AutoChunker.mkChunk "a" "f.py" "function";
               AutoChunker.mkChunk "bb" "f.py" "class";
               AutoChunker.mkChunk "ccc" "g.md" "markdown"] 2 []
              (fun docs => length_map String.length docs)
              (le_S 1 1 (le_n 1)))
    as (added & Hrun & _ & _ & Hnd).
  exists added. split; [exact Hrun | exact Hnd].
Defined.

Section Determinism.
Import Py AutoChunker BuildIndex Design.

Variable E : Type.
Variable encode : list string -> list E.
Variable embed : string -> E.
Hypothesis encode_per_text : forall docs, encode docs = map embed docs.

Lemma batch_entries_per_text (i : nat) (batch : list Chunk) :
  batch_entries encode i batch = index_entries embed i batch.
Proof.
  unfold batch_entries. rewrite encode_per_text.
  revert i. induction batch as [|c rest IH]; intros i; [reflexivity|].
  simpl List.length. rewrite <- cons_seq. simpl.
  rewrite chunk_id_shift, IH. unfold chunk_id, global_id.
  now rewrite Nat.add_0_r.
Qed.

Lemma index_entries_app (i : nat) (l1 l2 : list Chunk) :
  index_entries embed i (l1 ++ l2)
  = (index_entries embed i l1
     ++ index_entries embed (i + List.length l1) l2)%list.
Proof.
  revert i. induction l1 as [|c l1 IH]; intros i; simpl.
  - now rewrite Nat.add_0_r.
  - rewrite IH. now rewrite Nat.add_succ_r.
Qed.

Lemma build_index_per_text (cs : list Chunk) (batch_size : nat)
  (col : collection E) :
  1 <= batch_size ->
  build_index E encode (map ChunkLog.as_dict cs) batch_size col
  = Ok (col ++ index_entries embed 0 cs).
Proof.
  intros Hb. unfold build_index.
  destruct (batch_size =? 0)%nat eqn:Hz; [apply Nat.eqb_eq in Hz; lia|].
  rewrite index_loop_result, length_map.
  - do 2 f_equal.
    rewrite (map_ext _ (fun i => index_entries embed i
                                   (slice cs i (i + batch_size))))
      by (intros; apply batch_entries_per_text).
    apply (batches_whole _ cs batch_size _ (index_entries embed));
      [reflexivity | apply index_entries_app | exact Hb].
  - intros docs. now rewrite encode_per_text, length_map.
Qed.

End Determinism.

(** C4: with an embedding function that is determined text by text, two
    runs over the same chunk sequence with any two batch sizes from 1
    on add the same records in the same order: for each chunk, in
    global order, its id, its embedding, its text and its metadata. *)
Theorem batch_size_is_immaterial
  (E : Type) (encode : list string -> list E) (embed : string -> E)
  (cs : list AutoChunker.Chunk) (b1 b2 : nat)
  (col : BuildIndex.collection E) :
  (forall docs, encode docs = map embed docs) ->
  1 <= b1 -> 1 <= b2 ->
  BuildIndex.build_index E encode (map ChunkLog.as_dict cs) b1 col
  = BuildIndex.build_index E encode (map ChunkLog.as_dict cs) b2 col
  /\ BuildIndex.build_index E encode (map ChunkLog.as_dict cs) b1 col
     = Py.Ok (col ++ Design.index_entries embed 0 cs).
Proof.
  intros He H1 H2.
  rewrite (build_index_per_text E encode embed He cs b1 col H1).
  rewrite (build_index_per_text E encode embed He cs b2 col H2).
  now split.
Qed.

Lemma batch_size_is_immaterial_witness :
  let cs := [AutoChunker.mkChunk "a" "f.py" "function";
             AutoChunker.mkChunk "bb" "f.py" "class";
             AutoChunker.mkChunk "ccc" "g.md" "markdown"] in
  BuildIndex.build_index nat (map String.length) (map ChunkLog.as_dict cs) 1 []
  = BuildIndex.build_index nat (map String.length) (map ChunkLog.as_dict cs) 128 [].
Proof.
  intros cs.
  apply (batch_size_is_immaterial nat (map String.length) String.length
           cs 1 128 []); [reflexivity | lia | lia].
Defined.

(* ================================================================== *)
(** * Context assembly *)

Section Assembly.
Import Py AutoChunker Design.

Lemma context_chunks_from (start : nat) (cs : list Chunk) :
  mapM (fun '(i, (doc, meta)) => context_chunk i doc meta)
       (enumerate start (zip (map text cs) (map metadata_of_chunk cs)))
  = Ok (blocks start cs).
Proof.
  revert start. induction cs as [|c rest IH]; intros start; [reflexivity|].
  simpl map. simpl zip. simpl enumerate. simpl mapM.
  rewrite IH. reflexivity.
Qed.

Lemma source_lines_from (start : nat) (cs : list Chunk) :
  mapM (fun '(i, meta) => RagQuery.source_line i meta)
       (enumerate start (map metadata_of_chunk cs))
  = Ok (citations start cs).
Proof.
  revert start. induction cs as [|c rest IH]; intros start; [reflexivity|].
  simpl map. simpl enumerate. simpl mapM.
  rewrite IH. reflexivity.
Qed.

Lemma blocks_nth (start : nat) (cs : list Chunk) (i : nat) (c : Chunk) :
  nth_error cs i = Some c ->
  nth_error (blocks start cs) i
  = Some (block (start + i) (text c) (source c) (type c))
  /\ nth_error (citations start cs) i
     = Some (citation (start + i) (source c)).
Proof.
  revert start i. induction cs as [|c0 rest IH]; intros start i Hi.
  - destruct i; discriminate.
  - destruct i as [|i]; simpl in Hi.
    + injection Hi as ->. simpl. now rewrite Nat.add_0_r.
    + simpl. rewrite <- Nat.add_succ_comm. now apply IH.
Qed.

Lemma assemble_query (cs : list Chunk) :
  RagQuery.assemble (map text cs) (map metadata_of_chunk cs)
  = Ok (join newline (blocks 1 cs), VStr (join newline (citations 1 cs))).
Proof.
  unfold RagQuery.assemble, context_chunks.
  rewrite context_chunks_from. simpl.
  rewrite source_lines_from. reflexivity.
Qed.

Lemma assemble_utils (cs : list Chunk) :
  RagUtils.assemble (map text cs) (map metadata_of_chunk cs)
  = Ok (join newline (blocks 1 cs), VDicts (map metadata_of_chunk cs)).
Proof.
  unfold RagUtils.assemble, context_chunks.
  rewrite context_chunks_from. reflexivity.
Qed.

(** C5, as the code has it: for a retrieval of ranked results, both
    assemblers render result [i] (from 1, in retrieval order) as the
    block ["[i] (type) Source: source\n<text>\n"] and join the blocks
    with a newline, which leaves a blank line between blocks.  The
    citations ["[i] source"], in the same order, come back from
    [rag_query.retrieve_context] joined by newlines into one string,
    and [rag_utils.retrieve_context] hands back the metadata list
    itself; for the two results [a.py]/[function] and [b.md]/[markdown]
    the citations are the one string ["[1] a.py\n[2] b.md"]. *)
Theorem context_assembly_renders_ranked_results
  (query : string -> nat -> result (list string * list Json.dict))
  (q : string) (top_k : nat) (cs : list Chunk) :
  query q top_k = Ok (map text cs, map metadata_of_chunk cs) ->
  RagQuery.retrieve_context query q top_k
  = Ok (join newline (blocks 1 cs), VStr (join newline (citations 1 cs)))
  /\ RagUtils.retrieve_context query q top_k
     = Ok (join newline (blocks 1 cs), VDicts (map metadata_of_chunk cs))
  /\ (forall i c, nth_error cs i = Some c ->
        nth_error (blocks 1 cs) i
        = Some ("[" ++ str_of_nat (S i) ++ "] (" ++ type c ++ ") Source: "
                ++ source c ++ newline ++ text c ++ newline)%string
        /\ nth_error (citations 1 cs) i
           = Some ("[" ++ str_of_nat (S i) ++ "] " ++ source c)%string)
  /\ (forall d1 d2, cs = two_results d1 d2 ->
        RagQuery.retrieve_context query q top_k
        = Ok (("[1] (function) Source: a.py" ++ newline ++ d1 ++ newline
               ++ newline
               ++ "[2] (markdown) Source: b.md" ++ newline ++ d2 ++ newline)%string,
              VStr ("[1] a.py" ++ newline ++ "[2] b.md")%string)).
Proof.
  intros Hq.
  assert (H1 : RagQuery.retrieve_context query q top_k
               = Ok (join newline (blocks 1 cs),
                     VStr (join newline (citations 1 cs)))).
  { unfold RagQuery.retrieve_context. rewrite Hq. simpl. apply assemble_query. }
  split; [exact H1|]. split; [|split].
  - unfold RagUtils.retrieve_context. rewrite Hq. simpl. apply assemble_utils.
  - intros i c Hi. apply (blocks_nth 1 cs i c Hi).
  - intros d1 d2 ->. rewrite H1. unfold two_results, blocks, citations, block,
      citation, newline. simpl join. simpl text. simpl source. simpl type.
    now rewrite !append_assoc.
Qed.

End Assembly.

Lemma context_assembly_renders_ranked_results_witness :
  RagQuery.retrieve_context
    (fun _ _ => Py.Ok (["D1"; "D2"],
                       map Design.metadata_of_chunk (Design.two_results "D1" "D2")))
    "question" 4
  = Py.Ok (Py.join Design.newline (Design.blocks 1 (Design.two_results "D1" "D2")),
           VStr (Py.join Design.newline
                         (Design.citations 1 (Design.two_results "D1" "D2")))).
Proof.
  apply (context_assembly_renders_ranked_results
           (fun _ _ => Py.Ok (["D1"; "D2"],
                              map Design.metadata_of_chunk
                                  (Design.two_results "D1" "D2")))
           "question" 4 (Design.two_results "D1" "D2")).
  reflexivity.
Defined.

(** C5 fails as stated: for the two results of the example the
    citations handed back are not the list of the two citation strings,
    from neither assembler. *)
Lemma citations_are_not_a_list :
  let query := fun (_ : string) (_ : nat) =>
    Py.Ok (["D1"; "D2"],
           map Design.metadata_of_chunk (Design.two_results "D1" "D2")) in
  (exists context cites,
     RagQuery.retrieve_context query "question" 2 = Py.Ok (context, cites)
     /\ cites <> VList ["[1] a.py"; "[2] b.md"])
  /\ (exists context cites,
        RagUtils.retrieve_context query "question" 2 = Py.Ok (context, cites)
        /\ cites <> VList ["[1] a.py"; "[2] b.md"]).
Proof.
  split; do 2 eexists; (split; [reflexivity | discriminate]).
Qed.

(* ================================================================== *)
(** * The chunk log *)

Section Log.
Import Py Json ChunkLog Design.

Lemma escape_char_scan (c : ascii) (rest : string) :
  scanstring (escape_char c ++ rest) = cons_fst c (scanstring rest).
Proof. each_char c; reflexivity. Qed.

Lemma escape_scan (v rest : string) :
  scanstring (escape v ++ String dquote rest) = Some (v, rest).
Proof.
  induction v as [|c v IH]; [reflexivity|].
  simpl escape. rewrite append_assoc, escape_char_scan, IH. reflexivity.
Qed.

Lemma escape_char_one_line (c : ascii) : one_line (escape_char c) = true.
Proof. each_char c; reflexivity. Qed.

Lemma one_line_app (a b : string) :
  one_line (a ++ b) = one_line a && one_line b.
Proof.
  induction a as [|c a IH]; simpl; [reflexivity|].
  rewrite IH. now rewrite !andb_assoc.
Qed.

Lemma escape_one_line (v : string) : one_line (escape v) = true.
Proof.
  induction v as [|c v IH]; [reflexivity|].
  simpl. now rewrite one_line_app, escape_char_one_line, IH.
Qed.

Lemma encode_str_one_line (v : string) : one_line (encode_str v) = true.
Proof.
  unfold encode_str. simpl. now rewrite one_line_app, escape_one_line.
Qed.

(** The line of one chunk, character by character. *)
Lemma dumps_chunk (c : AutoChunker.Chunk) :
  dumps (as_dict c)
  = String "{" (String dquote (escape "text" ++ String dquote (String ":" (String " "
     (String dquote (escape (AutoChunker.text c) ++ String dquote (String "," (String " "
     (String dquote (escape "source" ++ String dquote (String ":" (String " "
     (String dquote (escape (AutoChunker.source c) ++ String dquote (String "," (String " "
     (String dquote (escape "type" ++ String dquote (String ":" (String " "
     (String dquote (escape (AutoChunker.type c) ++ String dquote
     (String "}" EmptyString))))))))))))))))))))))).
Proof.
  unfold dumps, as_dict, encode_item, encode_str. simpl.
  repeat (progress (rewrite ?append_assoc; simpl)). reflexivity.
Qed.

Lemma dumps_chunk_one_line (c : AutoChunker.Chunk) :
  one_line (dumps (as_dict c)) = true.
Proof.
  rewrite dumps_chunk.
  repeat (progress (simpl; rewrite ?one_line_app, ?escape_one_line)).
  reflexivity.
Qed.

Lemma universal_newlines_line (a rest : string) :
  one_line a = true ->
  universal_newlines (a ++ String nl rest)
  = (a ++ String nl (universal_newlines rest))%string.
Proof.
  induction a as [|c a IH]; simpl; intros H; [reflexivity|].
  apply andb_prop in H. destruct H as [H Ha].
  apply andb_prop in H. destruct H as [_ Hcr].
  apply negb_true_iff in Hcr. rewrite Hcr. now rewrite IH.
Qed.

Lemma lines_keepends_line (a rest : string) :
  one_line a = true ->
  lines_keepends (a ++ String nl rest)
  = (a ++ String nl EmptyString)%string :: lines_keepends rest.
Proof.
  induction a as [|c a IH]; simpl; intros H; [reflexivity|].
  apply andb_prop in H. destruct H as [H Ha].
  apply andb_prop in H. destruct H as [Hnl _].
  apply negb_true_iff in Hnl. rewrite Hnl. now rewrite IH.
Qed.

Lemma members_more (fuel : nat) (k v rest : string) (pairs : list (string * string)) :
  members (S fuel)
    (escape k ++ String dquote (String ":" (String " "
       (String dquote (escape v ++ String dquote (String "," (String " "
       (String dquote rest))))))))
    pairs
  = members fuel rest (pairs ++ [(k, v)]).
Proof. simpl. rewrite escape_scan. simpl. rewrite escape_scan. reflexivity. Qed.

Lemma members_last (fuel : nat) (k v rest : string) (pairs : list (string * string)) :
  members (S fuel)
    (escape k ++ String dquote (String ":" (String " "
       (String dquote (escape v ++ String dquote (String "}" rest))))))
    pairs
  = Some ((pairs ++ [(k, v)])%list, rest).
Proof. simpl. rewrite escape_scan. simpl. rewrite escape_scan. reflexivity. Qed.

Lemma parse_object_three (k1 v1 k2 v2 k3 v3 rest : string) :
  parse_object
    (String dquote (escape k1 ++ String dquote (String ":" (String " "
       (String dquote (escape v1 ++ String dquote (String "," (String " "
       (String dquote (escape k2 ++ String dquote (String ":" (String " "
       (String dquote (escape v2 ++ String dquote (String "," (String " "
       (String dquote (escape k3 ++ String dquote (String ":" (String " "
       (String dquote (escape v3 ++ String dquote
       (String "}" rest)))))))))))))))))))))))
  = Some (dict_of_pairs [(k1, v1); (k2, v2); (k3, v3)], rest).
Proof.
  unfold parse_object.
  match goal with
  | |- context [skip_ws (String dquote ?x)] =>
      change (skip_ws (String dquote x)) with (String dquote x);
      set (s := x)
  end.
  cbv beta iota. change (Ascii.eqb dquote dquote) with true. cbv iota.
  destruct (String.length s) as [|[|[|n]]] eqn:Hlen;
    try (exfalso; unfold s in Hlen; rewrite length_append in Hlen;
         simpl in Hlen; lia).
  unfold s. rewrite members_more, members_more, members_last. reflexivity.
Qed.

(** Reading back the line of one chunk. *)
Lemma loads_dumps_chunk (c : AutoChunker.Chunk) :
  loads (dumps (as_dict c) ++ String nl EmptyString) = Ok (as_dict c).
Proof.
  rewrite dumps_chunk. unfold loads.
  match goal with
  | |- context [skip_ws (String "{" ?x ++ ?y)] =>
      change (skip_ws (String "{" x ++ y)) with (String "{" (x ++ y))
  end.
  cbv beta iota.
  repeat (progress (rewrite ?append_assoc; cbn [append])).
  rewrite parse_object_three. reflexivity.
Qed.

Lemma read_log_text (cs : list AutoChunker.Chunk) :
  read_log (log_text (map as_dict cs)) = Ok (map as_dict cs).
Proof.
  unfold read_log. induction cs as [|c rest IH]; [reflexivity|].
  cbn [map log_text].
  rewrite universal_newlines_line by apply dumps_chunk_one_line.
  rewrite lines_keepends_line by apply dumps_chunk_one_line.
  cbn [mapM]. rewrite loads_dumps_chunk. cbn [bind]. rewrite IH. reflexivity.
Qed.

End Log.

Section UnicodeLogRoundTrip.
Import Py Unicode UnicodeJson UnicodeLog Design.
Local Open Scope N_scope.

Lemma below_32 (n : N) :
  n < 32 -> exists k, (k < 32)%nat /\ n = N.of_nat k.
Proof. intros H. exists (N.to_nat n). split; lia. Qed.

Lemma each_control (P : N -> Prop) :
  (forall k, (k < 32)%nat -> P (N.of_nat k)) -> forall n, n < 32 -> P n.
Proof. intros H n Hn. destruct (below_32 n Hn) as (k & Hk & ->). auto. Qed.

Lemma str_escape_char_scan (n : N) (rest : str) :
  scanstring (escape_char n ++ rest) = cons_fst n (scanstring rest).
Proof.
  destruct (N.ltb_spec n 32) as [H|H].
  - revert n H. apply each_control. intros k Hk.
    do 32 (destruct k as [|k]; [reflexivity|]). exfalso; lia.
  - unfold escape_char.
    repeat match goal with
           | |- context [N.eqb n ?k] =>
               destruct (N.eqb_spec n k); [try (exfalso; unfold dquote, backslash in *; lia); subst; reflexivity|]
           end.
    destruct (N.ltb_spec n 32); [lia|].
    cbn [app scanstring].
    repeat match goal with
           | |- context [N.eqb n ?k] =>
               destruct (N.eqb_spec n k); [congruence|]
           end.
    destruct (N.ltb_spec n 32); [lia|]. reflexivity.
Qed.

Lemma str_escape_scan (v rest : str) :
  scanstring (escape v ++ dquote :: rest) = Some (v, rest).
Proof.
  induction v as [|c v IH]; [reflexivity|].
  unfold escape in *. cbn [flat_map]. rewrite <- app_assoc, str_escape_char_scan, IH.
  reflexivity.
Qed.

Lemma escape_char_no_line_end (n : N) : no_line_end (escape_char n) = true.
Proof.
  destruct (N.ltb_spec n 32) as [H|H].
  - revert n H. apply each_control. intros k Hk.
    do 32 (destruct k as [|k]; [reflexivity|]). exfalso; lia.
  - unfold escape_char.
    repeat match goal with
           | |- context [N.eqb n ?k] =>
               destruct (N.eqb_spec n k); [reflexivity|]
           end.
    destruct (N.ltb_spec n 32); [lia|].
    cbn [no_line_end].
    destruct (N.eqb_spec n 10); [lia|]. destruct (N.eqb_spec n 13); [lia|].
    reflexivity.
Qed.

Lemma no_line_end_app (a b : str) :
  no_line_end (a ++ b) = no_line_end a && no_line_end b.
Proof.
  induction a as [|c a IH]; simpl; [reflexivity|].
  rewrite IH. now rewrite !andb_assoc.
Qed.

Lemma escape_no_line_end (v : str) : no_line_end (escape v) = true.
Proof.
  induction v as [|c v IH]; [reflexivity|].
  unfold escape in *. cbn [flat_map].
  now rewrite no_line_end_app, escape_char_no_line_end, IH.
Qed.

Lemma escape_char_encodable (n : N) :
  encodable (escape_char n) = negb (is_surrogate n).
Proof.
  destruct (N.ltb_spec n 32) as [H|H].
  - revert n H. apply each_control. intros k Hk.
    do 32 (destruct k as [|k]; [reflexivity|]). exfalso; lia.
  - unfold escape_char.
    repeat match goal with
           | |- context [N.eqb n ?k] =>
               destruct (N.eqb_spec n k); [subst; reflexivity|]
           end.
    destruct (N.ltb_spec n 32); [lia|].
    cbn [encodable forallb]. now rewrite andb_true_r.
Qed.

Lemma encodable_app (a b : str) :
  encodable (a ++ b) = encodable a && encodable b.
Proof. apply forallb_app. Qed.

Lemma escape_encodable (v : str) : encodable (escape v) = encodable v.
Proof.
  induction v as [|c v IH]; [reflexivity|].
  unfold escape in *. cbn [flat_map].
  rewrite encodable_app, escape_char_encodable, IH. reflexivity.
Qed.

(** The line of one chunk, character by character. *)
Lemma str_dumps_chunk (c : Chunk) :
  dumps (as_dict c)
  = char "{" :: dquote :: escape (of_string "text") ++ dquote :: char ":" :: char " "
     :: dquote :: escape (text c) ++ dquote :: char "," :: char " "
     :: dquote :: escape (of_string "source") ++ dquote :: char ":" :: char " "
     :: dquote :: escape (source c) ++ dquote :: char "," :: char " "
     :: dquote :: escape (of_string "type") ++ dquote :: char ":" :: char " "
     :: dquote :: escape (type c) ++ [dquote; char "}"].
Proof.
  unfold dumps, as_dict, encode_item, encode_str.
  cbn [map join fst snd of_string app].
  repeat (progress (rewrite <- ?app_assoc; cbn [app])). reflexivity.
Qed.

Lemma str_dumps_chunk_no_line_end (c : Chunk) :
  no_line_end (dumps (as_dict c)) = true.
Proof.
  rewrite str_dumps_chunk.
  repeat (progress (cbn [no_line_end]; rewrite ?no_line_end_app, ?escape_no_line_end)).
  reflexivity.
Qed.

Lemma str_dumps_chunk_encodable (c : Chunk) :
  encodable (dumps (as_dict c) ++ [10]) = encodable_chunk c.
Proof.
  rewrite str_dumps_chunk. unfold encodable_chunk.
  repeat (progress (rewrite <- ?app_assoc; cbn [app])).
  repeat (progress (change (encodable (?x :: ?l))
                      with (negb (is_surrogate x) && encodable l);
                    rewrite ?encodable_app, ?escape_encodable)).
  cbn. rewrite !andb_true_r. now rewrite andb_assoc.
Qed.

Lemma str_universal_newlines_line (a rest : str) :
  no_line_end a = true ->
  universal_newlines (a ++ 10 :: rest) = a ++ 10 :: universal_newlines rest.
Proof.
  induction a as [|c a IH]; cbn [app universal_newlines no_line_end]; intros H;
    [reflexivity|].
  apply andb_prop in H. destruct H as [H Ha].
  apply andb_prop in H. destruct H as [_ Hcr].
  apply negb_true_iff in Hcr. rewrite Hcr. now rewrite IH.
Qed.

Lemma str_lines_keepends_line (a rest : str) :
  no_line_end a = true ->
  lines_keepends (a ++ 10 :: rest) = (a ++ [10]) :: lines_keepends rest.
Proof.
  induction a as [|c a IH]; cbn [app lines_keepends no_line_end]; intros H;
    [reflexivity|].
  apply andb_prop in H. destruct H as [H Ha].
  apply andb_prop in H. destruct H as [Hnl _].
  apply negb_true_iff in Hnl. rewrite Hnl. now rewrite IH.
Qed.

Lemma str_members_more (fuel : nat) (k v rest : str) (pairs : list (str * str)) :
  members (S fuel)
    (escape k ++ dquote :: char ":" :: char " "
       :: dquote :: escape v ++ dquote :: char "," :: char " "
       :: dquote :: rest)
    pairs
  = members fuel rest (pairs ++ [(k, v)]).
Proof.
  cbn [members]. rewrite str_escape_scan. cbn. rewrite str_escape_scan. reflexivity.
Qed.

Lemma str_members_last (fuel : nat) (k v rest : str) (pairs : list (str * str)) :
  members (S fuel)
    (escape k ++ dquote :: char ":" :: char " "
       :: dquote :: escape v ++ dquote :: char "}" :: rest)
    pairs
  = Some ((pairs ++ [(k, v)])%list, rest).
Proof.
  cbn [members]. rewrite str_escape_scan. cbn. rewrite str_escape_scan. reflexivity.
Qed.

Lemma str_parse_object_three (k1 v1 k2 v2 k3 v3 rest : str) :
  parse_object
    (dquote :: escape k1 ++ dquote :: char ":" :: char " "
       :: dquote :: escape v1 ++ dquote :: char "," :: char " "
       :: dquote :: escape k2 ++ dquote :: char ":" :: char " "
       :: dquote :: escape v2 ++ dquote :: char "," :: char " "
       :: dquote :: escape k3 ++ dquote :: char ":" :: char " "
       :: dquote :: escape v3 ++ dquote :: char "}" :: rest)
  = Some (dict_of_pairs [(k1, v1); (k2, v2); (k3, v3)], rest).
Proof.
  unfold parse_object.
  match goal with
  | |- context [skip_ws (dquote :: ?x)] =>
      change (skip_ws (dquote :: x)) with (dquote :: x);
      set (s := x)
  end.
  cbv beta iota. change (dquote =? char "}") with false.
  change (dquote =? dquote) with true. cbv iota.
  destruct (List.length s) as [|[|[|n]]] eqn:Hlen;
    try (exfalso; unfold s in Hlen; rewrite length_app in Hlen;
         cbn [List.length] in Hlen; lia).
  unfold s. rewrite str_members_more, str_members_more, str_members_last. reflexivity.
Qed.

(** Reading back the line of one chunk. *)
Lemma str_loads_dumps_chunk (c : Chunk) :
  loads (dumps (as_dict c) ++ [10]) = Ok (as_dict c).
Proof.
  rewrite str_dumps_chunk. unfold loads.
  repeat (progress (rewrite <- ?app_assoc; cbn [app])).
  match goal with
  | |- context [skip_ws (char "{" :: ?x)] =>
      change (skip_ws (char "{" :: x)) with (char "{" :: x)
  end.
  cbv beta iota. change (char "{" =? char "{") with true. cbv iota.
  rewrite str_parse_object_three. reflexivity.
Qed.

Lemma write_log_encodable (cs : list Chunk) (out : str) :
  forallb encodable_chunk cs = true ->
  write_log (map as_dict cs) out = (out ++ log_lines (map as_dict cs), Ok tt).
Proof.
  revert out. induction cs as [|c rest IH]; intros out H;
    cbn [map write_log log_lines].
  - now rewrite app_nil_r.
  - cbn [forallb] in H. apply andb_prop in H. destruct H as [Hc Hrest].
    unfold write. cbn [of_string]. change (char nl) with 10.
    rewrite str_dumps_chunk_encodable, Hc, (IH _ Hrest), <- !app_assoc.
    reflexivity.
Qed.

Lemma write_log_surrogate (good : list Chunk) (bad : Chunk)
  (rest : list Chunk) (out : str) :
  forallb encodable_chunk good = true ->
  encodable_chunk bad = false ->
  write_log (map as_dict (good ++ bad :: rest)) out
  = (out ++ log_lines (map as_dict good), Raise UnicodeEncodeError).
Proof.
  revert out. induction good as [|c good IH]; intros out Hg Hb;
    cbn [map write_log log_lines app].
  - unfold write. cbn [of_string]. change (char nl) with 10.
    rewrite str_dumps_chunk_encodable, Hb. now rewrite app_nil_r.
  - cbn [forallb] in Hg. apply andb_prop in Hg. destruct Hg as [Hc Hg].
    unfold write. cbn [of_string]. change (char nl) with 10.
    rewrite str_dumps_chunk_encodable, Hc. fold (write out).
    rewrite (IH _ Hg Hb), <- !app_assoc. reflexivity.
Qed.

(** The lines of the log are the lines of its records. *)
Lemma log_lines_split (cs : list Chunk) :
  lines_keepends (universal_newlines (log_lines (map as_dict cs)))
  = map (fun c => dumps (as_dict c) ++ [10]) cs.
Proof.
  induction cs as [|c rest IH]; [reflexivity|].
  cbn [map log_lines app].
  rewrite str_universal_newlines_line by apply str_dumps_chunk_no_line_end.
  rewrite str_lines_keepends_line by apply str_dumps_chunk_no_line_end.
  now rewrite IH.
Qed.

Lemma read_log_lines (cs : list Chunk) :
  read_log (log_lines (map as_dict cs)) = Ok (map as_dict cs).
Proof.
  unfold read_log. rewrite log_lines_split.
  induction cs as [|c rest IH]; [reflexivity|].
  cbn [map mapM]. rewrite str_loads_dumps_chunk. cbn [bind]. rewrite IH.
  reflexivity.
Qed.

(** C2, as the code has it: writing [N] chunks whose fields can be
    encoded as UTF-8 (they hold no lone surrogate) to the log, one
    [json.dumps] line each, succeeds, and reading the file back line by
    line with [json.loads] yields exactly [N] records, the [i]-th with
    the [text], [source] and [type] of the [i]-th chunk, whatever else
    the fields hold, newlines and carriage returns included; the file
    has [N] lines, the [i]-th being the record of the [i]-th chunk.  At
    the first chunk with a field that cannot be encoded the writer
    raises [UnicodeEncodeError]: the log then holds the records before
    that chunk and no other. *)
Theorem chunk_log_roundtrip (cs : list Chunk) :
  (forallb encodable_chunk cs = true ->
   exists file records,
     write_log (map as_dict cs) [] = (file, Ok tt)
     /\ lines_keepends (universal_newlines file)
        = map (fun c => dumps (as_dict c) ++ [10]) cs
     /\ read_log file = Ok records
     /\ List.length records = List.length cs
     /\ records = map as_dict cs
     /\ (forall i c, nth_error cs i = Some c ->
           exists d, nth_error records i = Some d
                     /\ dict_find d (of_string "text") = Some (text c)
                     /\ dict_find d (of_string "source") = Some (source c)
                     /\ dict_find d (of_string "type") = Some (type c)))
  /\ (forall good bad rest,
        cs = (good ++ bad :: rest)%list ->
        forallb encodable_chunk good = true ->
        encodable_chunk bad = false ->
        exists file,
          write_log (map as_dict cs) [] = (file, Raise UnicodeEncodeError)
          /\ read_log file = Ok (map as_dict good)).
Proof.
  split.
  - intros H. exists (log_lines (map as_dict cs)), (map as_dict cs).
    split; [now rewrite write_log_encodable|].
    split; [apply log_lines_split|].
    split; [apply read_log_lines|]. split; [apply length_map|].
    split; [reflexivity|].
    intros i c Hi. exists (as_dict c). split; [now apply map_nth_error|].
    repeat split.
  - intros good bad rest -> Hg Hb. exists (log_lines (map as_dict good)).
    split; [now rewrite write_log_surrogate | apply read_log_lines].
Qed.

End UnicodeLogRoundTrip.

Lemma chunk_log_roundtrip_witness :
  exists file,
    UnicodeLog.write_log (map UnicodeLog.as_dict Design.wide_chunks) []
    = (file, Py.Ok tt)
    /\ UnicodeLog.read_log file
       = Py.Ok (map UnicodeLog.as_dict Design.wide_chunks).
Proof.
  destruct (proj1 (chunk_log_roundtrip Design.wide_chunks) eq_refl)
    as (file & records & Hw & _ & Hr & _ & He & _).
  exists file. split; [exact Hw|]. now rewrite <- He.
Defined.

(** C2 fails as stated: of three chunks, the second with the lone
    surrogate of a file name in its [source], the writer stores the
    first, raises at the second, and the log read back has one record
    instead of three. *)
Lemma lone_surrogate_loses_records :
  exists file records,
    UnicodeLog.write_log (map UnicodeLog.as_dict Design.surrogate_chunks) []
    = (file, Py.Raise UnicodeLog.UnicodeEncodeError)
    /\ UnicodeLog.read_log file = Py.Ok records
    /\ List.length records = 1
    /\ List.length Design.surrogate_chunks = 3.
Proof.
  eexists. eexists. split; [vm_compute; reflexivity|].
  split; [vm_compute; reflexivity|]. split; reflexivity.
Qed.


(* ================================================================== *)
(** * Splitting Python sources *)

Section PySplit.
Import Py Re AutoChunker Design.

Lemma rmatch_lit (w : string) (prev : option ascii) (s : string) :
  rmatch (lit w) prev s (fun _ s' => Some s')
  = if startswith s w then Some (drop (String.length w) s) else None.
Proof.
  revert prev s. induction w as [|a w IH]; intros prev s; [reflexivity|].
  destruct s as [|b s]; [reflexivity|]. simpl.
  destruct (Ascii.eqb a b); [apply IH | reflexivity].
Qed.

(** A position is a boundary when it starts a line and [def ] or
    [class ] follows. *)
Lemma try_at_py (prev : option ascii) (s : string) (must_advance : bool) :
  try_at pattern_py prev s must_advance
  = if boundary_at prev s && negb must_advance then Some 0 else None.
Proof.
  unfold try_at, pattern_py, boundary_at, is_boundary. cbn [rmatch].
  destruct (at_bol prev); cbn [andb]; [|reflexivity].
  rewrite !rmatch_lit.
  destruct (startswith s "def "), (startswith s "class "), must_advance;
    cbn [orb andb negb]; cbv beta iota;
    rewrite ?Nat.eqb_refl; cbv iota; rewrite ?Nat.sub_diag; reflexivity.
Qed.

Lemma scan_py_nil (prev : option ascii) :
  scan pattern_py prev EmptyString 0 = [EmptyString].
Proof.
  cbn [scan]. rewrite try_at_py. unfold boundary_at, is_boundary.
  simpl. now rewrite andb_false_r.
Qed.

Lemma scan_py_cons (prev : option ascii) (c : ascii) (s : string) :
  scan pattern_py prev (String c s) 0
  = if boundary_at prev (String c s)
    then EmptyString :: cons_hd c (scan pattern_py (Some c) s 0)
    else cons_hd c (scan pattern_py (Some c) s 0).
Proof.
  cbn [scan]. rewrite !try_at_py.
  destruct (boundary_at prev (String c s)); reflexivity.
Qed.

Lemma scan_py_shape (prev : option ascii) (s : string) :
  scan pattern_py prev s 0 = lead prev s :: definitions prev s.
Proof.
  revert prev. induction s as [|c s IH]; intros prev.
  - apply scan_py_nil.
  - rewrite scan_py_cons, IH. cbn [lead definitions cons_hd].
    destruct (boundary_at prev (String c s)); reflexivity.
Qed.

Lemma lines_nonempty (s : string) : exists l ls, lines s = l :: ls.
Proof.
  induction s as [|c s (l & ls & IH)]; simpl; [eauto|].
  destruct (Ascii.eqb c nl); [eauto|]. rewrite IH. simpl. eauto.
Qed.

(** A word without newline starts a text when it starts its first line. *)
Lemma startswith_first_line (w s : string) :
  one_line w = true ->
  startswith s w = startswith (hd EmptyString (lines s)) w.
Proof.
  revert s. induction w as [|a w IH]; intros s Hw; [reflexivity|].
  simpl in Hw. apply andb_prop in Hw. destruct Hw as [Ha Hw].
  apply andb_prop in Ha. destruct Ha as [Ha _]. apply negb_true_iff in Ha.
  destruct s as [|b s]; [reflexivity|]. simpl.
  destruct (Ascii.eqb b nl) eqn:Hb.
  - apply Ascii.eqb_eq in Hb. subst b. simpl. now rewrite Ha.
  - destruct (lines_nonempty s) as (l & ls & Hl).
    rewrite (IH s Hw), Hl. reflexivity.
Qed.

Lemma is_boundary_first_line (s : string) :
  is_boundary s = is_boundary (hd EmptyString (lines s)).
Proof.
  unfold is_boundary.
  now rewrite <- !startswith_first_line by reflexivity.
Qed.

Lemma is_boundary_newline (s : string) : is_boundary (String nl s) = false.
Proof. reflexivity. Qed.

(** The boundaries met by the scan are the boundary lines. *)
Lemma definitions_count (prev : option ascii) (s : string) :
  List.length (definitions prev s)
  = List.length (filter is_boundary
                   (if at_bol prev then lines s else tl (lines s))).
Proof.
  revert prev. induction s as [|c s IH]; intros prev.
  - simpl. now destruct (at_bol prev).
  - cbn [definitions lines]. unfold boundary_at.
    destruct (Ascii.eqb c nl) eqn:Hc.
    + apply Ascii.eqb_eq in Hc. subst c.
      rewrite is_boundary_newline, andb_false_r, IH. simpl.
      now destruct (at_bol prev).
    + destruct (lines_nonempty s) as (l & ls & Hl).
      assert (Hb : is_boundary (String c s) = is_boundary (String c l)).
      { rewrite is_boundary_first_line. simpl. now rewrite Hc, Hl. }
      specialize (IH (Some c)). simpl at_bol in IH. rewrite Hc, Hl in IH.
      simpl tl in IH. rewrite Hl. cbn [cons_hd].
      destruct (at_bol prev); cbn [andb tl filter].
      * rewrite Hb. destruct (is_boundary (String c l)); simpl; now rewrite IH.
      * exact IH.
Qed.

Lemma lead_content (prev : option ascii) (s : string) :
  has_content (lead prev s)
  = existsb has_content (lead_lines (at_bol prev) (lines s)).
Proof.
  revert prev. induction s as [|c s IH]; intros prev.
  - simpl. now destruct (at_bol prev).
  - cbn [lead lines]. unfold boundary_at.
    destruct (Ascii.eqb c nl) eqn:Hc.
    + apply Ascii.eqb_eq in Hc. subst c.
      rewrite is_boundary_newline, andb_false_r. cbn [has_content].
      rewrite IH. simpl. now destruct (at_bol prev).
    + destruct (lines_nonempty s) as (l & ls & Hl).
      assert (Hb : is_boundary (String c s) = is_boundary (String c l)).
      { rewrite is_boundary_first_line. simpl. now rewrite Hc, Hl. }
      specialize (IH (Some c)). simpl at_bol in IH. rewrite Hc, Hl in IH.
      simpl in IH. rewrite Hl. cbn [cons_hd].
      destruct (at_bol prev); cbn [andb lead_lines leading].
      * rewrite Hb. destruct (is_boundary (String c l)); [reflexivity|].
        cbn [has_content existsb]. rewrite IH. now rewrite orb_assoc.
      * cbn [has_content existsb]. rewrite IH. now rewrite orb_assoc.
Qed.

Lemma startswith_cons (b : ascii) (s : string) (a : ascii) (w : string) :
  startswith (String b s) (String a w) = Ascii.eqb a b && startswith s w.
Proof. reflexivity. Qed.

(** Within a line, the first segment keeps a newline-free word that the
    text starts with. *)
Lemma lead_keeps_word (w : string) (prev : option ascii) (s : string) :
  one_line w = true -> at_bol prev = false ->
  startswith s w = true -> startswith (lead prev s) w = true.
Proof.
  revert prev s. induction w as [|a w IH]; intros prev s Hw Hp Hs; [reflexivity|].
  simpl in Hw. apply andb_prop in Hw. destruct Hw as [Ha Hw].
  apply andb_prop in Ha. destruct Ha as [Ha _]. apply negb_true_iff in Ha.
  destruct s as [|b s]; [discriminate|]. cbn [startswith] in Hs.
  apply andb_prop in Hs. destruct Hs as [Hab Hs].
  cbn [lead]. unfold boundary_at. rewrite Hp. cbn [andb startswith].
  rewrite Hab. apply Ascii.eqb_eq in Hab. subst b.
  apply IH; [exact Hw | exact Ha | exact Hs].
Qed.

Lemma boundary_segment (c : ascii) (s : string) :
  is_boundary (String c s) = true ->
  is_boundary (String c (lead (Some c) s)) = true.
Proof.
  unfold is_boundary. intros H. apply orb_true_iff in H. apply orb_true_iff.
  destruct H as [H | H]; [left | right];
    rewrite startswith_cons in H |- *;
    apply andb_prop in H; destruct H as [Hc H]; rewrite Hc;
    apply Ascii.eqb_eq in Hc; subst c;
    (apply lead_keeps_word; [reflexivity | reflexivity | exact H]).
Qed.

Lemma definitions_are_boundaries (prev : option ascii) (s : string) :
  Forall (fun p => is_boundary p = true) (definitions prev s).
Proof.
  revert prev. induction s as [|c s IH]; intros prev; [constructor|].
  cbn [definitions]. destruct (boundary_at prev (String c s)) eqn:Hb.
  - constructor; [|apply IH].
    apply boundary_segment. unfold boundary_at in Hb.
    now apply andb_prop in Hb.
  - apply IH.
Qed.

Lemma strip_empty (s : string) : is_empty (strip s) = negb (has_content s).
Proof.
  unfold strip. induction s as [|c s IH]; [reflexivity|].
  cbn [lstrip has_content]. destruct (isspace c) eqn:Hc; [exact IH|].
  now rewrite (rstrip_keep c s Hc).
Qed.

Lemma boundary_has_content (p : string) :
  is_boundary p = true -> has_content p = true.
Proof.
  unfold is_boundary. intros H. apply orb_true_iff in H.
  destruct p as [|c p]; [now destruct H|].
  destruct H as [H | H]; rewrite startswith_cons in H; apply andb_prop in H;
    destruct H as [Hc _]; apply Ascii.eqb_eq in Hc; subst c; reflexivity.
Qed.

Lemma py_blocks_definitions (fp : string) (ps : list string) :
  Forall (fun p => is_boundary p = true) ps ->
  List.length (py_blocks fp ps) = List.length ps.
Proof.
  induction 1 as [|p ps Hp _ IH]; [reflexivity|].
  cbn [py_blocks]. rewrite strip_empty, (boundary_has_content p Hp).
  simpl. now rewrite IH.
Qed.

Lemma py_blocks_typed (fp : string) (splits : list string) :
  Forall (fun ch => type ch = py_type (text ch)) (py_blocks fp splits).
Proof.
  induction splits as [|b rest IH]; simpl; [constructor|].
  destruct (is_empty (strip b)); [exact IH|]. now constructor.
Qed.

Lemma chunk_py_count (fp content : string) :
  List.length (py_blocks fp (Re.split pattern_py content))
  = boundaries content + (if leading_content content then 1 else 0).
Proof.
  unfold Re.split. rewrite scan_py_shape. cbn [py_blocks].
  rewrite strip_empty, (lead_content None content).
  unfold boundaries, leading_content. cbn [at_bol lead_lines].
  pose proof (py_blocks_definitions fp _ (definitions_are_boundaries None content)) as Hd.
  rewrite (definitions_count None content) in Hd. cbn [at_bol] in Hd.
  destruct (existsb has_content (leading (lines content))); simpl; lia.
Qed.

(** C6, as the code has it: the number of chunks of a Python file is
    the number of its boundary lines, plus one exactly when there is
    non-whitespace content before the first of them; and every chunk,
    the leading block included, is typed by the start of its trimmed
    text: ["function"] after ["def "], ["class"] after ["class "],
    ["top-level"] otherwise. *)
Theorem chunk_py_count_and_types (w : world) (fp content : string) :
  read_text w fp = Ok content ->
  exists chunks,
    chunk_py w fp = Ok chunks
    /\ List.length chunks
       = boundaries content + (if leading_content content then 1 else 0)
    /\ (forall ch, In ch chunks ->
          (startswith (text ch) "def " = true -> type ch = "function")
          /\ (startswith (text ch) "class " = true -> type ch = "class")
          /\ (startswith (text ch) "def " = false ->
              startswith (text ch) "class " = false ->
              type ch = "top-level")).
Proof.
  intros Hr. unfold chunk_py. rewrite Hr. cbn [bind].
  eexists. split; [reflexivity|]. split; [apply chunk_py_count|].
  intros ch Hin.
  pose proof (py_blocks_typed fp (Re.split pattern_py content)) as Ht.
  rewrite Forall_forall in Ht. rewrite (Ht ch Hin). unfold py_type.
  destruct (startswith (text ch) "def ") eqn:Hd.
  - repeat split; try discriminate.
    intros Hc. destruct (text ch) as [|a t]; [discriminate|].
    rewrite startswith_cons in Hd, Hc.
    apply andb_prop in Hd. destruct Hd as [Hd _].
    apply andb_prop in Hc. destruct Hc as [Hc _].
    apply Ascii.eqb_eq in Hd, Hc. congruence.
  - destruct (startswith (text ch) "class "); repeat split; congruence.
Qed.

End PySplit.

Lemma chunk_py_count_and_types_witness :
  exists chunks,
    AutoChunker.chunk_py
      (Design.sample_world
         ("import os" ++ Design.newline ++ "def f(): pass" ++ Design.newline
          ++ "class A:" ++ Design.newline ++ "  def g(self): pass")
         [] [] []) "m.py"
    = Py.Ok chunks
    /\ List.length chunks = 3.
Proof.
  destruct (chunk_py_count_and_types
              (Design.sample_world
                 ("import os" ++ Design.newline ++ "def f(): pass"
                  ++ Design.newline ++ "class A:" ++ Design.newline
                  ++ "  def g(self): pass")
                 [] [] []) "m.py" _ eq_refl) as (chunks & Hc & Hn & _).
  exists chunks. split; [exact Hc | exact Hn].
Defined.

(** C6 fails as stated: a file whose only line is an indented [def] has
    no boundary, its leading block is kept, and that block is typed
    ["function"], not ["top-level"]. *)
Lemma leading_block_typed_function :
  let content := " def f(): pass" in
  Design.boundaries content = 0
  /\ Design.leading_content content = true
  /\ exists ch,
       AutoChunker.chunk_py (Design.sample_world content [] [] []) "m.py"
       = Py.Ok [ch]
       /\ AutoChunker.type ch = "function"
       /\ AutoChunker.type ch <> "top-level".
Proof.
  split; [reflexivity|]. split; [reflexivity|].
  eexists. split; [reflexivity|]. split; [reflexivity | discriminate].
Qed.

(* ================================================================== *)
(** * Splitting markdown *)

Section MdSplit.
Import Py Re AutoChunker Design.

(** At the start of a line, a [#] is matched, alone. *)
Lemma try_at_md_hash (prev : option ascii) (rest : string) :
  at_bol prev = true ->
  try_at pattern_md prev (String "#" rest) false = Some 1.
Proof.
  intros Hb. unfold try_at, pattern_md. cbn [rmatch]. rewrite Hb.
  change (Ascii.eqb nl "#") with false. change (Ascii.eqb "#" "#") with true.
  cbv beta iota. cbn [andb]. cbv iota. f_equal.
  cbn [String.length]. lia.
Qed.

(** The blank-line alternative only passes whitespace. *)
Lemma many_blank (K : cont) (s : string) (prev : option ascii) (rest : string) :
  (forall p s' x, K p s' = Some x -> s' = String nl x) ->
  many isspace prev s K = Some rest ->
  exists ws, s = (ws ++ String nl rest)%string /\ has_content ws = false.
Proof.
  intros HK. revert prev. induction s as [|c s IH]; intros prev; cbn [many].
  - intros H. apply HK in H. discriminate.
  - assert (Hlast :
      K prev (String c s) = Some rest ->
      exists ws, String c s = (ws ++ String nl rest)%string
                 /\ has_content ws = false).
    { intros H. apply HK in H. now exists EmptyString. }
    destruct (isspace c) eqn:Hs; [|exact Hlast].
    destruct (many isspace (Some c) s K) as [r|] eqn:Hm; [|exact Hlast].
    intros [= ->]. destruct (IH _ Hm) as (ws & -> & Hws).
    exists (String c ws). split; [reflexivity|].
    cbn [has_content]. now rewrite Hs, Hws.
Qed.

Lemma spaces_blank (ws : string) (rest : string) :
  has_content ws = false ->
  spaces (String.length ws + 1) (ws ++ String nl rest) = true.
Proof.
  induction ws as [|c ws IH]; cbn [has_content]; intros H; [reflexivity|].
  apply orb_false_iff in H. destruct H as [Hc Hws].
  apply negb_false_iff in Hc. cbn [String.length Nat.add append spaces].
  now rewrite Hc, IH.
Qed.

(** Every match of the markdown pattern takes at least one character,
    and all it takes after the first is whitespace. *)
Lemma try_at_md_some (prev : option ascii) (c : ascii) (s : string) (m : nat) :
  try_at pattern_md prev (String c s) false = Some m ->
  exists m', m = S m' /\ spaces m' s = true.
Proof.
  unfold try_at, pattern_md. cbn [rmatch andb].
  destruct (Ascii.eqb nl c) eqn:Hc.
  - destruct (many isspace (Some c) s _) as [r|] eqn:Hm.
    + apply many_blank in Hm.
      2:{ intros p [|d s'] x; [discriminate|].
          destruct (Ascii.eqb nl d) eqn:Hd; [|discriminate].
          apply Ascii.eqb_eq in Hd. subst d. now intros [= ->]. }
      destruct Hm as (ws & -> & Hws). intros [= <-].
      exists (String.length ws + 1). split.
      * rewrite ?length_String, length_append, ?length_String.
        destruct (String.length r); lia.
      * now apply spaces_blank.
    + apply Ascii.eqb_eq in Hc. subst c.
      destruct (at_bol prev); [|discriminate].
      change (Ascii.eqb "#" nl) with false. discriminate.
  - destruct (at_bol prev); [|discriminate].
    destruct (Ascii.eqb "#" c); [|discriminate].
    intros [= <-]. exists 0. split; [|reflexivity].
    destruct (String.length s); lia.
Qed.

(** Inside a line, away from its start, nothing matches. *)
Lemma try_at_md_inside (prev : option ascii) (c : ascii) (s : string) :
  at_bol prev = false -> Ascii.eqb c nl = false ->
  try_at pattern_md prev (String c s) false = None.
Proof.
  intros Hb Hc. unfold try_at, pattern_md. cbn [rmatch].
  rewrite Hb. rewrite Ascii.eqb_sym in Hc. now rewrite Hc.
Qed.

Lemma scan_nonempty (r : regex) (prev : option ascii) (s : string) (skip : nat) :
  exists p ps, scan r prev s skip = p :: ps.
Proof.
  revert prev skip. induction s as [|c s IH]; intros prev skip; cbn [scan].
  - destruct (try_at r prev EmptyString false); eauto.
  - destruct skip as [|k]; [|apply IH].
    destruct (IH (Some c) 0) as (p & ps & Hp).
    destruct (try_at r prev (String c s) false) as [[|m]|]; eauto.
    rewrite Hp. cbn [cons_hd]. eauto.
Qed.

Lemma cons_hd_app (c : ascii) (front back : list string) :
  front <> [] -> cons_hd c (front ++ back) = (cons_hd c front ++ back)%list.
Proof. destruct front; [congruence | reflexivity]. Qed.

Lemma cons_hd_nonempty (c : ascii) (l : list string) : cons_hd c l <> [].
Proof. destruct l; discriminate. Qed.

Lemma spaces_app (n : nat) (u x : string) :
  spaces n u = true -> spaces n (u ++ x) = true.
Proof.
  revert u. induction n as [|n IH]; intros u; [reflexivity|].
  destruct u as [|c u]; [discriminate|]. cbn [spaces append].
  intros H. apply andb_prop in H. destruct H as [-> H]. now apply IH.
Qed.

Lemma spaces_before_hash (n : nat) (u rest : string) :
  spaces n (u ++ String "#" rest) = true -> spaces n u = true.
Proof.
  revert u. induction n as [|n IH]; intros u; [reflexivity|].
  destruct u as [|c u]; [discriminate|]. cbn [spaces append].
  intros H. apply andb_prop in H. destruct H as [-> H]. now apply IH.
Qed.

(** What a blank run does before a [#] does not depend on the text
    after the [#]. *)
Lemma many_before_hash (K : cont) (x : string) (prev : option ascii) :
  (forall p r, K p (String nl r) = Some r) ->
  (forall p d r, Ascii.eqb nl d = false -> K p (String d r) = None) ->
  (exists y, forall rest,
      many isspace prev (x ++ String "#" rest) K
      = Some (y ++ String "#" rest)%string)
  \/ (forall rest, many isspace prev (x ++ String "#" rest) K = None).
Proof.
  intros HK1 HK2. revert prev. induction x as [|c x IH]; intros prev.
  - right. intros rest. cbn [append many]. change (isspace "#") with false.
    cbv iota. now apply HK2.
  - assert (Hlast :
      (exists y, forall rest,
          K prev (String c (x ++ String "#" rest))
          = Some (y ++ String "#" rest)%string)
      \/ (forall rest, K prev (String c (x ++ String "#" rest)) = None)).
    { destruct (Ascii.eqb nl c) eqn:Hc.
      - left. exists x. intros rest. apply Ascii.eqb_eq in Hc. subst c.
        apply HK1.
      - right. intros rest. now apply HK2. }
    cbn [append many]. destruct (isspace c); [|exact Hlast].
    destruct (IH (Some c)) as [(y & Hy) | Hn].
    + left. exists y. intros rest. now rewrite Hy.
    + destruct Hlast as [(y & Hy) | Hn']; [left; exists y | right];
        intros rest; rewrite Hn; auto.
Qed.

Lemma length_diff (c : ascii) (x y rest : string) :
  String.length (String c (x ++ String "#" rest))
  - String.length (y ++ String "#" rest)
  = S (String.length x) - String.length y.
Proof. rewrite length_String, !length_append, !length_String. lia. Qed.

Lemma length_diff_one (c : ascii) (s : string) :
  String.length (String c s) - String.length s = 1.
Proof. rewrite length_String. lia. Qed.

(** So the outcome of a match attempt before a [#] does not depend on
    the text after the [#] either. *)
Lemma try_at_md_before_hash (prev : option ascii) (c : ascii) (x : string) :
  exists o, forall rest,
    try_at pattern_md prev (String c (x ++ String "#" rest)) false = o.
Proof.
  unfold try_at, pattern_md.
  destruct (Ascii.eqb nl c) eqn:Hc.
  - destruct (many_before_hash
                (fun p s' => rmatch (Chr nl) p s' (fun _ r => Some r))
                x (Some c)) as [(y & Hy) | Hn].
    + reflexivity.
    + intros p d r Hd. cbn [rmatch]. now rewrite Hd.
    + exists (Some (S (String.length x) - String.length y)). intros rest.
      cbn [rmatch andb]. rewrite Hc. cbn [rmatch] in Hy. rewrite Hy.
      cbv beta iota. now rewrite length_diff.
    + exists None. intros rest. cbn [rmatch andb]. rewrite Hc.
      cbn [rmatch] in Hn. rewrite Hn.
      apply Ascii.eqb_eq in Hc. subst c.
      change (Ascii.eqb "#" nl) with false. now destruct (at_bol prev).
  - destruct (at_bol prev) eqn:Hb; [destruct (Ascii.eqb "#" c) eqn:Hh|].
    + exists (Some 1). intros rest. cbn [rmatch andb]. rewrite Hc, Hb, Hh.
      cbv beta iota. now rewrite length_diff_one.
    + exists None. intros rest. cbn [rmatch andb]. now rewrite Hc, Hb, Hh.
    + exists None. intros rest. cbn [rmatch andb]. now rewrite Hc, Hb.
Qed.

(** A [#] that begins a line is reached by the search and consumed:
    the segments in progress end before it, they do not depend on what
    follows it, and the split goes on with the text after it. *)
Lemma scan_md_reach (u : string) (prev : option ascii) (skip : nat) :
  spaces skip u = true ->
  at_bol (last_char prev u) = true ->
  exists front,
    front <> []
    /\ forall rest,
         scan pattern_md prev (u ++ String "#" rest) skip
         = (front ++ scan pattern_md (Some "#"%char) rest 0)%list.
Proof.
  revert prev skip. induction u as [|c u IH]; intros prev skip Hs Hb.
  - destruct skip as [|k]; [|discriminate].
    exists [EmptyString]. split; [discriminate|]. intros rest.
    cbn [append scan]. now rewrite (try_at_md_hash prev rest Hb).
  - cbn [last_char] in Hb. destruct skip as [|k].
    + destruct (try_at_md_before_hash prev c u) as ([m|] & Ho).
      * destruct (try_at_md_some _ _ _ _ (Ho EmptyString)) as (m' & -> & Hm).
        apply spaces_before_hash in Hm.
        destruct (IH (Some c) m' Hm Hb) as (front & Hf & Hfront).
        exists (EmptyString :: front). split; [discriminate|]. intros rest.
        cbn [append scan]. now rewrite Ho, Hfront.
      * destruct (IH (Some c) 0 eq_refl Hb) as (front & Hf & Hfront).
        exists (cons_hd c front). split; [apply cons_hd_nonempty|].
        intros rest. cbn [append scan]. rewrite Ho, Hfront.
        now apply cons_hd_app.
    + cbn [spaces] in Hs. apply andb_prop in Hs. destruct Hs as [_ Hs].
      destruct (IH (Some c) k Hs Hb) as (front & Hf & Hfront).
      exists front. split; [exact Hf|]. intros rest.
      cbn [append scan]. apply Hfront.
Qed.

(** After the consumed [#], the segment in progress takes the rest of
    the line whole. *)
Lemma scan_md_line (line after : string) (prev : option ascii) :
  no_newline line = true -> at_bol prev = false ->
  exists more back,
    scan pattern_md prev (line ++ after) 0 = (line ++ more)%string :: back.
Proof.
  revert prev. induction line as [|c line IH]; intros prev Hl Hb.
  - destruct (scan_nonempty pattern_md prev after 0) as (p & ps & Hp).
    exists p, ps. exact Hp.
  - cbn [no_newline] in Hl. apply andb_prop in Hl. destruct Hl as [Hc Hl].
    apply negb_true_iff in Hc.
    cbn [append scan]. rewrite (try_at_md_inside prev c _ Hb Hc).
    destruct (IH (Some c) Hl Hc) as (more & back & ->).
    exists more, back. reflexivity.
Qed.

(** No segment of the split holds a [#] at the start of an inner line,
    and a segment entered at the start of a line does not begin with
    one either. *)
Lemma scan_md_no_heading (s : string) (prev : option ascii) (skip : nat) :
  Forall (fun p => no_inner_heading p = true) (scan pattern_md prev s skip)
  /\ (skip = 0 -> at_bol prev = true ->
      starts_hash (hd EmptyString (scan pattern_md prev s skip)) = false).
Proof.
  revert prev skip. induction s as [|c s IH]; intros prev skip; cbn [scan].
  - destruct (try_at pattern_md prev EmptyString false);
      split; repeat constructor.
  - destruct skip as [|k].
    2:{ split; [apply IH | discriminate]. }
    destruct (try_at pattern_md prev (String c s) false) as [m|] eqn:Ht.
    + destruct (try_at_md_some _ _ _ _ Ht) as (m' & -> & _).
      split; [|reflexivity]. constructor; [reflexivity | apply IH].
    + destruct (scan_nonempty pattern_md (Some c) s 0) as (p & ps & Hp).
      destruct (IH (Some c) 0) as [Hall Hhd]. rewrite Hp in *.
      cbn [cons_hd hd] in *. inversion Hall as [|? ? Hp0 Hps]; subst.
      split.
      * constructor; [|exact Hps]. cbn [no_inner_heading]. rewrite Hp0.
        destruct (Ascii.eqb c nl) eqn:Hc; [|reflexivity].
        cbn [at_bol] in Hhd. now rewrite (Hhd eq_refl Hc).
      * intros _ Hb. cbn [starts_hash].
        destruct (Ascii.eqb c "#") eqn:Hc; [|reflexivity].
        apply Ascii.eqb_eq in Hc. subst c.
        rewrite (try_at_md_hash prev s Hb) in Ht. discriminate.
Qed.

Lemma no_inner_heading_lstrip (s : string) :
  no_inner_heading s = true -> no_inner_heading (lstrip s) = true.
Proof.
  induction s as [|c s IH]; [reflexivity|]. intros H. cbn [lstrip].
  destruct (isspace c); [|exact H].
  cbn [no_inner_heading] in H. apply andb_prop in H. now apply IH.
Qed.

Lemma starts_hash_rstrip (s : string) :
  starts_hash (rstrip s) = true -> starts_hash s = true.
Proof.
  destruct s as [|c s]; [discriminate|]. cbn [rstrip].
  destruct (isspace c && is_empty (rstrip s)); [discriminate | exact (fun H => H)].
Qed.

Lemma no_inner_heading_rstrip (s : string) :
  no_inner_heading s = true -> no_inner_heading (rstrip s) = true.
Proof.
  induction s as [|c s IH]; [reflexivity|]. intros H. cbn [rstrip].
  destruct (isspace c && is_empty (rstrip s)); [reflexivity|].
  cbn [no_inner_heading] in H |- *. apply andb_prop in H. destruct H as [Hc Hs].
  rewrite (IH Hs), andb_true_r.
  destruct (Ascii.eqb c nl); [|reflexivity]. cbn [andb] in Hc |- *.
  destruct (starts_hash (rstrip s)) eqn:Hr; [|reflexivity].
  apply starts_hash_rstrip in Hr. now rewrite Hr in Hc.
Qed.

Lemma md_blocks_no_heading (fp : string) (splits : list string) :
  Forall (fun p => no_inner_heading p = true) splits ->
  Forall (fun ch => no_inner_heading (text ch) = true) (md_blocks fp splits).
Proof.
  induction 1 as [|p ps Hp _ IH]; cbn [md_blocks]; [constructor|].
  destruct (is_empty (strip p)); [exact IH|]. constructor; [|exact IH].
  apply no_inner_heading_rstrip, no_inner_heading_lstrip, Hp.
Qed.

Lemma md_blocks_app (fp : string) (a b : list string) :
  md_blocks fp (a ++ b) = (md_blocks fp a ++ md_blocks fp b)%list.
Proof.
  induction a as [|p a IH]; [reflexivity|]. cbn [app md_blocks].
  destruct (is_empty (strip p)); now rewrite IH.
Qed.

Lemma startswith_app (a b : string) : startswith (a ++ b) a = true.
Proof.
  induction a as [|c a IH]; [reflexivity|].
  cbn [append]. rewrite startswith_cons, IH. now rewrite Ascii.eqb_refl.
Qed.

Lemma startswith_nonempty (x y : string) :
  startswith x y = true -> is_empty y = false -> is_empty x = false.
Proof. destruct y; [discriminate|]. destruct x; [discriminate | reflexivity]. Qed.

Lemma rstrip_prefix (t more : string) :
  startswith (rstrip (t ++ more)) (rstrip t) = true.
Proof.
  induction t as [|c t IH]; [reflexivity|]. cbn [append rstrip].
  destruct (isspace c && is_empty (rstrip t)) eqn:Hc; [reflexivity|].
  assert (Hc' : isspace c && is_empty (rstrip (t ++ more)) = false).
  { destruct (isspace c); [|reflexivity]. cbn [andb] in Hc |- *.
    now apply (startswith_nonempty _ _ IH). }
  rewrite Hc', startswith_cons, IH. now rewrite Ascii.eqb_refl.
Qed.

Lemma lstrip_app (a b : string) :
  has_content a = true -> lstrip (a ++ b) = (lstrip a ++ b)%string.
Proof.
  induction a as [|c a IH]; [discriminate|]. cbn [has_content append lstrip].
  destruct (isspace c); [exact IH | reflexivity].
Qed.

(** The trimmed text of a line starts the trimmed text of any segment
    that begins with the line. *)
Lemma strip_prefix (line more : string) :
  startswith (strip (line ++ more)) (strip line) = true.
Proof.
  destruct (has_content line) eqn:Hl.
  - unfold strip. rewrite (lstrip_app _ _ Hl). apply rstrip_prefix.
  - pose proof (strip_empty line) as He. rewrite Hl in He.
    destruct (strip line); [reflexivity | discriminate].
Qed.

(** C10, as the code has it: a [#] that begins a line is consumed by
    the split: the segments before it do not depend on what follows it,
    the text after it is split on its own, the segment that starts
    there begins with the rest of the line, and the chunk made of it,
    when there is one, begins with the trimmed rest of the line; so
    ["# Title"] gives a chunk ["Title"] and ["## Sub"] a chunk
    ["# Sub"].  No chunk text holds a [#] at the start of a line after
    its first. *)
Theorem chunk_md_consumes_heading_marker (w : world)
  (fp before line after : string) :
  read_text w fp = Ok (before ++ String "#" (line ++ after))%string ->
  at_bol (last_char None before) = true ->
  no_newline line = true ->
  exists front piece back,
    Re.split pattern_md (before ++ String "#" (line ++ after))
    = (front ++ piece :: back)%list
    /\ (forall other,
          Re.split pattern_md (before ++ String "#" other)
          = (front ++ scan pattern_md (Some "#"%char) other 0)%list)
    /\ piece :: back = scan pattern_md (Some "#"%char) (line ++ after) 0
    /\ startswith piece line = true
    /\ chunk_md w fp
       = Ok (md_blocks fp front
             ++ (if has_content piece
                 then [mkChunk (strip piece) fp "markdown"] else [])
             ++ md_blocks fp back)%list
    /\ startswith (strip piece) (strip line) = true
    /\ (forall chunks, chunk_md w fp = Ok chunks ->
          Forall (fun ch => no_inner_heading (text ch) = true) chunks)
    /\ (forall w' fp', read_text w' fp' = Ok "# Title" ->
          chunk_md w' fp' = Ok [mkChunk "Title" fp' "markdown"])
    /\ (forall w' fp', read_text w' fp' = Ok "## Sub" ->
          chunk_md w' fp' = Ok [mkChunk "# Sub" fp' "markdown"]).
Proof.
  intros Hr Hb Hl.
  destruct (scan_md_reach before None 0 eq_refl Hb) as (front & _ & Hfront).
  pose proof (Hfront (line ++ after)%string) as Hsplit.
  destruct (scan_md_line line after (Some "#"%char) Hl eq_refl)
    as (more & back & Hline).
  exists front, (line ++ more)%string, back.
  split; [unfold Re.split; now rewrite Hsplit, Hline|].
  split; [exact Hfront|].
  split; [now rewrite Hline|].
  split; [apply startswith_app|].
  split.
  { unfold chunk_md. rewrite Hr. cbn [bind]. unfold Re.split.
    rewrite Hsplit, Hline, md_blocks_app. do 2 f_equal.
    change ((line ++ more)%string :: back)
      with ([(line ++ more)%string] ++ back)%list.
    rewrite md_blocks_app. f_equal. cbn [md_blocks].
    rewrite strip_empty. now destruct (has_content (line ++ more)). }
  split; [apply strip_prefix|].
  split.
  { intros chunks Hc. unfold chunk_md in Hc. rewrite Hr in Hc.
    cbn [bind] in Hc. injection Hc as <-.
    apply md_blocks_no_heading, scan_md_no_heading. }
  split; intros w' fp' Hr'; unfold chunk_md; rewrite Hr'; reflexivity.
Qed.

End MdSplit.

Lemma chunk_md_consumes_heading_marker_witness :
  exists front piece back,
    Re.split AutoChunker.pattern_md
      ("intro" ++ Design.newline ++ "## Sub" ++ Design.newline ++ "body")
    = (front ++ piece :: back)%list
    /\ Py.startswith piece "# Sub" = true.
Proof.
  destruct (chunk_md_consumes_heading_marker
              (Design.sample_world
                 ("intro" ++ Design.newline ++ "## Sub" ++ Design.newline ++ "body")
                 [] [] [])
              "notes.md" ("intro" ++ Design.newline) "# Sub"
              (Design.newline ++ "body") eq_refl eq_refl eq_refl)
    as (front & piece & back & Hs & _ & _ & Hp & _).
  exists front, piece, back. split; [exact Hs | exact Hp].
Defined.

(** C10 fails as stated: the marker of a heading that is indented
    does not begin its line, so the split pattern leaves it alone; the
    blank line before it closes the first chunk, and trimming puts the
    marker, whole, at the start of the text of the second. *)
Lemma indented_heading_keeps_marker :
  AutoChunker.chunk_md
    (Design.sample_world
       ("intro" ++ Design.newline ++ Design.newline ++ "   ## Sub"
        ++ Design.newline ++ "body") [] [] [])
    "notes.md"
  = Py.Ok [AutoChunker.mkChunk "intro" "notes.md" "markdown";
           AutoChunker.mkChunk ("## Sub" ++ Design.newline ++ "body")
                               "notes.md" "markdown"]
  /\ Py.startswith ("## Sub" ++ Design.newline ++ "body") "## Sub" = true.
Proof. split; reflexivity. Qed.

(* ================================================================== *)
(** * More on the chunkers *)

Section ChunkerFacts.
Import Py Re AutoChunker Design Extra.

Lemma py_blocks_facts (fp : string) (splits : list string) :
  Forall (fun ch => source ch = fp
                    /\ strip (text ch) = text ch
                    /\ (type ch = "function" \/ type ch = "class"
                        \/ type ch = "top-level"))
         (py_blocks fp splits).
Proof.
  induction splits as [|b rest IH]; cbn [py_blocks]; [constructor|].
  destruct (is_empty (strip b)); [exact IH|].
  constructor; [|exact IH]. cbn [source text type].
  split; [reflexivity|]. split; [apply strip_idem|].
  unfold py_type. destruct (startswith (strip b) "def "); [now left|].
  destruct (startswith (strip b) "class "); [right; now left | right; now right].
Qed.

Lemma md_blocks_facts (fp : string) (splits : list string) :
  Forall (fun ch => source ch = fp /\ strip (text ch) = text ch
                    /\ type ch = "markdown")
         (md_blocks fp splits).
Proof.
  induction splits as [|b rest IH]; cbn [md_blocks]; [constructor|].
  destruct (is_empty (strip b)); [exact IH|].
  constructor; [|exact IH]. cbn [source text type].
  split; [reflexivity|]. split; [apply strip_idem | reflexivity].
Qed.

Lemma pdf_paragraphs_facts (fp : string) (paragraphs : list string) :
  Forall (fun ch => source ch = fp /\ strip (text ch) = text ch
                    /\ type ch = "pdf")
         (pdf_paragraphs fp paragraphs).
Proof.
  induction paragraphs as [|b rest IH]; cbn [pdf_paragraphs]; [constructor|].
  destruct (30 <? String.length (strip b))%nat; [|exact IH].
  constructor; [|exact IH]. cbn [source text type].
  split; [reflexivity|]. split; [apply strip_idem | reflexivity].
Qed.

Lemma ipynb_cells_facts (fp : string) (cells : list cell) :
  Forall (fun ch => source ch = fp
                    /\ exists c, In c cells /\ text ch = cell_source c
                                 /\ type ch = cell_type c)
         (ipynb_cells fp cells).
Proof.
  induction cells as [|c rest IH]; cbn [ipynb_cells]; constructor.
  - split; [reflexivity|]. exists c. repeat split. now left.
  - eapply Forall_impl; [|exact IH]. intros ch (Hs & c' & Hin & Ht).
    split; [exact Hs|]. exists c'. split; [now right | exact Ht].
Qed.

(** X1: the text of every chunk of a Python, markdown or PDF file is
    already trimmed: stripping it again changes nothing. *)
Theorem chunk_texts_are_trimmed (w : world) (fp : string) (chunks : list Chunk) :
  chunk_py w fp = Ok chunks \/ chunk_md w fp = Ok chunks
  \/ chunk_pdf w fp = Ok chunks ->
  Forall (fun ch => strip (text ch) = text ch) chunks.
Proof.
  intros [H | [H | H]].
  - unfold chunk_py in H. destruct (read_text w fp); [|discriminate].
    injection H as <-. eapply Forall_impl; [|apply py_blocks_facts].
    cbv beta. tauto.
  - unfold chunk_md in H. destruct (read_text w fp); [|discriminate].
    injection H as <-. eapply Forall_impl; [|apply md_blocks_facts].
    cbv beta. tauto.
  - destruct (chunk_pdf_cases _ _ _ H) as [-> | (txt & ->)]; [constructor|].
    eapply Forall_impl; [|apply pdf_paragraphs_facts]. cbv beta. tauto.
Qed.

End ChunkerFacts.

Lemma chunk_texts_are_trimmed_witness :
  Forall (fun ch => Py.strip (AutoChunker.text ch) = AutoChunker.text ch)
         [AutoChunker.mkChunk "Title" "notes.md" "markdown"].
Proof.
  apply (chunk_texts_are_trimmed
           (Design.sample_world "#  Title  " [] [] []) "notes.md").
  right. left. reflexivity.
Defined.

Section Provenance.
Import Py Re AutoChunker Design Extra.

Variable w : world.

Lemma chunk_py_facts (fp : string) (chunks : list Chunk) :
  chunk_py w fp = Ok chunks ->
  Forall (fun ch => source ch = fp
                    /\ (type ch = "function" \/ type ch = "class"
                        \/ type ch = "top-level")) chunks.
Proof.
  unfold chunk_py. destruct (read_text w fp); [|discriminate].
  intros [= <-]. eapply Forall_impl; [|apply py_blocks_facts].
  cbv beta. tauto.
Qed.

Lemma chunk_md_facts (fp : string) (chunks : list Chunk) :
  chunk_md w fp = Ok chunks ->
  Forall (fun ch => source ch = fp /\ type ch = "markdown") chunks.
Proof.
  unfold chunk_md. destruct (read_text w fp); [|discriminate].
  intros [= <-]. eapply Forall_impl; [|apply md_blocks_facts].
  cbv beta. tauto.
Qed.

Lemma chunk_pdf_facts (fp : string) (chunks : list Chunk) :
  chunk_pdf w fp = Ok chunks ->
  Forall (fun ch => source ch = fp /\ type ch = "pdf") chunks.
Proof.
  intros H. destruct (chunk_pdf_cases _ _ _ H) as [-> | (txt & ->)];
    [constructor|].
  eapply Forall_impl; [|apply pdf_paragraphs_facts]. cbv beta. tauto.
Qed.

Lemma chunk_ipynb_facts (fp : string) (chunks : list Chunk) :
  chunk_ipynb w fp = Ok chunks ->
  exists cells,
    nbformat_read w fp = Ok cells
    /\ Forall (fun ch => source ch = fp
                         /\ exists c, In c cells /\ text ch = cell_source c
                                      /\ type ch = cell_type c) chunks.
Proof.
  unfold chunk_ipynb. destruct (nbformat_read w fp) as [cells|]; [|discriminate].
  intros [= <-]. exists cells. split; [reflexivity|]. apply ipynb_cells_facts.
Qed.

(** X2: a folder walk returns when the error line of each failing file
    gets printed; and every chunk a walk returns names as its source
    the path of a walked file with a supported extension, the directory
    joined with the file name, and its type fits that extension: for a
    notebook the chunk has the source and the cell type of one of the
    cells read from that file, for a Python file the type is
    ["function"], ["class"] or ["top-level"], and it is ["markdown"]
    and ["pdf"] for the other two. *)
Theorem walk_chunks_provenance (root_folder : string) :
  (Forall (reported w) (walk_files w root_folder) ->
   exists chunks, auto_chunk_folder w root_folder = Ok chunks)
  /\ forall chunks,
       auto_chunk_folder w root_folder = Ok chunks ->
       forall ch, In ch chunks ->
         exists dirpath filename,
           In (dirpath, filename) (walk_files w root_folder)
           /\ supported filename = true
           /\ source ch = path_join dirpath filename
           /\ ((endswith filename ".ipynb" = true
                /\ exists cells c,
                     nbformat_read w (path_join dirpath filename) = Ok cells
                     /\ In c cells
                     /\ text ch = cell_source c
                     /\ type ch = cell_type c)
               \/ (endswith filename ".py" = true
                   /\ (type ch = "function" \/ type ch = "class"
                       \/ type ch = "top-level"))
               \/ (endswith filename ".md" = true /\ type ch = "markdown")
               \/ (endswith filename ".pdf" = true /\ type ch = "pdf")).
Proof.
  split.
  { intros Hp. rewrite auto_chunk_folder_flat, (visit_all_reported _ _ _ Hp).
    eauto. }
  intros chunks Hwalk ch Hin.
  rewrite auto_chunk_folder_flat in Hwalk. apply visit_all_ok in Hwalk.
  cbn [app] in Hwalk. subst chunks.
  apply in_flat_map in Hin. destruct Hin as ([d f] & Hfile & Hch).
  exists d, f. split; [exact Hfile|].
  unfold contribution, chunker_result, supported in *.
  destruct (endswith f ".ipynb") eqn:H1.
  { destruct (chunk_ipynb w (path_join d f)) as [cs|] eqn:Hc; [|destruct Hch].
    destruct (chunk_ipynb_facts _ _ Hc) as (cells & Hcells & Hf).
    rewrite Forall_forall in Hf.
    destruct (Hf ch Hch) as (Hs & c & Hc1 & Hc2 & Hc3).
    split; [reflexivity|]. split; [exact Hs|]. left.
    split; [reflexivity|]. exists cells, c. auto. }
  destruct (endswith f ".py") eqn:H2.
  { destruct (chunk_py w (path_join d f)) as [cs|] eqn:Hc; [|destruct Hch].
    pose proof (chunk_py_facts _ _ Hc) as Hf. rewrite Forall_forall in Hf.
    destruct (Hf ch Hch) as [Hs Ht].
    split; [reflexivity|]. split; [exact Hs|]. right. left. now split. }
  destruct (endswith f ".md") eqn:H3.
  { destruct (chunk_md w (path_join d f)) as [cs|] eqn:Hc; [|destruct Hch].
    pose proof (chunk_md_facts _ _ Hc) as Hf. rewrite Forall_forall in Hf.
    destruct (Hf ch Hch) as [Hs Ht].
    split; [reflexivity|]. split; [exact Hs|]. right. right. left. now split. }
  destruct (endswith f ".pdf") eqn:H4; [|destruct Hch].
  destruct (chunk_pdf w (path_join d f)) as [cs|] eqn:Hc; [|destruct Hch].
  pose proof (chunk_pdf_facts _ _ Hc) as Hf. rewrite Forall_forall in Hf.
  destruct (Hf ch Hch) as [Hs Ht].
  split; [reflexivity|]. split; [exact Hs|]. right. right. right. now split.
Qed.

Lemma pdf_text_first_raise (pages : list (result string)) (e : exn)
  (acc : string) :
  first_raise pages = Some e -> pdf_text pages acc = Raise e.
Proof.
  revert acc. induction pages as [|[t|e0] rest IH]; intros acc;
    cbn [first_raise pdf_text bind]; [discriminate | apply IH | congruence].
Qed.

Lemma pdf_text_returns (pages : list (result string)) (acc : string) :
  first_raise pages = None -> exists txt, pdf_text pages acc = Ok txt.
Proof.
  revert acc. induction pages as [|[t|e0] rest IH]; intros acc;
    cbn [first_raise pdf_text bind]; [eauto | apply IH | discriminate].
Qed.

(** X3: with PyPDF2 imported, a failure of the reader (opening the
    file raises, or the extraction of a page raises, also after earlier
    pages were extracted) is absorbed when the error line gets printed,
    and [chunk_pdf] then returns no chunk at all; when that [print]
    raises, its exception leaves [chunk_pdf]; without a failure of the
    reader the function returns; and when the import fails, that
    exception is what it raises. *)
Theorem chunk_pdf_absorbs_reader_failures (fp : string) :
  (import_PyPDF2 w = Ok tt ->
   (forall e,
      PdfReader w fp = Raise e
      \/ (exists pages, PdfReader w fp = Ok pages /\ first_raise pages = Some e) ->
      (print w (error_line fp e) = Ok tt -> chunk_pdf w fp = Ok [])
      /\ (forall e', print w (error_line fp e) = Raise e' ->
                     chunk_pdf w fp = Raise e'))
   /\ (forall pages,
         PdfReader w fp = Ok pages -> first_raise pages = None ->
         exists chunks, chunk_pdf w fp = Ok chunks))
  /\ (forall e, import_PyPDF2 w = Raise e -> chunk_pdf w fp = Raise e).
Proof.
  split.
  - intros Hi. split.
    + intros e Hfail.
      assert (H : chunk_pdf w fp
                  = (_ <- print w (error_line fp e) ;; Ok [])).
      { unfold chunk_pdf. rewrite Hi. cbn [bind].
        destruct Hfail as [Hr | (pages & Hr & Hp)]; rewrite Hr;
          cbn [bind try_except]; [reflexivity|].
        now rewrite (pdf_text_first_raise _ _ _ Hp). }
      rewrite H. split; [intros -> | intros e' ->]; reflexivity.
    + intros pages Hr Hp. unfold chunk_pdf. rewrite Hi, Hr. cbn [bind].
      destruct (pdf_text_returns _ EmptyString Hp) as (txt & ->).
      cbn [bind try_except]. eauto.
  - intros e Hi. unfold chunk_pdf. now rewrite Hi.
Qed.

End Provenance.

Lemma walk_chunks_provenance_witness :
  let w := Design.sample_world "" [AutoChunker.mkCell "markdown" "# T"] []
             [("d", ["n.ipynb"])] in
  exists dirpath filename,
    In (dirpath, filename) (Design.walk_files w "d")
    /\ AutoChunker.path_join dirpath filename = "d/n.ipynb"
    /\ exists cells c,
         AutoChunker.nbformat_read w (AutoChunker.path_join dirpath filename)
         = Py.Ok cells
         /\ In c cells /\ AutoChunker.cell_type c = "markdown".
Proof.
  intros w.
  destruct (proj2 (walk_chunks_provenance w "d")
              [AutoChunker.mkChunk "# T" "d/n.ipynb" "markdown"] eq_refl
              (AutoChunker.mkChunk "# T" "d/n.ipynb" "markdown")
              (or_introl eq_refl))
    as (d & f & Hin & _ & Hs & Hk).
  exists d, f. split; [exact Hin|]. split; [now rewrite <- Hs|].
  destruct Hin as [[= <- <-] | []].
  destruct Hk as [(_ & cells & c & Hr & Hc & _ & Ht)
                 | [(He & _) | [(He & _) | (He & _)]]];
    try discriminate He.
  exists cells, c. split; [exact Hr|]. split; [exact Hc|]. now rewrite <- Ht.
Defined.

Lemma chunk_pdf_absorbs_reader_failures_witness :
  AutoChunker.chunk_pdf
    (Design.sample_world "" []
       [Py.Ok Design.sample_page;
        Py.Raise (Py.Exn "PdfReadError" "broken stream")] [])
    "a.pdf"
  = Py.Ok [].
Proof.
  apply (proj1 (proj1 (chunk_pdf_absorbs_reader_failures
                         (Design.sample_world "" []
                            [Py.Ok Design.sample_page;
                             Py.Raise (Py.Exn "PdfReadError" "broken stream")]
                            [])
                         "a.pdf") eq_refl)
         (Py.Exn "PdfReadError" "broken stream")).
  - right. eexists. split; reflexivity.
  - reflexivity.
Defined.

(* ================================================================== *)
(** * More on the splits *)

Section SplitFacts.
Import Py Re AutoChunker Design Extra.

Lemma join_empty_cons (p : string) (ps : list string) :
  join EmptyString (p :: ps) = (p ++ join EmptyString ps)%string.
Proof.
  destruct ps as [|q ps]; cbn [join]; [now rewrite append_nil_r | reflexivity].
Qed.

Lemma lead_definitions_join (prev : option ascii) (s : string) :
  (lead prev s ++ join EmptyString (definitions prev s))%string = s.
Proof.
  revert prev. induction s as [|c s IH]; intros prev; [reflexivity|].
  cbn [lead definitions]. destruct (boundary_at prev (String c s)).
  - rewrite join_empty_cons. cbn [append]. now rewrite IH.
  - cbn [append]. now rewrite IH.
Qed.

(** X4: splitting a Python source at its definition boundaries loses
    nothing: the segments of the split, put end to end, are the file. *)
Theorem py_split_is_lossless (content : string) :
  join EmptyString (Re.split pattern_py content) = content.
Proof.
  unfold Re.split. rewrite scan_py_shape, join_empty_cons.
  apply lead_definitions_join.
Qed.

Lemma try_at_pdf_prev (prev : option ascii) (s : string) :
  try_at pattern_pdf prev s false = try_at pattern_pdf None s false.
Proof. destruct s; reflexivity. Qed.

Lemma blank_at_sound (s : string) :
  blank_at s = true ->
  exists ws r, s = String nl (ws ++ String nl r) /\ has_content ws = false.
Proof.
  unfold blank_at, try_at, pattern_pdf. destruct s as [|c s]; [discriminate|].
  cbn [rmatch andb]. destruct (Ascii.eqb nl c) eqn:Hc; [|discriminate].
  apply Ascii.eqb_eq in Hc. subst c.
  destruct (many isspace (Some nl) s _) as [r|] eqn:Hm; [|discriminate].
  intros _. apply many_blank in Hm.
  - destruct Hm as (ws & -> & Hws). now exists ws, r.
  - intros p [|d s'] x; [discriminate|].
    destruct (Ascii.eqb nl d) eqn:Hd; [|discriminate].
    apply Ascii.eqb_eq in Hd. subst d. now intros [= ->].
Qed.

Lemma many_complete (K : cont) (ws r : string) (prev : option ascii) :
  (forall p x, K p (String nl x) = Some x) ->
  has_content ws = false ->
  exists out, many isspace prev (ws ++ String nl r) K = Some out.
Proof.
  intros HK. revert prev. induction ws as [|c ws IH]; intros prev Hws.
  - cbn [append many]. change (isspace nl) with true. cbv iota.
    destruct (many isspace (Some nl) r K); [eauto|]. rewrite HK. eauto.
  - cbn [has_content] in Hws. apply orb_false_iff in Hws.
    destruct Hws as [Hc Hws]. apply negb_false_iff in Hc.
    cbn [append many]. rewrite Hc.
    destruct (IH (Some c) Hws) as (out & ->). eauto.
Qed.

Lemma blank_at_complete (ws r : string) :
  has_content ws = false -> blank_at (String nl (ws ++ String nl r)) = true.
Proof.
  intros Hws. unfold blank_at, try_at, pattern_pdf. cbn [rmatch andb].
  change (Ascii.eqb nl nl) with true. cbv iota.
  destruct (many_complete
              (fun p s' => rmatch (Chr nl) p s' (fun _ rest => Some rest))
              ws r (Some nl)) as (out & Hout); [reflexivity | exact Hws |].
  cbn [rmatch] in Hout. now rewrite Hout.
Qed.

(** A blank-line run found at the start of a text is found at the start
    of every text that extends it. *)
Lemma blank_at_extend (p t : string) :
  blank_at p = true -> blank_at (p ++ t) = true.
Proof.
  intros H. destruct (blank_at_sound p H) as (ws & r & -> & Hws).
  cbn [append]. rewrite append_assoc. cbn [append].
  now apply blank_at_complete.
Qed.

Lemma has_blank_run_prefix (a t : string) :
  has_blank_run (a ++ t) = false -> has_blank_run a = false.
Proof.
  induction a as [|c a IH]; [reflexivity|]. cbn [append has_blank_run].
  intros H. apply orb_false_iff in H. destruct H as [Hb Hr].
  rewrite (IH Hr), orb_false_r.
  destruct (blank_at (String c a)) eqn:Ha; [|reflexivity].
  apply (blank_at_extend _ t) in Ha. cbn [append] in Ha. congruence.
Qed.

Lemma has_blank_run_tail (c : ascii) (s : string) :
  has_blank_run (String c s) = false -> has_blank_run s = false.
Proof. cbn [has_blank_run]. intros H. now apply orb_false_iff in H. Qed.

Lemma has_blank_run_lstrip (s : string) :
  has_blank_run s = false -> has_blank_run (lstrip s) = false.
Proof.
  induction s as [|c s IH]; [reflexivity|]. intros H. cbn [lstrip].
  destruct (isspace c); [|exact H]. apply IH. now apply has_blank_run_tail in H.
Qed.

Lemma rstrip_is_prefix (s : string) : exists t, s = (rstrip s ++ t)%string.
Proof.
  induction s as [|c s (t & IH)]; [now exists EmptyString|]. cbn [rstrip].
  destruct (isspace c && is_empty (rstrip s)).
  - now exists (String c s).
  - exists t. cbn [append]. now rewrite <- IH.
Qed.

Lemma has_blank_run_strip (s : string) :
  has_blank_run s = false -> has_blank_run (strip s) = false.
Proof.
  intros H. apply has_blank_run_lstrip in H. unfold strip.
  destruct (rstrip_is_prefix (lstrip s)) as (t & Ht). rewrite Ht in H.
  now apply has_blank_run_prefix in H.
Qed.

(** The segment in progress is a prefix of the text still to scan. *)
Lemma scan_head_prefix (r : regex) (prev : option ascii) (s : string) :
  exists t, s = (hd EmptyString (scan r prev s 0) ++ t)%string.
Proof.
  revert prev. induction s as [|c s IH]; intros prev; cbn [scan].
  - destruct (try_at r prev EmptyString false); now exists EmptyString.
  - destruct (IH (Some c)) as (t & Ht).
    destruct (scan_nonempty r (Some c) s 0) as (p & ps & Hp).
    rewrite Hp in Ht. cbn [hd] in Ht.
    assert (Hc : exists t', String c s
                   = (hd EmptyString (cons_hd c (scan r (Some c) s 0)) ++ t')%string).
    { rewrite Hp. cbn [cons_hd hd append]. exists t. now rewrite <- Ht. }
    destruct (try_at r prev (String c s) false) as [[|m]|];
      [|now exists (String c s) | exact Hc].
    now exists (String c s).
Qed.

Section BlankFree.

(** A pattern whose matches are never empty and which matches wherever
    a blank-line run starts. *)
Variable r : regex.
Hypothesis r_advances :
  forall prev s, try_at r prev s false <> Some 0.
Hypothesis r_takes_blank_runs :
  forall prev s, try_at r prev s false = None -> blank_at s = false.

Lemma scan_blank_free (s : string) (prev : option ascii) (skip : nat) :
  Forall (fun p => has_blank_run p = false) (scan r prev s skip).
Proof.
  revert prev skip. induction s as [|c s IH]; intros prev skip; cbn [scan].
  - destruct (try_at r prev EmptyString false); repeat constructor.
  - destruct skip as [|k]; [|apply IH].
    destruct (try_at r prev (String c s) false) as [[|m]|] eqn:Ht.
    + now apply r_advances in Ht.
    + constructor; [reflexivity | apply IH].
    + destruct (scan_nonempty r (Some c) s 0) as (p & ps & Hp).
      destruct (scan_head_prefix r (Some c) s) as (t & Hpre).
      pose proof (IH (Some c) 0) as Hall. rewrite Hp in Hall, Hpre |- *.
      cbn [cons_hd hd] in Hpre |- *.
      apply Forall_cons_iff in Hall. destruct Hall as [Hp0 Hps].
      constructor; [|exact Hps]. cbn [has_blank_run]. rewrite Hp0, orb_false_r.
      destruct (blank_at (String c p)) eqn:Hb; [|reflexivity].
      apply (blank_at_extend _ t) in Hb. cbn [append] in Hb.
      rewrite <- Hpre in Hb. apply r_takes_blank_runs in Ht. congruence.
Qed.

End BlankFree.

Lemma try_at_pdf_some (prev : option ascii) (s : string) (m : nat) :
  try_at pattern_pdf prev s false = Some m -> m <> 0.
Proof.
  unfold try_at.
  destruct (rmatch pattern_pdf prev s _) as [rest|] eqn:Hr; [|discriminate].
  intros [= <-].
  assert (Hlt : String.length rest < String.length s); [|lia].
  unfold pattern_pdf in Hr. cbn [rmatch andb] in Hr.
  destruct s as [|c s]; [discriminate|].
  destruct (Ascii.eqb nl c); [|discriminate].
  apply many_blank in Hr.
  - destruct Hr as (ws & -> & _).
    rewrite length_String, length_append, length_String. lia.
  - intros p [|d s'] x; [discriminate|].
    destruct (Ascii.eqb nl d) eqn:Hd; [|discriminate].
    apply Ascii.eqb_eq in Hd. subst d. now intros [= ->].
Qed.

Lemma pdf_split_blank_free (s : string) :
  Forall (fun p => has_blank_run p = false) (Re.split pattern_pdf s).
Proof.
  apply scan_blank_free.
  - intros prev x H. now apply try_at_pdf_some in H.
  - intros prev x H. unfold blank_at. now rewrite <- (try_at_pdf_prev prev), H.
Qed.

Lemma try_at_md_none_pdf (prev : option ascii) (s : string) :
  try_at pattern_md prev s false = None -> blank_at s = false.
Proof.
  unfold blank_at, try_at, pattern_md, pattern_pdf. cbn [rmatch andb].
  destruct s as [|c s]; [reflexivity|].
  destruct (Ascii.eqb nl c); [|reflexivity].
  destruct (many isspace (Some c) s _); [discriminate | reflexivity].
Qed.

Lemma md_split_blank_free (s : string) :
  Forall (fun p => has_blank_run p = false) (Re.split pattern_md s).
Proof.
  apply scan_blank_free.
  - intros prev [|c x] H.
    + unfold try_at, pattern_md in H. cbn [rmatch] in H.
      destruct (at_bol prev); discriminate.
    + destruct (try_at_md_some _ _ _ _ H) as (m' & Hm & _). discriminate.
  - apply try_at_md_none_pdf.
Qed.

Lemma md_blocks_blank_free (fp : string) (splits : list string) :
  Forall (fun p => has_blank_run p = false) splits ->
  Forall (fun ch => has_blank_run (text ch) = false) (md_blocks fp splits).
Proof.
  induction 1 as [|p ps Hp _ IH]; cbn [md_blocks]; [constructor|].
  destruct (is_empty (strip p)); [exact IH|]. constructor; [|exact IH].
  now apply has_blank_run_strip.
Qed.

Lemma pdf_paragraphs_blank_free (fp : string) (paragraphs : list string) :
  Forall (fun p => has_blank_run p = false) paragraphs ->
  Forall (fun ch => has_blank_run (text ch) = false)
         (pdf_paragraphs fp paragraphs).
Proof.
  induction 1 as [|p ps Hp _ IH]; cbn [pdf_paragraphs]; [constructor|].
  destruct (30 <? String.length (strip p))%nat; [|exact IH].
  constructor; [|exact IH]. now apply has_blank_run_strip.
Qed.

(** X5: no chunk of a markdown or PDF file holds a paragraph break: the
    pattern [\n\s*\n] is found nowhere in its text. *)
Theorem chunks_hold_no_blank_run (w : world) (fp : string) (chunks : list Chunk) :
  chunk_md w fp = Ok chunks \/ chunk_pdf w fp = Ok chunks ->
  Forall (fun ch => has_blank_run (text ch) = false) chunks.
Proof.
  intros [H | H].
  - unfold chunk_md in H. destruct (read_text w fp); [|discriminate].
    injection H as <-. apply md_blocks_blank_free, md_split_blank_free.
  - destruct (chunk_pdf_cases _ _ _ H) as [-> | (txt & ->)]; [constructor|].
    apply pdf_paragraphs_blank_free, pdf_split_blank_free.
Qed.

(** A text without blank-line run is its own and only paragraph. *)
Lemma pdf_split_single (s : string) (prev : option ascii) :
  has_blank_run s = false -> scan pattern_pdf prev s 0 = [s].
Proof.
  revert prev. induction s as [|c s IH]; intros prev H; [reflexivity|].
  cbn [has_blank_run] in H. apply orb_false_iff in H. destruct H as [Hb Hr].
  cbn [scan]. rewrite try_at_pdf_prev.
  unfold blank_at in Hb.
  destruct (try_at pattern_pdf None (String c s) false); [discriminate|].
  now rewrite (IH (Some c) Hr).
Qed.

(** X6: chunking the text of a PDF chunk again gives back that chunk
    and nothing else. *)
Theorem chunk_pdf_is_idempotent (w : world) (fp : string)
  (chunks : list Chunk) (ch : Chunk) :
  chunk_pdf w fp = Ok chunks -> In ch chunks ->
  pdf_paragraphs fp (Re.split pattern_pdf (text ch)) = [ch].
Proof.
  intros H Hin.
  destruct (chunk_pdf_cases _ _ _ H) as [-> | (txt & ->)]; [destruct Hin|].
  pose proof (pdf_paragraphs_blank_free fp _ (pdf_split_blank_free txt)) as Hb.
  rewrite Forall_forall in Hb. specialize (Hb ch Hin).
  destruct (pdf_paragraphs_shape _ _ _ Hin) as (Hch & _ & Hlen).
  pose proof (pdf_paragraphs_facts fp (Re.split pattern_pdf txt)) as Hf.
  rewrite Forall_forall in Hf. destruct (Hf ch Hin) as (_ & Hstrip & _).
  unfold Re.split. rewrite (pdf_split_single _ None Hb).
  cbn [pdf_paragraphs]. rewrite Hstrip.
  apply Nat.ltb_lt in Hlen. rewrite Hlen. now rewrite <- Hch.
Qed.

End SplitFacts.

Lemma chunks_hold_no_blank_run_witness :
  Forall (fun ch => Extra.has_blank_run (AutoChunker.text ch) = false)
         [AutoChunker.mkChunk "A paragraph that is long enough to be kept."
                              "a.pdf" "pdf"].
Proof.
  apply (chunks_hold_no_blank_run
           (Design.sample_world "" [] [Py.Ok Design.sample_page] []) "a.pdf").
  right. reflexivity.
Defined.

Lemma chunk_pdf_is_idempotent_witness :
  AutoChunker.pdf_paragraphs "a.pdf"
    (Re.split AutoChunker.pattern_pdf
       "A paragraph that is long enough to be kept.")
  = [AutoChunker.mkChunk "A paragraph that is long enough to be kept."
                         "a.pdf" "pdf"].
Proof.
  apply (chunk_pdf_is_idempotent
           (Design.sample_world "" [] [Py.Ok Design.sample_page] []) "a.pdf"
           [AutoChunker.mkChunk "A paragraph that is long enough to be kept."
                                "a.pdf" "pdf"]
           (AutoChunker.mkChunk "A paragraph that is long enough to be kept."
                                "a.pdf" "pdf")).
  - reflexivity.
  - left. reflexivity.
Defined.

(* ================================================================== *)
(** * More on the chunk log *)

Section LogFacts.
Import Py Json ChunkLog Design Extra.

Lemma loads_dumps_chunk_blank (c : AutoChunker.Chunk) (tail : string) :
  skip_ws tail = EmptyString ->
  loads (dumps (as_dict c) ++ tail) = Ok (as_dict c).
Proof.
  intros Htail. rewrite dumps_chunk. unfold loads.
  match goal with
  | |- context [skip_ws (String "{" ?x ++ ?y)] =>
      change (skip_ws (String "{" x ++ y)) with (String "{" (x ++ y))
  end.
  cbv beta iota.
  repeat (progress (rewrite ?append_assoc; cbn [append])).
  rewrite parse_object_three, Htail. reflexivity.
Qed.

Lemma universal_newlines_cr (a rest : string) :
  one_line a = true -> starts_with_nl rest = false ->
  universal_newlines (a ++ String cr rest)
  = (a ++ String nl (universal_newlines rest))%string.
Proof.
  induction a as [|c a IH]; intros H Hr.
  - cbn [append universal_newlines]. change (Ascii.eqb cr cr) with true.
    cbv iota. destruct rest as [|d rest]; [reflexivity|].
    cbn [starts_with_nl] in Hr. now rewrite Hr.
  - cbn [one_line] in H. apply andb_prop in H. destruct H as [H Ha].
    apply andb_prop in H. destruct H as [_ Hcr].
    apply negb_true_iff in Hcr. cbn [append universal_newlines].
    rewrite Hcr. now rewrite IH.
Qed.

Lemma universal_newlines_crlf (a rest : string) :
  one_line a = true ->
  universal_newlines (a ++ String cr (String nl rest))
  = (a ++ String nl (universal_newlines rest))%string.
Proof.
  induction a as [|c a IH]; intros H; [reflexivity|].
  cbn [one_line] in H. apply andb_prop in H. destruct H as [H Ha].
  apply andb_prop in H. destruct H as [_ Hcr].
  apply negb_true_iff in Hcr. cbn [append universal_newlines].
  rewrite Hcr. now rewrite IH.
Qed.

Lemma universal_newlines_clean (a : string) :
  one_line a = true -> universal_newlines a = a.
Proof.
  induction a as [|c a IH]; intros H; [reflexivity|].
  cbn [one_line] in H. apply andb_prop in H. destruct H as [H Ha].
  apply andb_prop in H. destruct H as [_ Hcr].
  apply negb_true_iff in Hcr. cbn [universal_newlines].
  rewrite Hcr. now rewrite IH.
Qed.

Lemma lines_keepends_last (a : string) :
  one_line a = true -> a <> EmptyString -> lines_keepends a = [a].
Proof.
  induction a as [|c a IH]; intros H Hne; [congruence|].
  cbn [one_line] in H. apply andb_prop in H. destruct H as [H Ha].
  apply andb_prop in H. destruct H as [Hnl _].
  apply negb_true_iff in Hnl. cbn [lines_keepends]. rewrite Hnl.
  destruct a as [|d a]; [reflexivity|].
  rewrite IH; [reflexivity | exact Ha | discriminate].
Qed.

Lemma log_text_with_start (eol : string) (cs : list AutoChunker.Chunk) :
  starts_with_nl (log_text_with eol (map as_dict cs)) = false.
Proof.
  destruct cs as [|c cs]; [reflexivity|]. cbn [map log_text_with].
  rewrite dumps_chunk. reflexivity.
Qed.

Lemma read_lines_step (line : string) (c : AutoChunker.Chunk)
  (rest : list string) (ds : list dict) :
  line = (dumps (as_dict c) ++ String nl EmptyString)%string ->
  mapM loads rest = Ok ds ->
  mapM loads (line :: rest) = Ok (as_dict c :: ds).
Proof.
  intros -> Hrest. cbn [mapM]. rewrite loads_dumps_chunk. cbn [bind].
  now rewrite Hrest.
Qed.

(** X7: the log is read back the same whichever of the three line ends
    closes its records: [\n], [\r\n] as written on Windows, or [\r]. *)
Theorem read_log_any_line_end (eol : string) (cs : list AutoChunker.Chunk) :
  is_line_end eol ->
  read_log (log_text_with eol (map as_dict cs)) = Ok (map as_dict cs).
Proof.
  intros Heol. unfold read_log.
  induction cs as [|c rest IH]; [reflexivity|].
  cbn [map log_text_with].
  assert (Hstep :
    universal_newlines (dumps (as_dict c) ++ eol
                        ++ log_text_with eol (map as_dict rest))
    = (dumps (as_dict c)
       ++ String nl (universal_newlines (log_text_with eol (map as_dict rest))))%string).
  { destruct Heol as [-> | [-> | ->]]; cbn [append].
    - apply universal_newlines_line, dumps_chunk_one_line.
    - apply universal_newlines_crlf, dumps_chunk_one_line.
    - apply universal_newlines_cr;
        [apply dumps_chunk_one_line | apply log_text_with_start]. }
  rewrite Hstep, lines_keepends_line by apply dumps_chunk_one_line.
  now apply read_lines_step.
Qed.

(** X8: a last record without line end is read like the others. *)
Theorem read_log_unterminated_last_line
  (cs : list AutoChunker.Chunk) (c : AutoChunker.Chunk) :
  read_log (log_text (map as_dict cs) ++ dumps (as_dict c))
  = Ok (map as_dict (cs ++ [c])).
Proof.
  unfold read_log. induction cs as [|c0 rest IH].
  - cbn [map log_text append app].
    rewrite universal_newlines_clean by apply dumps_chunk_one_line.
    rewrite lines_keepends_last;
      [| apply dumps_chunk_one_line | rewrite dumps_chunk; discriminate].
    cbn [mapM].
    rewrite <- (append_nil_r (dumps (as_dict c))) at 1.
    rewrite loads_dumps_chunk_blank by reflexivity. reflexivity.
  - cbn [map log_text app]. rewrite append_assoc. cbn [append].
    rewrite universal_newlines_line by apply dumps_chunk_one_line.
    rewrite lines_keepends_line by apply dumps_chunk_one_line.
    now apply read_lines_step.
Qed.

(** X9: an empty line in the log, wherever it stands after well-formed
    records, makes the reader raise instead of skipping the line. *)
Theorem read_log_rejects_blank_line
  (cs : list AutoChunker.Chunk) (rest : string) :
  read_log (log_text (map as_dict cs) ++ String nl rest)
  = Raise (JSONDecodeError "Expecting value").
Proof.
  unfold read_log. induction cs as [|c0 cs IH].
  - cbn [map log_text append universal_newlines].
    change (Ascii.eqb nl cr) with false. cbv iota.
    cbn [lines_keepends]. change (Ascii.eqb nl nl) with true. cbv iota.
    reflexivity.
  - cbn [map log_text]. rewrite append_assoc. cbn [append].
    rewrite universal_newlines_line by apply dumps_chunk_one_line.
    rewrite lines_keepends_line by apply dumps_chunk_one_line.
    cbn [mapM]. rewrite loads_dumps_chunk. cbn [bind]. now rewrite IH.
Qed.

End LogFacts.

Lemma read_log_any_line_end_witness :
  ChunkLog.read_log
    (Extra.log_text_with (String Py.cr (String Py.nl EmptyString))
       (map ChunkLog.as_dict
            [AutoChunker.mkChunk "x = 1" "a.py" "top-level"]))
  = Py.Ok (map ChunkLog.as_dict
               [AutoChunker.mkChunk "x = 1" "a.py" "top-level"]).
Proof.
  apply (read_log_any_line_end (String Py.cr (String Py.nl EmptyString))).
  right. left. reflexivity.
Defined.

(* ================================================================== *)
(** * More on the indexer *)

Section BatchFacts.
Import Py.

Variable A : Type.

Lemma range3_offsets (n batch_size i : nat) :
  1 <= batch_size ->
  In i (range3 0 n batch_size) <->
  exists k, i = k * batch_size /\ k * batch_size < n.
Proof.
  intros Hb. unfold range3. rewrite in_map_iff, Nat.sub_0_r.
  pose proof (Nat.div_mod (n + (batch_size - 1)) batch_size) as Hd.
  pose proof (Nat.mod_upper_bound (n + (batch_size - 1)) batch_size) as Hm.
  split.
  - intros (k & <- & Hk). apply in_seq in Hk. exists k. split; [lia | nia].
  - intros (k & -> & Hk). exists k. split; [lia|]. apply in_seq. nia.
Qed.

(** The loop cuts the chunk list into batches at the multiples of the
    batch size below its length, and no batch is empty or larger than
    the batch size. *)
Lemma batch_bounds (l : list A) (batch_size i : nat) :
  1 <= batch_size ->
  In i (range3 0 (List.length l) batch_size) ->
  (exists k, i = k * batch_size)
  /\ i < List.length l
  /\ 1 <= List.length (slice l i (i + batch_size)) <= batch_size
  /\ List.length (slice l i (i + batch_size))
     = Nat.min batch_size (List.length l - i).
Proof.
  intros Hb Hi. apply (range3_offsets _ _ _ Hb) in Hi.
  destruct Hi as (k & -> & Hk). split; [now exists k|]. split; [exact Hk|].
  unfold slice. rewrite length_firstn, length_skipn. lia.
Qed.

Lemma slice_covers (l : list A) (batch_size : nat) (x : A) :
  1 <= batch_size -> In x l ->
  exists i, In i (range3 0 (List.length l) batch_size)
            /\ In x (slice l i (i + batch_size)).
Proof.
  intros Hb Hx. apply In_nth_error in Hx. destruct Hx as (j & Hj).
  assert (Hlt : j < List.length l) by (apply nth_error_Some; congruence).
  pose proof (Nat.div_mod j batch_size) as Hd.
  pose proof (Nat.mod_upper_bound j batch_size) as Hm.
  exists (j / batch_size * batch_size). split.
  - apply (range3_offsets _ _ _ Hb). exists (j / batch_size). split; [reflexivity | nia].
  - apply (nth_error_In _ (j mod batch_size)). unfold slice.
    rewrite nth_error_firstn.
    replace (j mod batch_size <? j / batch_size * batch_size + batch_size
                                 - j / batch_size * batch_size)%nat with true
      by (symmetry; apply Nat.ltb_lt; lia).
    rewrite nth_error_skipn. rewrite <- Hj. f_equal. lia.
Qed.

End BatchFacts.

Section MissingFields.
Import Py Json BuildIndex Design Extra.

Variable E : Type.
Variable encode : list string -> list E.
Hypothesis encode_length :
  forall docs, List.length (encode docs) = List.length docs.

Lemma mapM_cases {X Y} (f : X -> result Y) (l : list X) :
  (exists ys, mapM f l = Ok ys /\ List.length ys = List.length l
              /\ forall x, In x l -> exists y, f x = Ok y)
  \/ (exists x e, In x l /\ f x = Raise e /\ mapM f l = Raise e).
Proof.
  induction l as [|x l IH]; cbn [mapM bind].
  - left. exists []. repeat split. intros x [].
  - destruct (f x) as [y|e] eqn:Hx; cbn [bind].
    + destruct IH as [(ys & -> & Hlen & Hall) | (x' & e & Hin & Hf & ->)].
      * left. exists (y :: ys). cbn [bind List.length]. split; [reflexivity|].
        split; [now rewrite Hlen|]. intros x' [<- | Hin]; eauto.
      * right. exists x', e. cbn [bind]. repeat split; [now right | exact Hf].
    + right. exists x, e. repeat split; [now left | exact Hx].
Qed.

Lemma getitem_raises (d : dict) (k : string) (e : exn) :
  getitem d k = Raise e -> e = Exn "KeyError" k /\ dict_find d k = None.
Proof.
  unfold getitem. destruct (dict_find d k); [discriminate|].
  now intros [= <-].
Qed.

Lemma metadata_of_raises (d : dict) (e : exn) :
  metadata_of d = Raise e ->
  e = Exn "KeyError" "source" \/ e = Exn "KeyError" "type".
Proof.
  unfold metadata_of.
  destruct (getitem d "source") as [src|e1] eqn:H1; cbn [bind].
  - destruct (getitem d "type") as [typ|e2] eqn:H2; cbn [bind]; [discriminate|].
    intros [= <-]. right. now apply getitem_raises in H2.
  - intros [= <-]. left. now apply getitem_raises in H1.
Qed.

Lemma metadata_of_incomplete (d : dict) :
  has_fields d = false -> is_some (dict_find d "text") = true ->
  exists e, metadata_of d = Raise e.
Proof.
  unfold has_fields, metadata_of, getitem. intros H Ht. rewrite Ht in H.
  destruct (dict_find d "source"); cbn [bind]; [|eauto].
  destruct (dict_find d "type"); cbn [bind]; [discriminate | eauto].
Qed.

(** A batch is indexed, or a record in it lacks a field. *)
Lemma index_batch_cases (chunks : list dict) (batch_size : nat)
  (col : collection E) (i : nat) :
  (exists col', index_batch E encode chunks batch_size col i = Ok col'
                /\ forall d, In d (slice chunks i (i + batch_size)) ->
                             has_fields d = true)
  \/ (exists e, field_error e
                /\ index_batch E encode chunks batch_size col i = Raise e).
Proof.
  unfold index_batch.
  destruct (mapM_cases (fun chunk => getitem chunk "text")
                       (slice chunks i (i + batch_size)))
    as [(docs & -> & Hdocs & Htext) | (x & e & _ & Hx & ->)]; cbn [bind].
  2:{ right. exists e. split; [|reflexivity].
      left. now apply getitem_raises in Hx. }
  destruct (mapM_cases metadata_of (slice chunks i (i + batch_size)))
    as [(ms & -> & Hms & Hmeta) | (x & e & _ & Hx & ->)]; cbn [bind].
  2:{ right. exists e. split; [|reflexivity].
      right. now apply metadata_of_raises in Hx. }
  left. unfold add.
  rewrite encode_length, Hdocs, Hms, length_map, length_seq, Nat.eqb_refl.
  eexists. split; [reflexivity|]. intros d Hd.
  destruct (has_fields d) eqn:Hf; [reflexivity|].
  destruct (Htext d Hd) as (t & Ht).
  assert (Hsome : is_some (dict_find d "text") = true).
  { unfold getitem in Ht. now destruct (dict_find d "text"). }
  destruct (metadata_of_incomplete d Hf Hsome) as (e & He).
  destruct (Hmeta d Hd) as (m & Hm). congruence.
Qed.

Lemma index_loop_incomplete (chunks : list dict) (batch_size : nat)
  (offsets : list nat) (col : collection E) (i : nat) (d : dict) :
  In i offsets -> In d (slice chunks i (i + batch_size)) ->
  has_fields d = false ->
  exists e, field_error e
            /\ index_loop E encode chunks batch_size offsets col = Raise e.
Proof.
  intros Hi Hd Hf. revert col.
  induction offsets as [|i0 rest IH]; intros col; [destruct Hi|].
  cbn [index_loop].
  destruct (index_batch_cases chunks batch_size col i0)
    as [(col' & -> & Hall) | (e & He & ->)]; cbn [bind]; [|eauto].
  destruct Hi as [-> | Hi]; [|now apply IH].
  rewrite (Hall d Hd) in Hf. discriminate.
Qed.

(** X11: one record that lacks [text], [source] or [type] anywhere in
    the log makes the whole indexing run end in the [KeyError] of a
    missing field: the run never completes around it. *)
Theorem build_index_needs_all_fields (chunks : list dict) (d : dict)
  (batch_size : nat) (col : collection E) :
  1 <= batch_size -> In d chunks -> has_fields d = false ->
  exists e, field_error e
            /\ build_index E encode chunks batch_size col = Raise e.
Proof.
  intros Hb Hd Hf. unfold build_index.
  destruct (batch_size =? 0)%nat eqn:Hz; [apply Nat.eqb_eq in Hz; lia|].
  destruct (slice_covers _ chunks batch_size d Hb Hd) as (i & Hi & Hin).
  now apply (index_loop_incomplete _ _ _ _ i d).
Qed.

End MissingFields.

Lemma build_index_needs_all_fields_witness :
  exists e,
    Extra.field_error e
    /\ BuildIndex.build_index nat (map String.length)
         [ChunkLog.as_dict (AutoChunker.mkChunk "x = 1" "a.py" "top-level");
          [("text", "y = 2"); ("source", "b.py")]] 128 []
       = Py.Raise e.
Proof.
  apply (build_index_needs_all_fields nat (map String.length)
           (fun docs => length_map String.length docs)
           _ [("text", "y = 2"); ("source", "b.py")] 128 []).
  - lia.
  - right. left. reflexivity.
  - reflexivity.
Defined.

Section EncoderCalls.
Import Py Json BuildIndex Design Extra.

Variable E : Type.

Lemma index_batch_appends (encode : list string -> list E)
  (chunks : list dict) (batch_size : nat) (col col' : collection E) (i : nat) :
  index_batch E encode chunks batch_size col i = Ok col' ->
  exists new,
    col' = (col ++ new)%list
    /\ List.length new = List.length (slice chunks i (i + batch_size))
    /\ map document new
       = map (fun chunk => get_default chunk "text" EmptyString)
             (slice chunks i (i + batch_size)).
Proof.
  unfold index_batch.
  destruct (mapM_cases (fun chunk => getitem chunk "text")
              (slice chunks i (i + batch_size)))
    as [(docs & Hd & Hlen & Hall) | (x & e & _ & _ & Hd)];
    rewrite Hd; cbn [bind]; [|discriminate].
  destruct (mapM_cases metadata_of (slice chunks i (i + batch_size)))
    as [(metas & Hm & Hlenm & _) | (x & e & _ & _ & Hm)];
    rewrite Hm; cbn [bind]; [|discriminate].
  unfold add. rewrite length_map, length_seq.
  destruct (List.length docs =? _)%nat eqn:H1; [|discriminate].
  destruct (List.length (encode docs) =? _)%nat eqn:H2; [|discriminate].
  destruct (List.length metas =? _)%nat eqn:H3; [|discriminate].
  cbn [andb]. intros [= <-]. eexists. split; [reflexivity|].
  apply Nat.eqb_eq in H2.
  assert (Hdocs : docs = map (fun chunk => get_default chunk "text" EmptyString)
                             (slice chunks i (i + batch_size))).
  { clear -Hd. revert docs Hd.
    induction (slice chunks i (i + batch_size)) as [|c l IH]; intros docs;
      cbn [mapM bind map]; [now intros [= <-]|].
    unfold getitem at 1, get_default at 1.
    destruct (dict_find c "text"); cbn [bind]; [|discriminate].
    destruct (mapM _ l) as [ys|]; cbn [bind]; [|discriminate].
    intros [= <-]. f_equal. now apply IH. }
  assert (Hgen : forall (ds : list string) (es : list E) (ms : list dict)
                   (ids : list string),
             List.length es = List.length ds ->
             List.length ms = List.length ds ->
             List.length ids = List.length ds ->
             List.length (entries E ds es ms ids) = List.length ds
             /\ map document (entries E ds es ms ids) = ds).
  { induction ds as [|d ds IH]; intros [|e0 es] [|m ms] [|i0 ids];
      cbn [List.length entries map document]; try discriminate; auto.
    intros [= He] [= Hms] [= Hi]. destruct (IH es ms ids He Hms Hi) as [-> ->].
    auto. }
  destruct (Hgen docs (encode docs) metas
              (map (chunk_id i) (seq 0 (List.length (slice chunks i (i + batch_size))))))
    as [Hl Hdoc].
  - lia.
  - lia.
  - rewrite length_map, length_seq. lia.
  - rewrite Hl, Hdoc. split; [exact Hlen | exact Hdocs].
Qed.

(** X10: the encoder and [collection.add] get neither an empty batch
    nor one above the batch size.  For every chunk list, batch size
    from 1 on and starting collection, two encoders that agree on the
    lists of 1 to [batch_size] texts give the same run of
    [build_index], records or exception: no other list is ever
    encoded.  And each pass of its loop that returns has appended
    between 1 and [batch_size] records, those of the chunks of its
    batch. *)
Theorem encoder_gets_bounded_batches
  (encode encode' : list string -> list E)
  (chunks : list dict) (batch_size : nat) (col : collection E) :
  1 <= batch_size ->
  (forall docs, 1 <= List.length docs <= batch_size ->
                encode docs = encode' docs) ->
  build_index E encode chunks batch_size col
  = build_index E encode' chunks batch_size col
  /\ (forall i before after c c',
        range3 0 (List.length chunks) batch_size = (before ++ i :: after)%list ->
        index_loop E encode chunks batch_size before col = Ok c ->
        index_batch E encode chunks batch_size c i = Ok c' ->
        exists new,
          c' = (c ++ new)%list
          /\ 1 <= List.length new <= batch_size
          /\ map document new
             = map (fun chunk => get_default chunk "text" EmptyString)
                   (slice chunks i (i + batch_size))).
Proof.
  intros Hb Hagree. split.
  - unfold build_index. destruct (batch_size =? 0)%nat; [reflexivity|].
    assert (Hall : Forall (fun i => In i (range3 0 (List.length chunks) batch_size))
                          (range3 0 (List.length chunks) batch_size))
      by (apply Forall_forall; auto).
    revert col Hall.
    generalize (range3 0 (List.length chunks) batch_size) at 2 3 4 as offsets.
    induction offsets as [|i rest IH]; intros col Hall; [reflexivity|].
    rewrite Forall_cons_iff in Hall. destruct Hall as [Hi Hrest].
    cbn [index_loop].
    assert (Hstep : index_batch E encode chunks batch_size col i
                    = index_batch E encode' chunks batch_size col i).
    { unfold index_batch.
      destruct (mapM_cases (fun chunk => getitem chunk "text")
                  (slice chunks i (i + batch_size)))
        as [(docs & Hd & Hlen & _) | (x & e & _ & _ & Hd)];
        rewrite Hd; cbn [bind]; [|reflexivity].
      destruct (batch_bounds _ chunks batch_size i Hb Hi) as (_ & _ & Hlb & _).
      rewrite (Hagree docs) by lia. reflexivity. }
    rewrite Hstep.
    destruct (index_batch E encode' chunks batch_size col i); cbn [bind];
      [apply IH, Hrest | reflexivity].
  - intros i before after c c' Hr _ Hstep.
    destruct (index_batch_appends _ _ _ _ _ _ Hstep) as (new & -> & Hlen & Hdoc).
    exists new. split; [reflexivity|]. split; [|exact Hdoc].
    assert (Hi : In i (range3 0 (List.length chunks) batch_size)).
    { rewrite Hr. apply in_or_app. right. now left. }
    destruct (batch_bounds _ chunks batch_size i Hb Hi) as (_ & _ & Hlb & _).
    lia.
Qed.

End EncoderCalls.

Lemma encoder_gets_bounded_batches_witness :
  BuildIndex.build_index nat (map String.length)
    (map ChunkLog.as_dict (Design.two_results "D1" "D2")) 1 []
  = BuildIndex.build_index nat
      (fun docs => match docs with [] => [7] | _ => map String.length docs end)
      (map ChunkLog.as_dict (Design.two_results "D1" "D2")) 1 [].
Proof.
  apply (encoder_gets_bounded_batches nat (map String.length)
           (fun docs => match docs with [] => [7] | _ => map String.length docs end)
           (map ChunkLog.as_dict (Design.two_results "D1" "D2")) 1 []).
  - lia.
  - intros [|d ds] H; [simpl in H; lia | reflexivity].
Defined.

(* ================================================================== *)
(** * The two models of the log agree on 8-bit text *)

Section Agreement.
Import Py Design.

Lemma char_eqb (c d : ascii) :
  (Unicode.char c =? Unicode.char d)%N = Ascii.eqb c d.
Proof.
  destruct (Ascii.eqb_spec c d) as [->|Hne]; [apply N.eqb_refl|].
  apply N.eqb_neq. intros H. apply Hne.
  rewrite <- (ascii_N_embedding c), <- (ascii_N_embedding d).
  unfold Unicode.char in H. now rewrite H.
Qed.

Lemma char_control (c : ascii) :
  (Unicode.char c <? 32)%N = (nat_of_ascii c <? 32)%nat.
Proof. each_char c; reflexivity. Qed.

Lemma hexval_char (h : ascii) :
  UnicodeJson.hexval (Unicode.char h) = option_map N.of_nat (Json.hexval h).
Proof. each_char h; reflexivity. Qed.

Lemma char_of_nat (n : nat) :
  n < 256 -> Unicode.char (ascii_of_nat n) = N.of_nat n.
Proof.
  intros H. unfold Unicode.char.
  replace (ascii_of_nat n) with (ascii_of_N (N.of_nat n))
    by (destruct n; reflexivity).
  apply N_ascii_embedding. lia.
Qed.

Lemma decode_u_char (h1 h2 h3 h4 ch : ascii) :
  Json.decode_u h1 h2 h3 h4 = Some ch ->
  UnicodeJson.decode_u (Unicode.char h1) (Unicode.char h2)
                       (Unicode.char h3) (Unicode.char h4)
  = Some (Unicode.char ch)
  /\ UnicodeJson.is_high (Unicode.char ch) = false.
Proof.
  unfold Json.decode_u, UnicodeJson.decode_u. rewrite !hexval_char.
  destruct (Json.hexval h1) as [a|]; [|discriminate].
  destruct (Json.hexval h2) as [b|]; [|discriminate].
  destruct (Json.hexval h3) as [c|]; [|discriminate].
  destruct (Json.hexval h4) as [d|]; [|discriminate].
  cbn [option_map].
  destruct (Nat.ltb_spec (((a * 16 + b) * 16 + c) * 16 + d) 256) as [Hlt|];
    [|discriminate].
  intros [= <-]. rewrite (char_of_nat _ Hlt). split.
  - f_equal. lia.
  - unfold UnicodeJson.is_high. apply andb_false_iff. left.
    apply N.leb_gt. lia.
Qed.

Lemma unescape_char_char (e ch : ascii) :
  Json.unescape_char e = Some ch ->
  UnicodeJson.unescape_char (Unicode.char e) = Some (Unicode.char ch).
Proof. each_char e; cbn; intros [= <-]; reflexivity. Qed.

Lemma scanstring_of_string (n : nat) (s v rest : string) :
  String.length s <= n ->
  Json.scanstring s = Some (v, rest) ->
  UnicodeJson.scanstring (Unicode.of_string s)
  = Some (Unicode.of_string v, Unicode.of_string rest).
Proof.
  revert s v rest. induction n as [|n IH]; intros s v rest Hn;
    destruct s as [|c s1]; cbn [Json.scanstring]; try discriminate;
    [cbn [String.length] in Hn; lia|].
  cbn [String.length] in Hn.
  cbn [Unicode.of_string UnicodeJson.scanstring].
  change UnicodeJson.dquote with (Unicode.char Json.dquote).
  change UnicodeJson.backslash with (Unicode.char Json.backslash).
  rewrite !char_eqb, char_control.
  destruct (Ascii.eqb c Json.dquote); [now intros [= <- <-]|].
  destruct (Ascii.eqb c Json.backslash).
  - destruct s1 as [|e s2]; [discriminate|].
    cbn [String.length] in Hn. cbn [Unicode.of_string]. rewrite char_eqb.
    destruct (Ascii.eqb e "u").
    + destruct s2 as [|h1 [|h2 [|h3 [|h4 s3]]]]; try discriminate.
      cbn [String.length] in Hn. cbn [Unicode.of_string].
      destruct (Json.decode_u h1 h2 h3 h4) as [ch|] eqn:Hd; [|discriminate].
      destruct (decode_u_char _ _ _ _ _ Hd) as [-> ->].
      destruct (Json.scanstring s3) as [[v' rest']|] eqn:Hs; [|discriminate].
      cbn [Json.cons_fst]. intros [= <- <-].
      rewrite (IH s3 v' rest') by (lia || assumption). reflexivity.
    + destruct (Json.unescape_char e) as [ch|] eqn:Hu; [|discriminate].
      rewrite (unescape_char_char _ _ Hu).
      destruct (Json.scanstring s2) as [[v' rest']|] eqn:Hs; [|discriminate].
      cbn [Json.cons_fst]. intros [= <- <-].
      rewrite (IH s2 v' rest') by (lia || assumption). reflexivity.
  - destruct (nat_of_ascii c <? 32)%nat; [discriminate|].
    destruct (Json.scanstring s1) as [[v' rest']|] eqn:Hs; [|discriminate].
    cbn [Json.cons_fst]. intros [= <- <-].
    rewrite (IH s1 v' rest') by (lia || assumption). reflexivity.
Qed.

Lemma length_of_string (s : string) :
  List.length (Unicode.of_string s) = String.length s.
Proof. induction s as [|c s IH]; cbn; [reflexivity | now rewrite IH]. Qed.

Lemma skip_ws_of_string (s : string) :
  UnicodeJson.skip_ws (Unicode.of_string s)
  = Unicode.of_string (Json.skip_ws s).
Proof.
  induction s as [|c s IH]; [reflexivity|].
  cbn [Unicode.of_string UnicodeJson.skip_ws Json.skip_ws].
  replace (UnicodeJson.is_ws (Unicode.char c)) with (Json.is_ws c)
    by (each_char c; reflexivity).
  destruct (Json.is_ws c); [exact IH | reflexivity].
Qed.

Lemma eqb_of_string (a b : string) :
  Unicode.eqb (Unicode.of_string a) (Unicode.of_string b) = String.eqb a b.
Proof.
  revert b. induction a as [|c a IH]; intros [|d b]; try reflexivity.
  cbn [Unicode.of_string Unicode.eqb String.eqb]. rewrite char_eqb, IH.
  now destruct (Ascii.eqb c d).
Qed.

Lemma dict_set_of_dict (d : Json.dict) (k v : string) :
  UnicodeJson.dict_set (of_dict d) (Unicode.of_string k) (Unicode.of_string v)
  = of_dict (Json.dict_set d k v).
Proof.
  induction d as [|[k' v'] d IH]; [reflexivity|].
  cbn [of_dict of_pair map fst snd UnicodeJson.dict_set Json.dict_set].
  rewrite eqb_of_string. destruct (String.eqb k' k); [reflexivity|].
  cbn [map of_pair fst snd]. f_equal. exact IH.
Qed.

Lemma dict_of_pairs_of_dict (pairs : list (string * string)) :
  UnicodeJson.dict_of_pairs (map of_pair pairs)
  = of_dict (Json.dict_of_pairs pairs).
Proof.
  unfold UnicodeJson.dict_of_pairs, Json.dict_of_pairs.
  change (@nil (Unicode.str * Unicode.str)) with (of_dict []).
  generalize (@nil (string * string)) as d.
  induction pairs as [|[k v] rest IH]; intros d; [reflexivity|].
  cbn [map fold_left of_pair fst snd]. rewrite dict_set_of_dict. apply IH.
Qed.

Lemma members_of_string (fuel : nat) (s : string)
  (pairs out : list (string * string)) (rest : string) :
  Json.members fuel s pairs = Some (out, rest) ->
  UnicodeJson.members fuel (Unicode.of_string s) (map of_pair pairs)
  = Some (map of_pair out, Unicode.of_string rest).
Proof.
  revert s pairs. induction fuel as [|fuel IH]; intros s pairs; [discriminate|].
  cbn [Json.members UnicodeJson.members].
  destruct (Json.scanstring s) as [[key s1]|] eqn:Hk; [|discriminate].
  rewrite (scanstring_of_string _ _ _ _ (le_n _) Hk), skip_ws_of_string.
  destruct (Json.skip_ws s1) as [|c0 s2]; [discriminate|].
  each_char c0; cbv beta iota; try discriminate.
  cbn [Unicode.of_string].
  change (Unicode.char ":" =? Unicode.char ":")%N with true. cbv iota.
  rewrite skip_ws_of_string.
  destruct (Json.skip_ws s2) as [|q s3]; [discriminate|].
  cbn [Unicode.of_string].
  change UnicodeJson.dquote with (Unicode.char Json.dquote).
  rewrite char_eqb.
  destruct (Ascii.eqb q Json.dquote); [|discriminate].
  destruct (Json.scanstring s3) as [[value s4]|] eqn:Hv; [|discriminate].
  rewrite (scanstring_of_string _ _ _ _ (le_n _) Hv), skip_ws_of_string.
  destruct (Json.skip_ws s4) as [|sep s5]; [discriminate|].
  each_char sep; cbv beta iota; try discriminate; cbn [Unicode.of_string].
  - change (Unicode.char "}" =? Unicode.char "}")%N with true. cbv iota.
    intros [= <- <-]. now rewrite map_app.
  - change (Unicode.char "," =? Unicode.char "}")%N with false.
    change (Unicode.char "," =? Unicode.char ",")%N with true. cbv iota.
    rewrite skip_ws_of_string.
    destruct (Json.skip_ws s5) as [|q' s6]; [discriminate|].
    cbn [Unicode.of_string]. rewrite char_eqb.
    destruct (Ascii.eqb q' Json.dquote); [|discriminate].
    intros H. apply IH in H. now rewrite map_app in H.
Qed.

Lemma parse_object_of_string (s : string) (d : Json.dict) (rest : string) :
  Json.parse_object s = Some (d, rest) ->
  UnicodeJson.parse_object (Unicode.of_string s)
  = Some (of_dict d, Unicode.of_string rest).
Proof.
  unfold Json.parse_object, UnicodeJson.parse_object.
  rewrite skip_ws_of_string.
  destruct (Json.skip_ws s) as [|q s1]; [discriminate|].
  cbn [Unicode.of_string].
  destruct (Ascii.eqb_spec q "}") as [->|Hq].
  { change (Unicode.char "}" =? Unicode.char "}")%N with true. cbv iota.
    now intros [= <- <-]. }
  rewrite (proj2 (N.eqb_neq _ _)); [|rewrite <- N.eqb_neq, char_eqb;
                                      now apply Ascii.eqb_neq].
  change UnicodeJson.dquote with (Unicode.char Json.dquote).
  rewrite char_eqb, length_of_string.
  replace (match q with
           | "}"%char => Some ([], s1)
           | _ => if Ascii.eqb q Json.dquote
                  then match Json.members (String.length s1) s1 [] with
                       | Some (pairs, rest0) =>
                           Some (Json.dict_of_pairs pairs, rest0)
                       | None => None
                       end
                  else None
           end)
    with (if Ascii.eqb q Json.dquote
          then match Json.members (String.length s1) s1 [] with
               | Some (pairs, rest0) => Some (Json.dict_of_pairs pairs, rest0)
               | None => None
               end
          else None)
    by (each_char q; try reflexivity; now contradiction Hq).
  destruct (Ascii.eqb q Json.dquote); [|discriminate].
  destruct (Json.members (String.length s1) s1 []) as [[pairs rest0]|] eqn:Hm;
    [|discriminate].
  intros [= <- <-].
  pose proof (members_of_string _ _ [] _ _ Hm) as Hm'. cbn [map] in Hm'.
  rewrite Hm'. now rewrite dict_of_pairs_of_dict.
Qed.

Lemma loads_of_string (s : string) (d : Json.dict) :
  Json.loads s = Ok d ->
  UnicodeJson.loads (Unicode.of_string s) = Ok (of_dict d).
Proof.
  unfold Json.loads, UnicodeJson.loads. rewrite skip_ws_of_string.
  destruct (Json.skip_ws s) as [|c s1]; [discriminate|].
  each_char c; cbv beta iota; try discriminate.
  cbn [Unicode.of_string].
  change (Unicode.char "{" =? Unicode.char "{")%N with true. cbv iota.
  destruct (Json.parse_object s1) as [[d' rest]|] eqn:Hp; [|discriminate].
  rewrite (parse_object_of_string _ _ _ Hp), skip_ws_of_string.
  destruct (Json.skip_ws rest); [|discriminate].
  cbn [is_empty Unicode.of_string]. now intros [= <-].
Qed.

Lemma universal_newlines_of_string (n : nat) (s : string) :
  String.length s <= n ->
  UnicodeLog.universal_newlines (Unicode.of_string s)
  = Unicode.of_string (ChunkLog.universal_newlines s).
Proof.
  revert s. induction n as [|n IH]; intros [|c s1] Hn; try reflexivity;
    cbn [String.length] in Hn; [lia|].
  cbn [Unicode.of_string UnicodeLog.universal_newlines
       ChunkLog.universal_newlines].
  change 13%N with (Unicode.char cr). rewrite char_eqb.
  destruct (Ascii.eqb c cr).
  - cbn [Unicode.of_string]. change (Unicode.char nl) with 10%N. f_equal.
    destruct s1 as [|d s2]; [reflexivity|].
    cbn [String.length] in Hn. cbn [Unicode.of_string].
    change 10%N with (Unicode.char nl). rewrite char_eqb.
    destruct (Ascii.eqb d nl).
    + apply IH. lia.
    + apply (IH (String d s2)). cbn [String.length]. lia.
  - cbn [Unicode.of_string]. f_equal. apply IH. lia.
Qed.

Lemma lines_keepends_of_string (s : string) :
  UnicodeLog.lines_keepends (Unicode.of_string s)
  = map Unicode.of_string (ChunkLog.lines_keepends s).
Proof.
  induction s as [|c s IH]; [reflexivity|].
  cbn [Unicode.of_string UnicodeLog.lines_keepends ChunkLog.lines_keepends].
  change 10%N with (Unicode.char nl). rewrite char_eqb, IH.
  destruct (Ascii.eqb c nl); [reflexivity|].
  now destruct (ChunkLog.lines_keepends s).
Qed.

(** What the reader on 8-bit text returns, the reader on strings in
    full returns for the same text. *)
Lemma read_log_of_string (file : string) (records : list Json.dict) :
  ChunkLog.read_log file = Ok records ->
  UnicodeLog.read_log (Unicode.of_string file) = Ok (map of_dict records).
Proof.
  unfold ChunkLog.read_log, UnicodeLog.read_log.
  rewrite (universal_newlines_of_string _ _ (le_n _)), lines_keepends_of_string.
  generalize (ChunkLog.lines_keepends (ChunkLog.universal_newlines file)).
  intros lines. revert records.
  induction lines as [|l rest IH]; intros records; cbn [map mapM bind].
  - now intros [= <-].
  - destruct (Json.loads l) as [d|] eqn:Hl; cbn [bind]; [|discriminate].
    rewrite (loads_of_string _ _ Hl). cbn [bind].
    destruct (mapM Json.loads rest) as [ds|]; cbn [bind]; [|discriminate].
    intros [= <-]. now rewrite (IH ds eq_refl).
Qed.

End Agreement.

Section Pipeline.
Import Py Design.

Lemma of_string_app (a b : string) :
  Unicode.of_string (a ++ b) = (Unicode.of_string a ++ Unicode.of_string b)%list.
Proof. induction a as [|c a IH]; cbn; [reflexivity | now rewrite IH]. Qed.

Lemma escape_char_of_ascii (c : ascii) :
  UnicodeJson.escape_char (Unicode.char c)
  = Unicode.of_string (Json.escape_char c).
Proof. each_char c; reflexivity. Qed.

Lemma escape_of_string (s : string) :
  UnicodeJson.escape (Unicode.of_string s) = Unicode.of_string (Json.escape s).
Proof.
  induction s as [|c s IH]; [reflexivity|].
  unfold UnicodeJson.escape in *.
  cbn [Unicode.of_string flat_map Json.escape].
  now rewrite IH, escape_char_of_ascii, of_string_app.
Qed.

Lemma encode_str_of_string (s : string) :
  UnicodeJson.encode_str (Unicode.of_string s)
  = Unicode.of_string (Json.encode_str s).
Proof.
  unfold UnicodeJson.encode_str, Json.encode_str.
  cbn [Unicode.of_string]. now rewrite escape_of_string, of_string_app.
Qed.

Lemma join_of_string (sep : string) (parts : list string) :
  Unicode.join (Unicode.of_string sep) (map Unicode.of_string parts)
  = Unicode.of_string (join sep parts).
Proof.
  induction parts as [|p [|q rest] IH]; [reflexivity | reflexivity |].
  change (Unicode.join (Unicode.of_string sep)
            (map Unicode.of_string (p :: q :: rest)))
    with (Unicode.of_string p ++ Unicode.of_string sep
          ++ Unicode.join (Unicode.of_string sep)
               (map Unicode.of_string (q :: rest)))%list.
  rewrite IH.
  change (join sep (p :: q :: rest))
    with (p ++ sep ++ join sep (q :: rest))%string.
  now rewrite !of_string_app.
Qed.

(** On 8-bit strings the two models of [json.dumps] write the same
    text. *)
Lemma dumps_of_dict (d : Json.dict) :
  UnicodeJson.dumps (of_dict d) = Unicode.of_string (Json.dumps d).
Proof.
  unfold UnicodeJson.dumps, Json.dumps, of_dict.
  rewrite !of_string_app, <- join_of_string, !map_map.
  f_equal. f_equal. f_equal. apply map_ext. intros [k v].
  unfold UnicodeJson.encode_item, Json.encode_item, of_pair. cbn [fst snd].
  now rewrite !of_string_app, !encode_str_of_string.
Qed.

Lemma log_lines_of_dict (ds : list Json.dict) :
  log_lines (map of_dict ds) = Unicode.of_string (log_text ds).
Proof.
  induction ds as [|d rest IH]; [reflexivity|].
  cbn [map log_lines log_text]. rewrite IH, dumps_of_dict, of_string_app.
  reflexivity.
Qed.

Lemma encodable_of_string (s : string) :
  Unicode.encodable (Unicode.of_string s) = true.
Proof.
  induction s as [|c s IH]; [reflexivity|].
  cbn [Unicode.of_string Unicode.encodable forallb].
  fold (Unicode.encodable (Unicode.of_string s)). rewrite IH.
  each_char c; reflexivity.
Qed.

Lemma encodable_of_chunk (cs : list AutoChunker.Chunk) :
  forallb encodable_chunk (map of_chunk cs) = true.
Proof.
  induction cs as [|c rest IH]; [reflexivity|].
  cbn [map forallb]. rewrite IH. unfold encodable_chunk, of_chunk.
  cbn [UnicodeLog.text UnicodeLog.source UnicodeLog.type].
  now rewrite !encodable_of_string.
Qed.

Lemma as_dict_of_chunk (cs : list AutoChunker.Chunk) :
  map UnicodeLog.as_dict (map of_chunk cs)
  = map of_dict (map ChunkLog.as_dict cs).
Proof. rewrite !map_map. apply map_ext. reflexivity. Qed.

(** X12: the three scripts in a row, for files whose paths and texts
    stay within the 8-bit characters: when the error line of each
    failing file gets printed, the walk returns chunks, the log is
    written from them without an encoding error and read back whole,
    and the index built from it, with any batch size from 1 on and a
    per-text embedding, has one record per chunk of the walk, in walk
    order, the [g]-th with id [chunk_g], the text of the chunk, its
    embedding and its source and type as metadata. *)
Theorem ingestion_pipeline (w : AutoChunker.world) (root_folder : string)
  (E : Type) (encode : list string -> list E) (embed : string -> E)
  (batch_size : nat) :
  Forall (reported w) (walk_files w root_folder) ->
  (forall docs, encode docs = map embed docs) ->
  1 <= batch_size ->
  exists chunks file records,
    AutoChunker.auto_chunk_folder w root_folder = Ok chunks
    /\ chunks = flat_map (contribution w) (walk_files w root_folder)
    /\ UnicodeLog.write_log (map UnicodeLog.as_dict (map of_chunk chunks)) []
       = (Unicode.of_string file, Ok tt)
    /\ UnicodeLog.read_log (Unicode.of_string file)
       = Ok (map of_dict records)
    /\ ChunkLog.read_log file = Ok records
    /\ BuildIndex.build_index E encode records batch_size []
       = Ok (index_entries embed 0 chunks)
    /\ List.length (index_entries embed 0 chunks) = List.length chunks.
Proof.
  intros Hp He Hb.
  set (chunks := flat_map (contribution w) (walk_files w root_folder)).
  exists chunks, (log_text (map ChunkLog.as_dict chunks)),
    (map ChunkLog.as_dict chunks).
  split.
  { rewrite auto_chunk_folder_flat, (visit_all_reported _ _ _ Hp).
    reflexivity. }
  split; [reflexivity|]. split.
  { rewrite write_log_encodable by apply encodable_of_chunk.
    cbn [app]. now rewrite as_dict_of_chunk, log_lines_of_dict. }
  split.
  { rewrite <- log_lines_of_dict, <- as_dict_of_chunk. apply read_log_lines. }
  split; [apply read_log_text|]. split.
  { now rewrite (build_index_per_text E encode embed He _ batch_size [] Hb). }
  generalize 0. induction chunks as [|c cs IH]; intros n;
    cbn [index_entries List.length]; [reflexivity | now rewrite IH].
Qed.

End Pipeline.

Lemma ingestion_pipeline_witness :
  exists chunks file records,
    AutoChunker.auto_chunk_folder
      (Design.faulty_world "d/bad.py" "x = 1"
         [("d", ["a.py"; "bad.py"; "c.md"])]) "d"
    = Py.Ok chunks
    /\ UnicodeLog.write_log
         (map UnicodeLog.as_dict (map Design.of_chunk chunks)) []
       = (Unicode.of_string file, Py.Ok tt)
    /\ ChunkLog.read_log file = Py.Ok records
    /\ BuildIndex.build_index nat (map String.length) records 1 []
       = Py.Ok (Design.index_entries String.length 0 chunks).
Proof.
  destruct (ingestion_pipeline
              (Design.faulty_world "d/bad.py" "x = 1"
                 [("d", ["a.py"; "bad.py"; "c.md"])]) "d"
              nat (map String.length) String.length 1)
    as (chunks & file & records & Hw & _ & Hf & _ & Hr & Hi & _).
  - repeat constructor.
  - reflexivity.
  - lia.
  - exists chunks, file, records. repeat split; assumption.
Defined.

(* ================================================================== *)
(** * More on context assembly *)

Section AssemblyFacts.
Import Py Json Design Extra.

Lemma context_chunks_untyped (start : nat) (rs : list (string * string)) :
  mapM (fun '(i, (doc, meta)) => context_chunk i doc meta)
       (enumerate start (zip (map fst rs) (map untyped rs)))
  = Ok (blocks start (map as_unknown rs)).
Proof.
  revert start. induction rs as [|r rest IH]; intros start; [reflexivity|].
  cbn [map zip enumerate mapM]. rewrite IH. reflexivity.
Qed.

Lemma source_lines_untyped (start : nat) (rs : list (string * string)) :
  mapM (fun '(i, meta) => RagQuery.source_line i meta)
       (enumerate start (map untyped rs))
  = Ok (citations start (map as_unknown rs)).
Proof.
  revert start. induction rs as [|r rest IH]; intros start; [reflexivity|].
  cbn [map enumerate mapM]. rewrite IH. reflexivity.
Qed.

(** X13: a retrieved result whose metadata has no [type] is rendered
    with the type ["unknown"], by both assemblers, and is otherwise
    assembled like any other. *)
Theorem missing_type_is_unknown (rs : list (string * string)) :
  RagQuery.assemble (map fst rs) (map untyped rs)
  = Ok (join newline (blocks 1 (map as_unknown rs)),
        VStr (join newline (citations 1 (map as_unknown rs))))
  /\ RagUtils.assemble (map fst rs) (map untyped rs)
     = Ok (join newline (blocks 1 (map as_unknown rs)),
           VDicts (map untyped rs)).
Proof.
  unfold RagQuery.assemble, RagUtils.assemble, context_chunks.
  rewrite context_chunks_untyped. cbn [bind].
  now rewrite source_lines_untyped.
Qed.

Lemma context_chunk_raises (i : nat) (doc : string) (meta : dict) (e : exn) :
  context_chunk i doc meta = Raise e -> e = Exn "KeyError" "source".
Proof.
  unfold context_chunk.
  destruct (getitem meta "source") eqn:Hs; cbn [bind]; [discriminate|].
  intros [= <-]. now apply getitem_raises in Hs.
Qed.

Lemma context_chunk_no_source (i : nat) (doc : string) (meta : dict) :
  dict_find meta "source" = None ->
  context_chunk i doc meta = Raise (Exn "KeyError" "source").
Proof. intros H. unfold context_chunk, getitem. now rewrite H. Qed.

Lemma zip_enumerate_covers (docs : list string) (metas : list dict)
  (start : nat) (m : dict) :
  List.length docs = List.length metas -> In m metas ->
  exists i doc, In (i, (doc, m)) (enumerate start (zip docs metas)).
Proof.
  revert metas start. induction docs as [|d docs IH]; intros metas start Hlen Hin;
    destruct metas as [|m0 metas]; try discriminate; [destruct Hin|].
  cbn [zip enumerate]. destruct Hin as [-> | Hin].
  - exists start, d. now left.
  - injection Hlen as Hlen.
    destruct (IH metas (S start) Hlen Hin) as (i & doc & H).
    exists i, doc. now right.
Qed.

(** X14: when the store hands back a result whose metadata has no
    [source], retrieval does not return a context without it: both
    assemblers raise [KeyError('source')]. *)
Theorem missing_source_raises (docs : list string) (metas : list dict)
  (m : dict) :
  List.length docs = List.length metas ->
  In m metas -> dict_find m "source" = None ->
  RagQuery.assemble docs metas = Raise (Exn "KeyError" "source")
  /\ RagUtils.assemble docs metas = Raise (Exn "KeyError" "source").
Proof.
  intros Hlen Hin Hm.
  assert (H : context_chunks docs metas = Raise (Exn "KeyError" "source")).
  { unfold context_chunks.
    destruct (mapM_cases (fun '(i, (doc, meta)) => context_chunk i doc meta)
                         (enumerate 1 (zip docs metas)))
      as [(ys & _ & _ & Hall) | ([i [doc meta]] & e & _ & He & ->)].
    - destruct (zip_enumerate_covers docs metas 1 m Hlen Hin) as (i & doc & Hi).
      destruct (Hall _ Hi) as (y & Hy).
      rewrite (context_chunk_no_source i doc m Hm) in Hy. discriminate.
    - now rewrite (context_chunk_raises _ _ _ _ He). }
  unfold RagQuery.assemble, RagUtils.assemble. rewrite H. now split.
Qed.

End AssemblyFacts.

Lemma missing_source_raises_witness :
  RagQuery.assemble ["D1"; "D2"]
    [[("source", "a.py"); ("type", "function")]; [("type", "markdown")]]
  = Py.Raise (Py.Exn "KeyError" "source").
Proof.
  apply (missing_source_raises ["D1"; "D2"]
           [[("source", "a.py"); ("type", "function")]; [("type", "markdown")]]
           [("type", "markdown")]).
  - reflexivity.
  - right. left. reflexivity.
  - reflexivity.
Defined.

(* ================================================================== *)
(** * The app and the interactive loop *)

Section AppFacts.
Import Py Json Design Extra PromptTemplates.

(** The three templates are their fixed text around their fields. *)
Lemma templates_shape :
  GEN_PROMPT = (GEN_HEAD ++ "{task}" ++ GEN_TAIL ++ "{context}")%string
  /\ CORRECT_PROMPT = (CORRECT_HEAD ++ "{code}" ++ CORRECT_TAIL ++ "{context}")%string
  /\ GPU_PROMPT = (GPU_HEAD ++ "{code}" ++ GPU_TAIL ++ "{context}")%string.
Proof. repeat split. Qed.

Lemma format_gen (task context : string) :
  PyText.format GEN_PROMPT [("task", task); ("context", context)]
  = Ok (GEN_HEAD ++ task ++ GEN_TAIL ++ context)%string.
Proof.
  unfold PyText.format. cbv -[append]. cbn [append].
  now rewrite ?append_nil_r.
Qed.

Lemma format_correct (code context : string) :
  PyText.format CORRECT_PROMPT [("code", code); ("context", context)]
  = Ok (CORRECT_HEAD ++ code ++ CORRECT_TAIL ++ context)%string.
Proof.
  unfold PyText.format. cbv -[append]. cbn [append].
  now rewrite ?append_nil_r.
Qed.

Lemma format_gpu (code context : string) :
  PyText.format GPU_PROMPT [("code", code); ("context", context)]
  = Ok (GPU_HEAD ++ code ++ GPU_TAIL ++ context)%string.
Proof.
  unfold PyText.format. cbv -[append]. cbn [append].
  now rewrite ?append_nil_r.
Qed.

Lemma build_prompt_total (task_type user_task : string)
  (code_input : option string) (context : string) :
  exists prompt, App.build_prompt task_type user_task code_input context = Ok prompt.
Proof.
  unfold App.build_prompt.
  destruct (String.eqb task_type "Code Generation");
    [rewrite format_gen; eauto|].
  destruct (String.eqb task_type "Code Correction (Hints)");
    [rewrite format_correct | rewrite format_gpu]; eauto.
Qed.

(** X15: building the prompt never fails and never reads the text of
    the user as a template: whatever the task, the code and the context
    hold, braces included, they are put between the fixed text of the
    template as they are, and the prompt ends with the context. *)
Theorem prompts_take_user_text_verbatim
  (user_task code context : string) (code_input : option string)
  (task_type : string) :
  App.build_prompt "Code Generation" user_task code_input context
  = Ok (GEN_HEAD ++ user_task ++ GEN_TAIL ++ context)%string
  /\ App.build_prompt "Code Correction (Hints)" user_task (Some code) context
     = Ok (CORRECT_HEAD ++ code ++ CORRECT_TAIL ++ context)%string
  /\ App.build_prompt "GPU Optimization" user_task (Some code) context
     = Ok (GPU_HEAD ++ code ++ GPU_TAIL ++ context)%string
  /\ exists head,
       App.build_prompt task_type user_task code_input context
       = Ok (head ++ "Context:" ++ NL ++ context)%string.
Proof.
  split; [apply format_gen|]. split; [apply format_correct|].
  split; [apply format_gpu|].
  unfold App.build_prompt.
  destruct (String.eqb task_type "Code Generation").
  { rewrite format_gen.
    exists (GEN_HEAD ++ user_task ++ "." ++ NL
            ++ "Use PyTorch or RAPIDS where possible. Add brief comments. Cite sources in [brackets] if appropriate."
            ++ NL)%string.
    unfold GEN_TAIL. now rewrite !append_assoc. }
  destruct (String.eqb task_type "Code Correction (Hints)").
  { rewrite format_correct.
    exists (CORRECT_HEAD ++ App.str_of code_input ++ NL ++ NL
            ++ "Using only the context below, analyze the code. If there are bugs, logical errors, or inefficiencies, give only **hints** (not full solutions), "
            ++ "and explain why they matter for data science or ML."
            ++ NL)%string.
    unfold CORRECT_TAIL. now rewrite !append_assoc. }
  rewrite format_gpu.
  exists (GPU_HEAD ++ App.str_of code_input ++ NL ++ NL
          ++ "Using only the context below, suggest modifications to maximize GPU usage (PyTorch `.cuda()`, RAPIDS/cuDF, or similar). "
          ++ "Explain how these changes improve time or memory complexity. Output the optimized code and a brief explanation."
          ++ NL)%string.
  unfold GPU_TAIL. now rewrite !append_assoc.
Qed.

Lemma lmstudio_inference_ok
  (create : string -> nat -> result (list LlmUtils.content))
  (prompt : string) (n : nat) :
  LlmUtils.lmstudio_inference create prompt n
  = Ok (shown_answer (create prompt n)).
Proof.
  unfold LlmUtils.lmstudio_inference, shown_answer.
  destruct (create prompt n) as [[|c rest]|e]; reflexivity.
Qed.

Lemma app_source_lines (start : nat) (cs : list AutoChunker.Chunk) :
  mapM (fun '(i, meta) => App.source_line i meta)
       (enumerate start (map metadata_of_chunk cs))
  = Ok (app_sources start cs).
Proof.
  revert start. induction cs as [|c rest IH]; intros start; [reflexivity|].
  cbn [map enumerate mapM]. rewrite IH. reflexivity.
Qed.

Lemma length_app_sources (start : nat) (cs : list AutoChunker.Chunk) :
  List.length (app_sources start cs) = List.length cs.
Proof.
  revert start. induction cs as [|c cs IH]; intros start;
    cbn [app_sources List.length]; [reflexivity | now rewrite IH].
Qed.

(** X16: one click of the app: the query is the task description when
    there is one and else the pasted code; when retrieval answers, the
    handler shows the assembled context, an answer and one source line
    per result, whether the inference service completes or fails: the
    answer is the content of the first choice of the completion asked
    with 512 tokens for the prompt built (a text, or [None] for a null
    content), the string [Error parsing response: ] followed by the
    message of the exception when the service raises, and that string
    with the message of the [IndexError] when the completion has no
    choice; when retrieval raises, the handler raises the same
    exception.  For code generation there is no code, and the query is
    the task description. *)
Theorem on_click_outcomes
  (query : string -> nat -> result (list string * list dict))
  (create : string -> nat -> result (list LlmUtils.content))
  (task_type user_task : string) (code_input : option string) (top_k : nat) :
  (forall cs,
     query (App.query_text user_task code_input) top_k
     = Ok (map AutoChunker.text cs, map metadata_of_chunk cs) ->
     exists prompt answer,
       App.build_prompt task_type user_task code_input
                        (join newline (blocks 1 cs)) = Ok prompt
       /\ match create prompt 512 with
          | Ok (content :: _) => answer = content
          | Ok [] =>
              answer = Some "Error parsing response: list index out of range"
          | Raise e =>
              answer = Some ("Error parsing response: " ++ exn_msg e)%string
          end
       /\ App.on_click query create task_type user_task code_input top_k
          = Ok (join newline (blocks 1 cs), answer, app_sources 1 cs)
       /\ List.length (app_sources 1 cs) = List.length cs)
  /\ (forall e,
        query (App.query_text user_task code_input) top_k = Raise e ->
        App.on_click query create task_type user_task code_input top_k
        = Raise e)
  /\ (user_task <> EmptyString ->
      App.query_text user_task code_input = user_task)
  /\ (forall code, code_input = Some code ->
        App.query_text EmptyString code_input = code)
  /\ (forall task_area code_area,
        App.query_text (fst (App.inputs "Code Generation" task_area code_area))
                       (snd (App.inputs "Code Generation" task_area code_area))
        = task_area).
Proof.
  split; [|split; [|split; [|split]]].
  - intros cs Hq.
    destruct (build_prompt_total task_type user_task code_input
                                 (join newline (blocks 1 cs))) as (prompt & Hp).
    exists prompt, (shown_answer (create prompt 512)).
    split; [exact Hp|]. split.
    { unfold shown_answer.
      destruct (create prompt 512) as [[|c rest]|e]; reflexivity. }
    split.
    + unfold App.on_click, RagUtils.retrieve_context. rewrite Hq.
      cbn [bind fst snd]. rewrite assemble_utils. cbn [bind fst snd].
      rewrite Hp. cbn [bind]. rewrite lmstudio_inference_ok.
      cbn [bind App.metadata_list].
      rewrite app_source_lines. reflexivity.
    + apply length_app_sources.
  - intros e Hq. unfold App.on_click, RagUtils.retrieve_context.
    now rewrite Hq.
  - intros Hne. unfold App.query_text.
    destruct user_task; [congruence | reflexivity].
  - intros code ->. unfold App.query_text. cbn [is_empty negb].
    now destruct code.
  - intros task_area code_area. cbn. unfold App.query_text.
    now destruct task_area.
Qed.



End AppFacts.

Lemma on_click_outcomes_witness :
  App.on_click
    (fun _ _ => Py.Ok (["D1"; "D2"],
                       map Design.metadata_of_chunk (Design.two_results "D1" "D2")))
    (fun _ _ => Py.Raise (Py.Exn "APIConnectionError" "Connection refused"))
    "Code Correction (Hints)" "" (Some "d = {}") 4
  = Py.Ok (Py.join Design.newline (Design.blocks 1 (Design.two_results "D1" "D2")),
           Some "Error parsing response: Connection refused",
           ["[1] a.py (function)"; "[2] b.md (markdown)"]).
Proof.
  destruct (proj1 (on_click_outcomes
              (fun _ _ => Py.Ok (["D1"; "D2"],
                                 map Design.metadata_of_chunk
                                     (Design.two_results "D1" "D2")))
              (fun _ _ => Py.Raise (Py.Exn "APIConnectionError" "Connection refused"))
              "Code Correction (Hints)" "" (Some "d = {}") 4)
             (Design.two_results "D1" "D2") eq_refl)
    as (prompt & answer & _ & Ha & Hc & _).
  rewrite Hc. cbn in Ha. rewrite Ha. reflexivity.
Defined.

